(** * Detection smoothing, overlay rendering and the detection loop

    A shallow embedding of the Python sources [main_controller.py],
    [camera_window/camera_window.py], [model/model_loader.py] and
    [camera/camera_manager.py].

    Conventions of the embedding:
    - Python [float]s (confidences, [time.time()] readings) are exact
      rationals [Q] where only their order matters; where the value of a
      float or a failure of the arithmetic matters, the code is embedded
      a second time over IEEE 754 binary64 numbers ([Binary64]);
    - every call of [time.time()] and every call into an external library
      (camera, interpreter, display) is an explicit input of the function
      that makes the call;
    - a Python exception is a value of [py_exception]; code that can raise
      returns a [result];
    - numpy arrays live in a [heap] and are addressed by reference, so that
      aliasing and in-place drawing are visible. *)

From Stdlib Require Import QArith Lqa ZArith List String Bool Lia.
From Stdlib Require Floats.SpecFloat.
From stdpp Require Import base list strings.
Import ListNotations.

Local Open Scope string_scope.
Local Open Scope list_scope.
Local Open Scope nat_scope.

(** ** Python exceptions and results *)

Inductive py_exception : Type :=
| KeyboardInterrupt
| SystemExit
| AttributeError
| ValueError
| IndexError
| ZeroDivisionError
| OtherException (class_name : string).

(** [except Exception] catches every class derived from [Exception];
    [KeyboardInterrupt] and [SystemExit] derive from [BaseException] only. *)
Definition is_Exception (e : py_exception) : bool :=
  match e with
  | KeyboardInterrupt | SystemExit => false
  | _ => true
  end.

Inductive result (A : Type) : Type :=
| Ok (a : A)
| Raise (e : py_exception).
Arguments Ok {A} a.
Arguments Raise {A} e.

Definition rbind {A B} (r : result A) (k : A -> result B) : result B :=
  match r with
  | Ok a => k a
  | Raise e => Raise e
  end.

#[global] Instance result_bind : MBind result := λ A B k r, rbind r k.
#[global] Instance result_ret : MRet result := @Ok.

(** ** Rational helpers *)

Definition Qlt_bool (x y : Q) : bool := negb (Qle_bool y x).

(** Python's [sum]: starts from [0] and adds left to right.  Here the
    additions are exact; [Binary64.py_sum] is the sum of floats. *)
Definition py_sum (l : list Q) : Q := fold_left Qplus l 0%Q.

(** Python's [x / n] for a float [x] and an int [n], exact here;
    [Binary64.py_div] is the division of floats. *)
Definition py_div (x : Q) (n : nat) : result Q :=
  match n with
  | O => Raise ZeroDivisionError
  | S _ => Ok (x / inject_Z (Z.of_nat n))%Q
  end.

(** ** Insertion-ordered dictionaries

    [class_counts] is a Python [dict] that is iterated; since iteration
    order is insertion order, it is an association list whose keys are
    distinct and kept in the order of their first insertion. *)

Definition dict (V : Type) : Type := list (string * V).

Fixpoint dict_get {V} (d : dict V) (k : string) (default : V) : V :=
  match d with
  | [] => default
  | (k', v) :: r => if String.eqb k k' then v else dict_get r k default
  end.

(** [d[k] = v]: overwrite in place, or append a new key at the end. *)
Fixpoint dict_set {V} (d : dict V) (k : string) (v : V) : dict V :=
  match d with
  | [] => [(k, v)]
  | (k', v') :: r =>
      if String.eqb k k' then (k, v) :: r else (k', v') :: dict_set r k v
  end.

(** [max(d, key=d.get)] for a dict of counts: the running maximum is
    replaced only by a strictly larger value, so of several maximal keys
    the first one iterated is returned; an empty dict raises. *)
Fixpoint max_loop (best : string) (best_val : nat) (rest : dict nat) : string :=
  match rest with
  | [] => best
  | (k, v) :: r =>
      if Nat.ltb best_val v then max_loop k v r else max_loop best best_val r
  end.

Definition py_max_key (d : dict nat) : result string :=
  match d with
  | [] => Raise ValueError
  | (k, v) :: r => Ok (max_loop k v r)
  end.

(** ** Detection history and smoothing ([main_controller.py]) *)

(** One entry of [detection_history]: [(class_name, confidence, timestamp)]. *)
Abbreviation sample := (string * Q * Q)%type.

Definition sample_name (s : sample) : string := fst (fst s).
Definition sample_conf (s : sample) : Q := snd (fst s).
Definition observed_at (s : sample) : Q := snd s.

(** [list.pop(0)] *)
Definition list_pop0 {A} (l : list A) : result (A * list A) :=
  match l with
  | [] => Raise IndexError
  | x :: r => Ok (x, r)
  end.

Module Controller.

(** The fields of [ObjectDetectionController] that the detection logic
    reads or writes. *)
Record t : Type := mk {
  is_running : bool;
  show_camera_window : bool;
  confidence_threshold : Q;
  detection_history : list sample;
  max_history : nat
}.

(** [__init__] *)
Definition init : t :=
  {| is_running := false;
     show_camera_window := false;
     confidence_threshold := 0.5%Q;
     detection_history := [];
     max_history := 10 |}.

Definition set_history (self : t) (h : list sample) : t :=
  {| is_running := is_running self;
     show_camera_window := show_camera_window self;
     confidence_threshold := confidence_threshold self;
     detection_history := h;
     max_history := max_history self |}.

Definition set_running (self : t) (b : bool) : t :=
  {| is_running := b;
     show_camera_window := show_camera_window self;
     confidence_threshold := confidence_threshold self;
     detection_history := detection_history self;
     max_history := max_history self |}.

(** [update_detection_history]; [now] is the value of [time.time()]. *)
Definition update_detection_history
    (self : t) (class_name : string) (confidence : Q) (now : Q) : result t :=
  let h := detection_history self ++ [(class_name, confidence, now)] in
  if Nat.ltb (max_history self) (length h) then
    p ← list_pop0 h; Ok (set_history self (snd p))
  else Ok (set_history self h).

(** The list comprehension building [recent_detections]. *)
Fixpoint recent_detections (h : list sample) (current_time : Q)
  : list (string * Q) :=
  match h with
  | [] => []
  | (name, conf, timestamp) :: r =>
      if Qlt_bool (current_time - timestamp) 2.0
      then (name, conf) :: recent_detections r current_time
      else recent_detections r current_time
  end.

(** The counting loop over [recent_detections]. *)
Definition count_step (class_counts : dict nat) (d : string * Q) : dict nat :=
  dict_set class_counts (fst d) (dict_get class_counts (fst d) 0 + 1).

Definition count_classes (recent : list (string * Q)) : dict nat :=
  fold_left count_step recent [].

(** The comprehension [[conf for name, conf in recent if name == c]]. *)
Fixpoint class_confidences (recent : list (string * Q)) (c : string) : list Q :=
  match recent with
  | [] => []
  | (name, conf) :: r =>
      if String.eqb name c then conf :: class_confidences r c
      else class_confidences r c
  end.

(** [get_smoothed_detection]; [now] is the value of [time.time()].  The
    method is an instance method: it receives [self] and hands back the
    object as it leaves it, next to what it returns or raises. *)
Definition get_smoothed_detection (self : t) (now : Q)
  : t * result (string * Q) :=
  match detection_history self with
  | [] => (self, Ok ("No detection", 0.0%Q))
  | _ :: _ =>
      let recent := recent_detections (detection_history self) now in
      match recent with
      | [] => (self, Ok ("No detection", 0.0%Q))
      | _ :: _ =>
          let class_counts := count_classes recent in
          (self,
           most_common_class ← py_max_key class_counts;
           let confs := class_confidences recent most_common_class in
           avg_confidence ← py_div (py_sum confs) (length confs);
           Ok (most_common_class, avg_confidence))
      end
  end.

(** A run of the single producer: successive calls of
    [update_detection_history], each with its own clock reading. *)
Fixpoint run_appends (self : t) (inputs : list sample) : result t :=
  match inputs with
  | [] => Ok self
  | (class_name, confidence, now) :: r =>
      self' ← update_detection_history self class_name confidence now;
      run_appends self' r
  end.

End Controller.

Import Controller.

(** Number of samples of [recent] that bear the label [c]. *)
Definition votes (recent : list (string * Q)) (c : string) : nat :=
  length (class_confidences recent c).

(** Membership of a sample in the trailing window, as the code tests it. *)
Definition in_window (now : Q) (s : sample) : bool :=
  Qlt_bool (now - observed_at s) 2.0.

Definition name_conf (s : sample) : string * Q := (sample_name s, sample_conf s).

(** The window of the specification text: samples with
    [observed_at >= now - window_seconds], in their original order. *)
Definition snapshot_within (window_seconds now : Q) (h : list sample)
  : list sample :=
  List.filter (λ s, Qle_bool (now - window_seconds) (observed_at s)) h.

(** What [get_smoothed_detection] computes from the recent detections. *)
Definition smooth_of_recent (recent : list (string * Q)) : result (string * Q) :=
  match recent with
  | [] => Ok ("No detection", 0.0%Q)
  | _ :: _ =>
      most_common_class ← py_max_key (count_classes recent);
      let confs := class_confidences recent most_common_class in
      avg_confidence ← py_div (py_sum confs) (length confs);
      Ok (most_common_class, avg_confidence)
  end.


(** ** Python values, truthiness and the [copy] method *)

#[warnings="-register-all"]
Inductive py_value : Type :=
| PyNone
| PyStr (s : string)
| PyFloat (x : Q)
| PyTuple (items : list py_value)
| PyList (items : list py_value).

(** The truth value Python gives an object in [if v] and [v if c else w]. *)
Definition truthy (v : py_value) : bool :=
  match v with
  | PyNone => false
  | PyStr s => negb (String.eqb s "")
  | PyFloat x => negb (Qeq_bool x 0)
  | PyTuple items | PyList items =>
      match items with [] => false | _ :: _ => true end
  end.

(** [v.copy()]: of the built-in types above only [list] has the method;
    the lookup of [copy] on a [tuple], [str], [float] or [None] raises
    [AttributeError]. *)
Definition py_copy_method (v : py_value) : result py_value :=
  match v with
  | PyList items => Ok (PyList items)
  | PyNone | PyStr _ | PyFloat _ | PyTuple _ => Raise AttributeError
  end.

(** [int(x)] for a float: truncation towards zero.  A rational is
    always finite; [Binary64.py_int] is [int()] on a float, which fails
    on [nan] and on the infinities. *)
Definition py_int (x : Q) : Z := Z.quot (Qnum x) (Zpos (Qden x)).

(** ** Images and the drawing primitives of the imaging library

    An f-string is kept as its list of fragments, and an image as the
    decoded pixel data together with the drawing operations applied to
    it, so that no rasterisation has to be assumed.  The primitives below
    are the effect of a drawing call that returns; calls that can raise
    are built from them further down ([raising]). *)

Inductive fragment : Type :=
| Lit (s : string)
| FmtStr (s : string)
| FmtPercent1 (x : Q)
| FmtInt (z : Z).

Abbreviation text := (list fragment).
Abbreviation point := (Z * Z)%type.
Abbreviation color := (Z * Z * Z)%type.

Inductive ndarray : Type :=
| Pixels (shape : list Z) (data : list Z)
| Rectangle (img : ndarray) (pt1 pt2 : point) (c : color) (thickness : Z)
| AddWeighted (src1 : ndarray) (alpha : Q) (src2 : ndarray) (beta gamma : Q)
| PutText (img : ndarray) (t : text) (org : point) (fontFace : Z)
          (fontScale : Q) (c : color) (thickness : Z).

Fixpoint shape (a : ndarray) : list Z :=
  match a with
  | Pixels s _ => s
  | Rectangle img _ _ _ _ => shape img
  | AddWeighted src1 _ _ _ _ => shape src1
  | PutText img _ _ _ _ _ _ => shape img
  end.

(** Arrays are objects: they live in a heap and are passed by reference. *)
Abbreviation ref := nat.
Abbreviation heap := (list ndarray).

(** Code that allocates, reads or draws: a state transformer on the heap
    that returns a value or raises. *)
Definition M (A : Type) : Type := heap → heap * result A.

#[global] Instance M_ret : MRet M := λ A a σ, (σ, Ok a).
#[global] Instance M_bind : MBind M := λ A B k m σ,
  match m σ with
  | (σ', Ok a) => k a σ'
  | (σ', Raise e) => (σ', Raise e)
  end.

(** [frame.copy()], where [frame] may be [None]: [None] has no attribute
    [copy]; an array is duplicated into a new object. *)
Definition ndarray_copy (frame : option ref) : M ref := λ σ,
  match frame with
  | None => (σ, Raise AttributeError)
  | Some r =>
      match σ !! r with
      | Some a => (σ ++ [a], Ok (length σ))
      | None => (σ, Raise (OtherException "dangling reference"))
      end
  end.

(** [height, width = a.shape[:2]]: unpacking needs exactly two values. *)
Definition shape_hw (r : ref) : M (Z * Z) := λ σ,
  match σ !! r with
  | Some a =>
      match take 2 (shape a) with
      | [h; w] => (σ, Ok (h, w))
      | _ => (σ, Raise ValueError)
      end
  | None => (σ, Raise (OtherException "dangling reference"))
  end.

(** [cv2.rectangle(img, pt1, pt2, color, thickness)] draws in place. *)
Definition cv2_rectangle (img : ref) (pt1 pt2 : point) (c : color)
    (thickness : Z) : M unit := λ σ,
  (alter (λ a, Rectangle a pt1 pt2 c thickness) img σ, Ok tt).

(** [cv2.putText(img, text, org, fontFace, fontScale, color, thickness)]
    draws in place. *)
Definition cv2_putText (img : ref) (t : text) (org : point) (fontFace : Z)
    (fontScale : Q) (c : color) (thickness : Z) : M unit := λ σ,
  (alter (λ a, PutText a t org fontFace fontScale c thickness) img σ, Ok tt).

(** [cv2.addWeighted(src1, alpha, src2, beta, gamma, dst)] writes the blend
    of the two sources into [dst]. *)
Definition cv2_addWeighted (src1 : ref) (alpha : Q) (src2 : ref)
    (beta gamma : Q) (dst : ref) : M unit := λ σ,
  match σ !! src1, σ !! src2 with
  | Some a, Some b => (<[dst := AddWeighted a alpha b beta gamma]> σ, Ok tt)
  | _, _ => (σ, Raise (OtherException "dangling reference"))
  end.

Definition FONT_HERSHEY_SIMPLEX : Z := 0%Z.

(** [cv2.getTextSize(text, fontFace, fontScale, thickness)] returns
    [((width, height), baseline)]; the metrics of the font are a parameter. *)
Abbreviation font_metrics := (text → Z → Q → Z → (Z * Z) * Z).

(** ** The camera window ([camera_window/camera_window.py]) *)

Module CameraWindow.

Record t : Type := mk {
  width : Z;
  height : Z;
  fps : Z;
  is_running : bool;
  current_detection : option (string * Q);
  font : Z;
  font_scale : Q;
  thickness : Z
}.

(** [__init__] *)
Definition init (width height fps : Z) : t :=
  {| width := width; height := height; fps := fps;
     is_running := false;
     current_detection := None;
     font := FONT_HERSHEY_SIMPLEX;
     font_scale := 0.7%Q;
     thickness := 2%Z |}.

(** The Python object held in [self.current_detection]. *)
Definition detection_value (d : option (string * Q)) : py_value :=
  match d with
  | None => PyNone
  | Some (class_name, confidence) => PyTuple [PyStr class_name; PyFloat confidence]
  end.

(** [update_detection] *)
Definition update_detection (self : t) (class_name : string) (confidence : Q) : t :=
  {| width := width self; height := height self; fps := fps self;
     is_running := is_running self;
     current_detection := Some (class_name, confidence);
     font := font self; font_scale := font_scale self;
     thickness := thickness self |}.

(** The assignment [self.is_running = b]. *)
Definition set_running (self : t) (b : bool) : t :=
  {| width := width self; height := height self; fps := fps self;
     is_running := b;
     current_detection := current_detection self;
     font := font self; font_scale := font_scale self;
     thickness := thickness self |}.

(** [get_current_detection] *)
Definition get_current_detection (self : t) : result py_value :=
  let v := detection_value (current_detection self) in
  if truthy v then py_copy_method v else Ok PyNone.

(** The colour bands shared by the text and by the bar. *)
Definition band_color (confidence : Q) : color :=
  if Qlt_bool 0.7 confidence then (0, 255, 0)%Z
  else if Qlt_bool 0.5 confidence then (0, 255, 255)%Z
  else (0, 0, 255)%Z.

(** The block under the lock in [draw_confidence_overlay]: the stored
    pair if [self.current_detection] is truthy, the placeholder otherwise. *)
Definition displayed_detection (self : t) : string * Q :=
  if truthy (detection_value (current_detection self))
  then default ("No detection", 0.0%Q) (current_detection self)
  else ("No detection", 0.0%Q).

Section Drawing.
Variable getTextSize : font_metrics.

(** [draw_confidence_bar] *)
Definition draw_confidence_bar (self : t) (frame : ref) (confidence : Q)
    (width height : Z) : M unit :=
  let bar_width := 300%Z in
  let bar_height := 30%Z in
  let bar_x := (width - bar_width - 20)%Z in
  let bar_y := 20%Z in
  _ ← cv2_rectangle frame (bar_x, bar_y)
        (bar_x + bar_width, bar_y + bar_height)%Z (50, 50, 50)%Z (-1);
  let confidence_width := py_int (inject_Z bar_width * confidence) in
  let bar_color := band_color confidence in
  _ ← cv2_rectangle frame (bar_x, bar_y)
        (bar_x + confidence_width, bar_y + bar_height)%Z bar_color (-1);
  _ ← cv2_rectangle frame (bar_x, bar_y)
        (bar_x + bar_width, bar_y + bar_height)%Z (255, 255, 255)%Z 2;
  let confidence_percent := [FmtPercent1 confidence] in
  let text_size :=
    (getTextSize confidence_percent (font self) (font_scale self)
                 (thickness self)).1 in
  let text_x := (bar_x + (bar_width - text_size.1) `div` 2)%Z in
  let text_y := (bar_y + (bar_height + text_size.2) `div` 2)%Z in
  cv2_putText frame confidence_percent (text_x, text_y)
    (font self) (font_scale self) (255, 255, 255)%Z (thickness self).

(** [draw_frame_info] *)
Definition draw_frame_info (self : t) (frame : ref) (width height : Z)
    : M unit :=
  let fps_text := [Lit "FPS: "; FmtInt (fps self)] in
  let resolution_text :=
    [Lit "Resolution: "; FmtInt width; Lit "x"; FmtInt height] in
  let info_y := (height - 20)%Z in
  _ ← cv2_putText frame fps_text (width - 150, info_y)%Z
        (font self) 0.5%Q (255, 255, 255)%Z 1;
  cv2_putText frame resolution_text (width - 150, info_y - 20)%Z
    (font self) 0.5%Q (255, 255, 255)%Z 1.

(** [draw_confidence_overlay]; [frame] is [None] or a reference. *)
Definition draw_confidence_overlay (self : t) (frame : option ref) : M ref :=
  display_frame ← ndarray_copy frame;
  hw ← shape_hw display_frame;
  let height := hw.1 in
  let width := hw.2 in
  let '(class_name, confidence) := displayed_detection self in
  overlay ← ndarray_copy (Some display_frame);
  let text_area_height := 120%Z in
  _ ← cv2_rectangle overlay (10, 10)%Z (width - 10, text_area_height)%Z
        (0, 0, 0)%Z (-1);
  _ ← cv2_addWeighted overlay 0.7 display_frame 0.3 0 display_frame;
  let detection_text := [Lit "Object: "; FmtStr class_name] in
  let confidence_text := [Lit "Confidence: "; FmtPercent1 confidence] in
  let status_text :=
    if Qlt_bool 0.5 confidence then [Lit "Status: DETECTED"]
    else [Lit "Status: NO DETECTION"] in
  let text_color := band_color confidence in
  _ ← cv2_putText display_frame detection_text (20, 35)%Z
        (font self) (font_scale self) text_color (thickness self);
  _ ← cv2_putText display_frame confidence_text (20, 60)%Z
        (font self) (font_scale self) text_color (thickness self);
  _ ← cv2_putText display_frame status_text (20, 85)%Z
        (font self) (font_scale self) text_color (thickness self);
  _ ← draw_confidence_bar self display_frame confidence width height;
  _ ← draw_frame_info self display_frame width height;
  mret display_frame.
End Drawing.

End CameraWindow.

(** [ObjectDetectionController.draw_detection_info]; the text size that
    the method asks for is not used by it. *)
Definition draw_detection_info (frame : option ref) (class_name : string)
    (confidence : Q) : M ref :=
  display_frame ← ndarray_copy frame;
  hw ← shape_hw display_frame;
  let height := hw.1 in
  let width := hw.2 in
  overlay ← ndarray_copy (Some display_frame);
  _ ← cv2_rectangle overlay (10, 10)%Z (width - 10, 80)%Z (0, 0, 0)%Z (-1);
  _ ← cv2_addWeighted overlay 0.7 display_frame 0.3 0 display_frame;
  let detection_text := [Lit "Object: "; FmtStr class_name] in
  let confidence_text := [Lit "Confidence: "; FmtPercent1 confidence] in
  let font := FONT_HERSHEY_SIMPLEX in
  let font_scale := 0.7%Q in
  let thickness := 2%Z in
  _ ← cv2_putText display_frame detection_text (20, 40)%Z
        font font_scale (0, 255, 0)%Z thickness;
  _ ← cv2_putText display_frame confidence_text (20, 65)%Z
        font font_scale (0, 255, 0)%Z thickness;
  let bar_width := 200%Z in
  let bar_height := 20%Z in
  let bar_x := (width - bar_width - 20)%Z in
  let bar_y := 20%Z in
  _ ← cv2_rectangle display_frame (bar_x, bar_y)
        (bar_x + bar_width, bar_y + bar_height)%Z (50, 50, 50)%Z (-1);
  let confidence_width := py_int (inject_Z bar_width * confidence) in
  _ ← cv2_rectangle display_frame (bar_x, bar_y)
        (bar_x + confidence_width, bar_y + bar_height)%Z (0, 255, 0)%Z (-1);
  _ ← cv2_rectangle display_frame (bar_x, bar_y)
        (bar_x + bar_width, bar_y + bar_height)%Z (255, 255, 255)%Z 2;
  mret display_frame.

(** A run of heap code from [σ] keeps the heap when every object of [σ]
    is found unchanged afterwards and the reference it returns, if any,
    denotes an object that did not exist in [σ]. *)
Definition keeps_heap (σ : heap) (out : heap * result ref) : Prop :=
  (∀ i x, σ !! i = Some x → out.1 !! i = Some x) ∧
  (∀ r, out.2 = Ok r → σ !! r = None ∧ is_Some (out.1 !! r)).

(** ** The classifier ([model/model_loader.py]) *)

Module ModelLoader.

(** [is_loaded]: whether [self.interpreter] is set. *)
Definition is_loaded (interpreter : bool) : bool := interpreter.

(** [predict]; [pipeline] is what preprocessing, the interpreter and the
    label lookup inside the [try] block yield: a pair, or an exception. *)
Definition predict (interpreter : bool) (pipeline : result (string * Q))
  : result (string * Q) :=
  if negb interpreter then Ok ("Model not loaded", 0.0%Q)
  else
    match pipeline with
    | Ok r => Ok r
    | Raise e => if is_Exception e then Ok ("Error", 0.0%Q) else Raise e
    end.

End ModelLoader.

(** ** The frame source ([camera/camera_manager.py]) *)

Module CameraManager.

(** [get_latest_frame]: [None], or a new copy of [self.current_frame]. *)
Definition get_latest_frame (current_frame : option ndarray) : M (option ref) :=
  match current_frame with
  | None => mret None
  | Some a => λ σ, (σ ++ [a], Ok (Some (length σ)))
  end.

End CameraManager.

(** ** The detection loop ([ObjectDetectionController.run_detection_loop]) *)

(** What the outside world does during one iteration of the loop. *)
Record tick_env : Type := {
  (** the frame source: it fails, or holds no frame, or holds a frame *)
  env_camera : result (option ndarray);
  (** [time.time()] read by the loop *)
  env_time : Q;
  (** [self.model and self.model.is_loaded()] *)
  env_model_loaded : bool;
  (** the inference pipeline inside [predict] *)
  env_pipeline : result (string * Q);
  (** [time.time()] read by [update_detection_history] *)
  env_time_history : Q;
  (** [time.time()] read by [get_smoothed_detection] *)
  env_time_smooth : Q;
  (** [cv2.imshow] *)
  env_imshow : result unit;
  (** [cv2.waitKey(1)] *)
  env_key : Z;
  (** [cv2.imwrite] *)
  env_imwrite : result unit
}.

(** The controller, the local variables of the loop, the heap, and two
    records kept for the statements only: the clock readings of the
    iterations in which [predict] was called (latest first) and the frames
    handed to the display (latest first). *)
Record loop_state : Type := {
  ctrl : Controller.t;
  window : option CameraWindow.t;
  frame_count : Z;
  last_detection_time : Q;
  mem : heap;
  predict_calls : list Q;
  shown : list ref
}.

Definition L (A : Type) : Type := loop_state → loop_state * result A.

#[global] Instance L_ret : MRet L := λ A a s, (s, Ok a).
#[global] Instance L_bind : MBind L := λ A B k m s,
  match m s with
  | (s', Ok a) => k a s'
  | (s', Raise e) => (s', Raise e)
  end.

Definition with_ctrl (s : loop_state) (c : Controller.t) : loop_state :=
  {| ctrl := c; window := window s; frame_count := frame_count s;
     last_detection_time := last_detection_time s; mem := mem s;
     predict_calls := predict_calls s; shown := shown s |}.

Definition with_window (s : loop_state) (w : option CameraWindow.t) : loop_state :=
  {| ctrl := ctrl s; window := w; frame_count := frame_count s;
     last_detection_time := last_detection_time s; mem := mem s;
     predict_calls := predict_calls s; shown := shown s |}.

Definition with_frame_count (s : loop_state) (n : Z) : loop_state :=
  {| ctrl := ctrl s; window := window s; frame_count := n;
     last_detection_time := last_detection_time s; mem := mem s;
     predict_calls := predict_calls s; shown := shown s |}.

Definition with_last_detection_time (s : loop_state) (t : Q) : loop_state :=
  {| ctrl := ctrl s; window := window s; frame_count := frame_count s;
     last_detection_time := t; mem := mem s;
     predict_calls := predict_calls s; shown := shown s |}.

Definition with_mem (s : loop_state) (σ : heap) : loop_state :=
  {| ctrl := ctrl s; window := window s; frame_count := frame_count s;
     last_detection_time := last_detection_time s; mem := σ;
     predict_calls := predict_calls s; shown := shown s |}.

Definition with_predict_calls (s : loop_state) (p : list Q) : loop_state :=
  {| ctrl := ctrl s; window := window s; frame_count := frame_count s;
     last_detection_time := last_detection_time s; mem := mem s;
     predict_calls := p; shown := shown s |}.

Definition with_shown (s : loop_state) (l : list ref) : loop_state :=
  {| ctrl := ctrl s; window := window s; frame_count := frame_count s;
     last_detection_time := last_detection_time s; mem := mem s;
     predict_calls := predict_calls s; shown := l |}.

(** Running heap code, and code that returns or raises, inside the loop. *)
Definition on_heap {A} (m : M A) : L A := λ s,
  let '(σ, r) := m (mem s) in (with_mem s σ, r).

Definition on_result {A} (r : result A) : L A := λ s, (s, r).

Definition modify (f : loop_state → loop_state) : L unit := λ s, (f s, Ok tt).

Definition detection_interval : Q := 0.5%Q.

(** The classification step of an iteration (the body of the two nested
    [if]s once both conditions hold). *)
Definition inference_step (env : tick_env) (current_time : Q) : L unit :=
  _ ← modify (λ s, with_predict_calls s (current_time :: predict_calls s));
  p ← on_result (ModelLoader.predict true (env_pipeline env));
  _ ← (λ s,
        match update_detection_history (ctrl s) p.1 p.2 (env_time_history env) with
        | Ok c => (with_ctrl s c, Ok tt)
        | Raise e => (s, Raise e)
        end);
  _ ← modify (λ s,
        match window s with
        | Some w =>
            if show_camera_window (ctrl s)
            then with_window s (Some (CameraWindow.update_detection w p.1 p.2))
            else s
        | None => s
        end);
  modify (λ s, with_last_detection_time s current_time).

(** The second half of an iteration: smoothing, rendering, display and
    keyboard handling for the frame [frame]. *)
Definition display_step (env : tick_env) (frame : option ref) : L unit :=
  d ← (λ s, (with_ctrl s (get_smoothed_detection (ctrl s) (env_time_smooth env)).1,
             (get_smoothed_detection (ctrl s) (env_time_smooth env)).2));
  threshold ← (λ s, (s, Ok (confidence_threshold (ctrl s))));
  frame' ← on_heap
    (if Qle_bool threshold d.2
     then draw_detection_info frame d.1 d.2
     else draw_detection_info frame "No detection" 0.0%Q);
  _ ← on_result (env_imshow env);
  _ ← modify (λ s, with_shown s (frame' :: shown s));
  let key := Z.land (env_key env) 255 in
  _ ← (if Z.eqb key 113
       then modify (λ s, with_ctrl s (set_running (ctrl s) false))
       else if Z.eqb key 115
            then on_result (env_imwrite env)
            else mret tt);
  modify (λ s, with_frame_count s (frame_count s + 1)%Z).

(** The body of the [try] block of one iteration. *)
Definition tick_body (env : tick_env) : L unit :=
  camera ← on_result (env_camera env);
  frame ← on_heap (CameraManager.get_latest_frame camera);
  match frame with
  | None => mret tt
  | Some _ =>
      let current_time := env_time env in
      s ← (λ s, (s, Ok s));
      _ ← (if Qle_bool detection_interval (current_time - last_detection_time s)
           then if env_model_loaded env
                then inference_step env current_time
                else mret tt
           else mret tt);
      display_step env frame
  end.

(** One iteration: the [try] block and its two handlers, when [print]
    and [time.sleep] in the handlers return ([tick_handled] is the
    iteration with handlers that can fail).  An exception that neither
    handler catches leaves the loop; it is returned. *)
Definition tick (env : tick_env) (s : loop_state)
  : loop_state * option py_exception :=
  match tick_body env s with
  | (s', Ok _) => (s', None)
  | (s', Raise KeyboardInterrupt) =>
      (with_ctrl s' (set_running (ctrl s') false), None)
  | (s', Raise e) => if is_Exception e then (s', None) else (s', Some e)
  end.

(** The [while self.is_running] loop over the iterations that the
    environment provides. *)
Fixpoint iterate (envs : list tick_env) (s : loop_state)
  : loop_state * option py_exception :=
  match envs with
  | [] => (s, None)
  | env :: rest =>
      if is_running (ctrl s) then
        match tick env s with
        | (s', None) => iterate rest s'
        | (s', Some e) => (s', Some e)
        end
      else (s, None)
  end.

(** The entry of [run_detection_loop]. *)
Definition loop_entry (s : loop_state) : loop_state :=
  {| ctrl := set_running (ctrl s) true; window := window s;
     frame_count := 0; last_detection_time := 0; mem := mem s;
     predict_calls := predict_calls s; shown := shown s |}.

Definition run_detection_loop (envs : list tick_env) (s : loop_state)
  : loop_state * option py_exception :=
  iterate envs (loop_entry s).

(** ** The display loop of the camera window ([CameraWindow.run_window]) *)

Record window_env : Type := {
  wenv_camera : result (option ndarray);
  wenv_imshow : result unit;
  wenv_key : Z;
  wenv_imwrite : result unit
}.

Record window_state : Type := {
  win : CameraWindow.t;
  wmem : heap;
  wshown : list ref
}.

Definition with_wmem (s : window_state) (σ : heap) : window_state :=
  {| win := win s; wmem := σ; wshown := wshown s |}.

Section WindowLoop.
Variable getTextSize : font_metrics.

(** The body of the [try] block of [run_window], without the frame-rate
    bookkeeping. *)
Definition window_body (env : window_env) (s : window_state)
  : window_state * result unit :=
  match wenv_camera env with
  | Raise e => (s, Raise e)
  | Ok camera =>
      match CameraManager.get_latest_frame camera (wmem s) with
      | (σ, Raise e) => (with_wmem s σ, Raise e)
      | (σ, Ok None) => (with_wmem s σ, Ok tt)
      | (σ, Ok (Some frame)) =>
          match CameraWindow.draw_confidence_overlay getTextSize (win s)
                  (Some frame) σ with
          | (σ', Raise e) => (with_wmem s σ', Raise e)
          | (σ', Ok display_frame) =>
              match wenv_imshow env with
              | Raise e => (with_wmem s σ', Raise e)
              | Ok _ =>
                  let s' := {| win := win s; wmem := σ';
                               wshown := display_frame :: wshown s |} in
                  let key := Z.land (wenv_key env) 255 in
                  if Z.eqb key 113 then
                    ({| win := CameraWindow.set_running (win s') false;
                        wmem := wmem s'; wshown := wshown s' |}, Ok tt)
                  else if Z.eqb key 115 then (s', wenv_imwrite env)
                  else (s', Ok tt)
              end
          end
      end
  end.

(** One iteration of [run_window] with its two handlers, when [print]
    and [time.sleep] in the handlers return ([window_tick_handled] is the
    iteration with handlers that can fail). *)
Definition window_tick (env : window_env) (s : window_state)
  : window_state * option py_exception :=
  match window_body env s with
  | (s', Ok _) => (s', None)
  | (s', Raise KeyboardInterrupt) =>
      ({| win := CameraWindow.set_running (win s') false;
          wmem := wmem s'; wshown := wshown s' |}, None)
  | (s', Raise e) => if is_Exception e then (s', None) else (s', Some e)
  end.
End WindowLoop.

(** ** Sequences of calls on a camera window *)

(** The methods of [CameraWindow] that assign a field of the object. *)
Inductive window_call : Type :=
| Call_update_detection (class_name : string) (confidence : Q)
| Call_set_running (b : bool).

Definition do_call (w : CameraWindow.t) (c : window_call) : CameraWindow.t :=
  match c with
  | Call_update_detection class_name confidence =>
      CameraWindow.update_detection w class_name confidence
  | Call_set_running b => CameraWindow.set_running w b
  end.

Definition do_calls (w : CameraWindow.t) (cs : list window_call) : CameraWindow.t :=
  fold_left do_call cs w.

Definition is_update (c : window_call) : bool :=
  match c with Call_update_detection _ _ => true | Call_set_running _ => false end.

(** The pair stored by the last [update_detection] of a sequence of
    calls, or [d] if there is none. *)
Definition last_update (cs : list window_call) (d : string * Q) : string * Q :=
  fold_left (λ acc c, match c with
                      | Call_update_detection n q => (n, q)
                      | Call_set_running _ => acc
                      end) cs d.

(** Font metrics used where a concrete run is evaluated. *)
Definition no_metrics : font_metrics := λ _ _ _ _, ((0, 0), 0)%Z.

Definition vga_frame : ndarray := Pixels [480; 640; 3]%Z [].
Definition empty_frame : ndarray := Pixels [0; 0; 3]%Z [].

(** ** Vocabulary for the statements about the loop *)

(** The exceptions that the outside world raises during an iteration. *)
Definition raised_of {A} (r : result A) : list py_exception :=
  match r with Ok _ => [] | Raise e => [e] end.

Definition env_exceptions (env : tick_env) : list py_exception :=
  raised_of (env_camera env) ++ raised_of (env_pipeline env) ++
  raised_of (env_imshow env) ++ raised_of (env_imwrite env).

(** Calls of [predict], latest first, are spaced when each one comes at
    least [detection_interval] after the one before it. *)
Fixpoint spaced (calls : list Q) : Prop :=
  match calls with
  | [] => True
  | t2 :: rest =>
      match rest with
      | [] => True
      | t1 :: _ => (t1 + detection_interval <= t2)%Q
      end ∧ spaced rest
  end.

(** The iterations of the throttling scenario: a frame is available at
    every tick, the model is loaded, and tick [k] reads the clock at
    [t0 + k * 0.05]. *)
Definition scenario_env (t0 : Q) (k : nat) : tick_env :=
  {| env_camera := Ok (Some vga_frame);
     env_time := (t0 + inject_Z (Z.of_nat k) * 0.05)%Q;
     env_model_loaded := true;
     env_pipeline := Ok ("cat", 0.9%Q);
     env_time_history := (t0 + inject_Z (Z.of_nat k) * 0.05)%Q;
     env_time_smooth := (t0 + inject_Z (Z.of_nat k) * 0.05)%Q;
     env_imshow := Ok tt;
     env_key := (-1);
     env_imwrite := Ok tt |}.

Definition scenario_envs (t0 : Q) (n : nat) : list tick_env :=
  scenario_env t0 <$> seq 0 n.

Definition idle_state : loop_state :=
  {| ctrl := Controller.init; window := None; frame_count := 0;
     last_detection_time := 0; mem := []; predict_calls := []; shown := [] |}.

(** Code of the loop obeys a relation [R] on states and a class [E] of
    exceptions when every run of it relates the state it starts from to
    the state it ends in, and raises nothing outside [E]. *)
Definition obeys (R : loop_state → loop_state → Prop) (E : py_exception → Prop)
    {A} (m : L A) : Prop :=
  ∀ s, R s (m s).1 ∧ ∀ e, (m s).2 = Raise e → E e.

(** What the second half of an iteration leaves alone: the record of
    calls, the time of the last inference, the history, and, unless the
    quit key is read, the running flag. *)
Definition display_rel (env : tick_env) (s s' : loop_state) : Prop :=
  predict_calls s' = predict_calls s ∧
  last_detection_time s' = last_detection_time s ∧
  detection_history (ctrl s') = detection_history (ctrl s) ∧
  (Z.land (env_key env) 255 ≠ 113%Z →
   is_running (ctrl s') = is_running (ctrl s)).

(** The exceptions an iteration can raise: those of class [Exception],
    and those that the outside world raises. *)
Definition tick_exn (env : tick_env) (e : py_exception) : Prop :=
  is_Exception e = true ∨ e ∈ env_exceptions env.

(** The time of the last inference is the latest recorded call, as long
    as the loop is running. *)
Definition clock_inv (s : loop_state) : Prop :=
  spaced (predict_calls s) ∧
  (is_running (ctrl s) = true →
   ∀ t rest, predict_calls s = t :: rest → last_detection_time s = t).

(** Whether the inference step is due in an iteration. *)
Definition inference_due (env : tick_env) (s : loop_state) : bool :=
  Qle_bool detection_interval (env_time env - last_detection_time s)
  && env_model_loaded env.

(** An iteration in which the frame source fails, and one in which the
    inference pipeline fails. *)
Definition camera_failure_env : tick_env :=
  {| env_camera := Raise (OtherException "SourceUnavailable");
     env_time := 1000; env_model_loaded := true;
     env_pipeline := Ok ("cat", 0.9%Q);
     env_time_history := 1000; env_time_smooth := 1000;
     env_imshow := Ok tt; env_key := (-1); env_imwrite := Ok tt |}.

Definition inference_failure_env : tick_env :=
  {| env_camera := Ok (Some vga_frame);
     env_time := 1000; env_model_loaded := true;
     env_pipeline := Raise (OtherException "RuntimeError");
     env_time_history := 1000; env_time_smooth := 1000;
     env_imshow := Ok tt; env_key := (-1); env_imwrite := Ok tt |}.

(** The controller of the scenario: capacity 3, empty history. *)
Definition scenario_ctrl : Controller.t :=
  {| is_running := false; show_camera_window := false;
     confidence_threshold := 0.5%Q; detection_history := []; max_history := 3 |}.

Definition scenario_samples : list sample :=
  [("A", 0.9%Q, 0%Q); ("A", 0.8%Q, 0.5%Q); ("B", 0.95%Q, 1.0%Q)].


(** ** Vocabulary for further properties *)

(** Timestamps never decrease along a history. *)
Fixpoint time_ordered (h : list sample) : Prop :=
  match h with
  | [] => True
  | s :: r => (∀ s', s' ∈ r → (observed_at s <= observed_at s')%Q) ∧ time_ordered r
  end.

(** Whether the frame source hands a frame to the iteration. *)
Definition frame_available (env : tick_env) : bool :=
  match env_camera env with
  | Ok (Some _) => true
  | _ => false
  end.

(** What no part of an iteration undoes: the configuration of the
    controller, the bound on the history once it holds, and the arrays
    that exist. *)
Definition loop_keeps (s s' : loop_state) : Prop :=
  max_history (ctrl s') = max_history (ctrl s) ∧
  confidence_threshold (ctrl s') = confidence_threshold (ctrl s) ∧
  (length (detection_history (ctrl s)) ≤ max_history (ctrl s) →
   length (detection_history (ctrl s')) ≤ max_history (ctrl s')) ∧
  mem s `prefix_of` mem s'.


(** ** The end of [ModelLoader.predict]: from the output tensor to a label *)

(** [l[i]] *)
Definition py_index {A} (l : list A) (i : nat) : result A :=
  match l !! i with
  | Some x => Ok x
  | None => Raise IndexError
  end.

(** [np.argmax] on a one-dimensional array: the index of the first
    entry that is not exceeded by any other; an empty array raises. *)
Fixpoint argmax_loop (best_idx : nat) (best : Q) (idx : nat) (rest : list Q) : nat :=
  match rest with
  | [] => best_idx
  | x :: r =>
      if Qlt_bool best x then argmax_loop idx x (S idx) r
      else argmax_loop best_idx best (S idx) r
  end.

Definition np_argmax (row : list Q) : result nat :=
  match row with
  | [] => Raise ValueError
  | x :: r => Ok (argmax_loop 0 x 1 r)
  end.

Module Inference.

(** The lines of [predict] that follow [get_tensor]: [output_data] is the
    output tensor, a list of rows, and [labels] is [self.labels]. *)
Definition classify (labels : list string) (output_data : list (list Q))
  : result (string * Q) :=
  row ← py_index output_data 0;
  predicted_class_idx ← np_argmax row;
  confidence ← py_index row predicted_class_idx;
  predicted_class ←
    (if Nat.ltb predicted_class_idx (length labels)
     then py_index labels predicted_class_idx
     else Ok "Unknown");
  Ok (predicted_class, confidence).

(** [predict], given what preprocessing and the interpreter yield: the
    output tensor, or an exception.  What they yield in the module as it
    is shipped is the subject of [Shipped]. *)
Definition predict_output (interpreter : bool) (labels : list string)
    (tensor : result (list (list Q))) : result (string * Q) :=
  ModelLoader.predict interpreter (tensor ≫= classify labels).

End Inference.

(** ** The command line ([main] of [main_controller.py]) *)

(** The assignments of [main] before the controller is created:
    [(model_path, labels_path, use_camera_window)] from [sys.argv]. *)
Definition main_args (argv : list string) : result (string * string * bool) :=
  let model_path := "model/model.tflite" in
  let labels_path := "model/labels.txt" in
  if Nat.ltb 1 (length argv) then
    a1 ← py_index argv 1;
    if String.eqb a1 "--camera-window" then
      model_path ← (if Nat.ltb 2 (length argv) then py_index argv 2
                    else Ok model_path);
      labels_path ← (if Nat.ltb 3 (length argv) then py_index argv 3
                     else Ok labels_path);
      Ok (model_path, labels_path, true)
    else
      model_path ← py_index argv 1;
      labels_path ← (if Nat.ltb 2 (length argv) then py_index argv 2
                     else Ok labels_path);
      Ok (model_path, labels_path, false)
  else Ok (model_path, labels_path, false).

(** ** The camera manager as an object ([camera/camera_manager.py]) *)

(** [try: body except Exception: return fallback] *)
Definition except_Exception {A} (body : result A) (fallback : A) : result A :=
  match body with
  | Ok a => Ok a
  | Raise e => if is_Exception e then Ok fallback else Raise e
  end.

Definition TimeoutExpired : py_exception := OtherException "TimeoutExpired".

(** [except subprocess.TimeoutExpired] *)
Definition is_TimeoutExpired (e : py_exception) : bool :=
  match e with
  | OtherException class_name => String.eqb class_name "TimeoutExpired"
  | _ => false
  end.

(** What is done to the camera process. *)
Inductive process_action : Type :=
| Spawn (handle : nat)
| Terminate (handle : nat)
| Kill (handle : nat).

Module Camera.

Record t : Type := mk {
  is_running : bool;
  camera_process : option nat;
  current_frame : option ref
}.

(** [__init__] *)
Definition init : t :=
  {| is_running := false; camera_process := None; current_frame := None |}.

(** [start_camera]; [which] is the return code of the lookup of the
    camera tool and [popen] the handle of the process that is spawned,
    when these calls do not raise. *)
Definition start_camera (self : t) (which : result Z) (popen : result nat)
  : t * list process_action * result bool :=
  match which with
  | Raise e => (self, [], except_Exception (Raise e) false)
  | Ok returncode =>
      if negb (Z.eqb returncode 0) then (self, [], Ok false)
      else
        match popen with
        | Raise e => (self, [], except_Exception (Raise e) false)
        | Ok handle =>
            ({| is_running := true; camera_process := Some handle;
                current_frame := current_frame self |},
             [Spawn handle], Ok true)
        end
  end.

(** [stop_camera]; [wait] is what [camera_process.wait(timeout=5)] does. *)
Definition stop_camera (self : t) (wait : result unit)
  : t * list process_action * result unit :=
  let self1 := {| is_running := false; camera_process := camera_process self;
                  current_frame := current_frame self |} in
  match camera_process self1 with
  | None => (self1, [], Ok tt)
  | Some handle =>
      let stopped := {| is_running := false; camera_process := None;
                        current_frame := current_frame self |} in
      match wait with
      | Ok _ => (stopped, [Terminate handle], Ok tt)
      | Raise e =>
          if is_TimeoutExpired e
          then (stopped, [Terminate handle; Kill handle], Ok tt)
          else (self1, [Terminate handle], Raise e)
      end
  end.

(** What reading one frame from the process involves. *)
Record frame_io : Type := {
  io_poll : result (option Z);
  io_read : result (list Z);
  io_imdecode : result (option ndarray)
}.

(** The [try] block of [get_frame]: the decoded frame, if there is one. *)
Definition read_frame (io : frame_io) : result (option ndarray) :=
  status ← io_poll io;
  match status with
  | Some _ => Ok None
  | None =>
      frame_data ← io_read io;
      match frame_data with
      | [] => Ok None
      | _ :: _ => io_imdecode io
      end
  end.

(** [get_frame]: the decoded frame becomes a new array, which is stored
    in [self.current_frame] and returned. *)
Definition get_frame (self : t) (io : frame_io) (σ : heap)
  : heap * t * result (option ref) :=
  if negb (is_running self) || negb (bool_decide (is_Some (camera_process self)))
  then (σ, self, Ok None)
  else
    match read_frame io with
    | Ok (Some frame) =>
        (σ ++ [frame],
         {| is_running := is_running self; camera_process := camera_process self;
            current_frame := Some (length σ) |},
         Ok (Some (length σ)))
    | Ok None => (σ, self, Ok None)
    | Raise e => (σ, self, except_Exception (Raise e) None)
    end.

(** [get_latest_frame] *)
Definition get_latest_frame (self : t) : M (option ref) :=
  match current_frame self with
  | Some r => r' ← ndarray_copy (Some r); mret (Some r')
  | None => mret None
  end.

End Camera.

(** ** Start-up ([initialize_camera], [initialize_model], [run]) *)

Record startup_env : Type := {
  model_file_exists : bool;
  labels_file_exists : bool;
  (** [is_camera_available()], which answers [False] on any failure *)
  camera_available : bool;
  start_which : result Z;
  start_popen : result nat;
  (** [load_model()], which answers [False] on any failure *)
  model_loads : bool
}.

(** [initialize_camera]: the camera object it leaves in [self.camera],
    what it did to the process, and its answer. *)
Definition initialize_camera (env : startup_env)
  : Camera.t * list process_action * result bool :=
  if negb (camera_available env) then (Camera.init, [], Ok false)
  else
    match Camera.start_camera Camera.init (start_which env) (start_popen env) with
    | (camera, actions, started) =>
        (camera, actions, except_Exception started false)
    end.

(** How far [run] gets. *)
Inductive run_stage : Type :=
| Missing_model_file
| Missing_labels_file
| Camera_failed
| Model_failed
| Loop_entered.

(** [run] up to the call of [run_detection_loop]: the stage reached, the
    camera object, and what was done to the camera process. *)
Definition run_startup (env : startup_env)
  : result (run_stage * option Camera.t * list process_action) :=
  if negb (model_file_exists env) then Ok (Missing_model_file, None, [])
  else if negb (labels_file_exists env) then Ok (Missing_labels_file, None, [])
  else
    match initialize_camera env with
    | (camera, actions, Raise e) => Raise e
    | (camera, actions, Ok false) => Ok (Camera_failed, Some camera, actions)
    | (camera, actions, Ok true) =>
        if negb (model_loads env) then Ok (Model_failed, Some camera, actions)
        else Ok (Loop_entered, Some camera, actions)
    end.

(** The value [run] returns: [False] unless the loop was entered, and
    then [True] unless the loop let an exception escape, which is caught
    if it is of class [Exception]. *)
Definition run (env : startup_env) (loop : option py_exception) : result bool :=
  st ← run_startup env;
  match st.1.1 with
  | Loop_entered =>
      match loop with
      | None => Ok true
      | Some e => except_Exception (Raise e) false
      end
  | _ => Ok false
  end.

(** A start-up in which everything but the model succeeds. *)
Definition model_failure_startup : startup_env :=
  {| model_file_exists := true; labels_file_exists := true;
     camera_available := true; start_which := Ok 0%Z; start_popen := Ok 7;
     model_loads := false |}.

(** A camera that is running and holds a frame. *)
Definition running_camera : Camera.t :=
  {| Camera.is_running := true; Camera.camera_process := Some 7;
     Camera.current_frame := Some 0 |}.

Definition good_frame_io : Camera.frame_io :=
  {| Camera.io_poll := Ok None; Camera.io_read := Ok [255; 216]%Z;
     Camera.io_imdecode := Ok (Some vga_frame) |}.

(** ** Python floats as IEEE 754 binary64 numbers

    Where the value of a float matters (the mean that smoothing returns,
    [int()] of a product), the code is embedded over binary64 numbers,
    with every operation rounded to nearest, ties to even, as the
    hardware does it. *)

Module Binary64.
Import SpecFloat.

Abbreviation float := spec_float.

Definition prec : Z := 53.
Definition emax : Z := 1024.

(** [float(z)] for a Python int. *)
Definition of_Z (z : Z) : float := binary_normalize prec emax z 0 false.

Definition add : float → float → float := SFadd prec emax.
Definition sub : float → float → float := SFsub prec emax.
Definition mul : float → float → float := SFmul prec emax.
Definition div : float → float → float := SFdiv prec emax.
Definition ltb : float → float → bool := SFltb.
Definition leb : float → float → bool := SFleb.
Definition eqb : float → float → bool := SFeqb.
Definition abs : float → float := SFabs.

(** [float("nan")] *)
Definition nan : float := S754_nan.

(** The float denoted by a decimal literal with [places] digits after the
    point, such as [0.85 = decimal 85 2]: the binary64 number nearest to
    it.  Both [digits] and [10 ^ places] are below [2 ^ 53] in every use,
    so they convert exactly and the rounded quotient is that number. *)
Definition decimal (digits : Z) (places : nat) : float :=
  div (of_Z digits) (of_Z (10 ^ Z.of_nat places)).

(** The rational number that a finite float stands for. *)
Definition to_Q (x : float) : Q :=
  match x with
  | S754_finite s m e =>
      let v := match e with
               | Zneg p => Qmake (Zpos m) (2 ^ p)
               | _ => inject_Z (Zpos m * 2 ^ e)
               end in
      if s then Qopp v else v
  | _ => 0%Q
  end.

Definition OverflowError : py_exception := OtherException "OverflowError".

(** [int(x)]: truncation towards zero; [nan] and the infinities raise. *)
Definition py_int (x : float) : result Z :=
  match x with
  | S754_nan => Raise ValueError
  | S754_infinity _ => Raise OverflowError
  | S754_zero _ => Ok 0%Z
  | S754_finite s m e => Ok (cond_Zopp s (Z.shiftl (Zpos m) e))
  end.

(** [x / n] for a float [x] and an int [n]: [n] is converted first. *)
Definition py_div (x : float) (n : nat) : result float :=
  match n with
  | O => Raise ZeroDivisionError
  | S _ => Ok (div x (of_Z (Z.of_nat n)))
  end.

(** The compensated loop that [sum] runs over floats from CPython 3.12
    on: [f_result] is the running sum and [c] collects what the
    additions lost. *)
Fixpoint sum_compensated (f_result c : float) (l : list float) : float :=
  match l with
  | [] =>
      match c with
      | S754_finite _ _ _ => add f_result c
      | _ => f_result
      end
  | x :: r =>
      let t := add f_result x in
      let c' := if leb (abs x) (abs f_result)
                then add c (add (sub f_result t) x)
                else add c (add (sub x t) f_result) in
      sum_compensated t c' r
  end.

(** [sum(l)] for a list of floats.  The start value is the int [0], to
    which the first item is added; CPython up to 3.11 then adds the
    remaining items from left to right, CPython 3.12 and later runs the
    compensated loop ([compensated = true]). *)
Definition py_sum (compensated : bool) (l : list float) : float :=
  match l with
  | [] => of_Z 0
  | x :: r =>
      let first := add (of_Z 0) x in
      if compensated then sum_compensated first (S754_zero false) r
      else fold_left add r first
  end.

(** [f"{x:.1%}"] *)
Definition format_percent1 (x : float) : fragment :=
  match x with
  | S754_nan => Lit "nan%"
  | S754_infinity false => Lit "inf%"
  | S754_infinity true => Lit "-inf%"
  | S754_zero false => Lit "0.0%"
  | S754_zero true => Lit "-0.0%"
  | S754_finite _ _ _ => FmtPercent1 (to_Q x)
  end.

End Binary64.

(** ** Detection history and smoothing over binary64 floats *)

Module Controller64.
Import Binary64.

(** One entry of [detection_history]: [(class_name, confidence, timestamp)]. *)
Abbreviation sample := (string * float * float)%type.

Record t : Type := mk {
  is_running : bool;
  show_camera_window : bool;
  confidence_threshold : float;
  detection_history : list sample;
  max_history : nat
}.

(** [__init__] *)
Definition init : t :=
  {| is_running := false;
     show_camera_window := false;
     confidence_threshold := decimal 5 1;
     detection_history := [];
     max_history := 10 |}.

Definition set_history (self : t) (h : list sample) : t :=
  {| is_running := is_running self;
     show_camera_window := show_camera_window self;
     confidence_threshold := confidence_threshold self;
     detection_history := h;
     max_history := max_history self |}.

(** [update_detection_history]; [now] is the value of [time.time()]. *)
Definition update_detection_history
    (self : t) (class_name : string) (confidence : float) (now : float)
  : result t :=
  let h := detection_history self ++ [(class_name, confidence, now)] in
  if Nat.ltb (max_history self) (length h) then
    p ← list_pop0 h; Ok (set_history self (snd p))
  else Ok (set_history self h).

(** The list comprehension building [recent_detections]. *)
Fixpoint recent_detections (h : list sample) (current_time : float)
  : list (string * float) :=
  match h with
  | [] => []
  | (name, conf, timestamp) :: r =>
      if ltb (sub current_time timestamp) (decimal 20 1)
      then (name, conf) :: recent_detections r current_time
      else recent_detections r current_time
  end.

(** The counting loop over [recent_detections]. *)
Definition count_step (class_counts : dict nat) (d : string * float) : dict nat :=
  dict_set class_counts (fst d) (dict_get class_counts (fst d) 0 + 1).

Definition count_classes (recent : list (string * float)) : dict nat :=
  fold_left count_step recent [].

(** The comprehension [[conf for name, conf in recent if name == c]]. *)
Fixpoint class_confidences (recent : list (string * float)) (c : string)
  : list float :=
  match recent with
  | [] => []
  | (name, conf) :: r =>
      if String.eqb name c then conf :: class_confidences r c
      else class_confidences r c
  end.

(** [get_smoothed_detection]; [now] is the value of [time.time()] and
    [compensated] tells which [sum] the interpreter has. *)
Definition get_smoothed_detection (compensated : bool) (self : t) (now : float)
  : t * result (string * float) :=
  match detection_history self with
  | [] => (self, Ok ("No detection", decimal 0 1))
  | _ :: _ =>
      let recent := recent_detections (detection_history self) now in
      match recent with
      | [] => (self, Ok ("No detection", decimal 0 1))
      | _ :: _ =>
          let class_counts := count_classes recent in
          (self,
           most_common_class ← py_max_key class_counts;
           let confs := class_confidences recent most_common_class in
           avg_confidence ← py_div (py_sum compensated confs) (length confs);
           Ok (most_common_class, avg_confidence))
      end
  end.

(** Successive calls of [update_detection_history]. *)
Fixpoint run_appends (self : t) (inputs : list sample) : result t :=
  match inputs with
  | [] => Ok self
  | (class_name, confidence, now) :: r =>
      self' ← update_detection_history self class_name confidence now;
      run_appends self' r
  end.

End Controller64.

(** The controller and the samples of the scenario, as floats: capacity
    3, and (A, 0.9) at 0.0, (A, 0.8) at 0.5, (B, 0.95) at 1.0. *)
Definition scenario_ctrl64 : Controller64.t :=
  {| Controller64.is_running := false;
     Controller64.show_camera_window := false;
     Controller64.confidence_threshold := Binary64.decimal 5 1;
     Controller64.detection_history := [];
     Controller64.max_history := 3 |}.

Definition scenario_samples64 : list Controller64.sample :=
  [("A", Binary64.decimal 9 1, Binary64.decimal 0 1);
   ("A", Binary64.decimal 8 1, Binary64.decimal 5 1);
   ("B", Binary64.decimal 95 2, Binary64.decimal 10 1)].

(** ** Rendering with drawing calls that can fail

    The drawing functions of the imaging library are foreign code: each
    call either raises or draws.  [cv n] is what the call at line [n] of
    the source file raises, if it raises; a call that raises has drawn
    nothing.  The confidence is a binary64 float, so that [int()] can
    fail on it as it does in Python. *)

Abbreviation cv2_outcomes := (nat → option py_exception).

(** A library in which no call fails. *)
Definition no_failure : cv2_outcomes := λ _, None.

Definition raising (o : option py_exception) : M unit := λ σ,
  match o with
  | Some e => (σ, Raise e)
  | None => (σ, Ok tt)
  end.

(** Code that returns or raises, inside heap code. *)
Definition lift_result {A} (r : result A) : M A := λ σ, (σ, r).

Module Overlay64.
Import Binary64.

(** The camera window, with the stored confidence as a float. *)
Record t : Type := mk {
  width : Z;
  height : Z;
  fps : Z;
  is_running : bool;
  current_detection : option (string * float);
  font : Z;
  font_scale : Q;
  thickness : Z
}.

(** [__init__] *)
Definition init (width height fps : Z) : t :=
  {| width := width; height := height; fps := fps;
     is_running := false;
     current_detection := None;
     font := FONT_HERSHEY_SIMPLEX;
     font_scale := 0.7%Q;
     thickness := 2%Z |}.

(** [update_detection] *)
Definition update_detection (self : t) (class_name : string) (confidence : float)
  : t :=
  {| width := width self; height := height self; fps := fps self;
     is_running := is_running self;
     current_detection := Some (class_name, confidence);
     font := font self; font_scale := font_scale self;
     thickness := thickness self |}.

(** The block under the lock in [draw_confidence_overlay]; a stored
    tuple of two items is truthy. *)
Definition displayed_detection (self : t) : string * float :=
  match current_detection self with
  | Some d => d
  | None => ("No detection", decimal 0 1)
  end.

(** The colour bands, written out twice in the source. *)
Definition band_color (confidence : float) : color :=
  if ltb (decimal 7 1) confidence then (0, 255, 0)%Z
  else if ltb (decimal 5 1) confidence then (0, 255, 255)%Z
  else (0, 0, 255)%Z.

Section Drawing.
Variable cv : cv2_outcomes.
Variable getTextSize : font_metrics.

(** [draw_confidence_bar] *)
Definition draw_confidence_bar (self : t) (frame : ref) (confidence : float)
    (width height : Z) : M unit :=
  let bar_width := 300%Z in
  let bar_height := 30%Z in
  let bar_x := (width - bar_width - 20)%Z in
  let bar_y := 20%Z in
  _ ← raising (cv 159);
  _ ← cv2_rectangle frame (bar_x, bar_y)
        (bar_x + bar_width, bar_y + bar_height)%Z (50, 50, 50)%Z (-1);
  confidence_width ← lift_result (py_int (mul (of_Z bar_width) confidence));
  let bar_color := band_color confidence in
  _ ← raising (cv 171);
  _ ← cv2_rectangle frame (bar_x, bar_y)
        (bar_x + confidence_width, bar_y + bar_height)%Z bar_color (-1);
  _ ← raising (cv 175);
  _ ← cv2_rectangle frame (bar_x, bar_y)
        (bar_x + bar_width, bar_y + bar_height)%Z (255, 255, 255)%Z 2;
  let confidence_percent := [format_percent1 confidence] in
  _ ← raising (cv 180);
  let text_size :=
    (getTextSize confidence_percent (font self) (font_scale self)
                 (thickness self)).1 in
  let text_x := (bar_x + (bar_width - text_size.1) `div` 2)%Z in
  let text_y := (bar_y + (bar_height + text_size.2) `div` 2)%Z in
  _ ← raising (cv 183);
  cv2_putText frame confidence_percent (text_x, text_y)
    (font self) (font_scale self) (255, 255, 255)%Z (thickness self).

(** [draw_frame_info] *)
Definition draw_frame_info (self : t) (frame : ref) (width height : Z)
    : M unit :=
  let fps_text := [Lit "FPS: "; FmtInt (fps self)] in
  let resolution_text :=
    [Lit "Resolution: "; FmtInt width; Lit "x"; FmtInt height] in
  let info_y := (height - 20)%Z in
  _ ← raising (cv 201);
  _ ← cv2_putText frame fps_text (width - 150, info_y)%Z
        (font self) 0.5%Q (255, 255, 255)%Z 1;
  _ ← raising (cv 203);
  cv2_putText frame resolution_text (width - 150, info_y - 20)%Z
    (font self) 0.5%Q (255, 255, 255)%Z 1.

(** [draw_confidence_overlay]; [frame] is [None] or a reference. *)
Definition draw_confidence_overlay (self : t) (frame : option ref) : M ref :=
  display_frame ← ndarray_copy frame;
  hw ← shape_hw display_frame;
  let height := hw.1 in
  let width := hw.2 in
  let '(class_name, confidence) := displayed_detection self in
  overlay ← ndarray_copy (Some display_frame);
  let text_area_height := 120%Z in
  _ ← raising (cv 110);
  _ ← cv2_rectangle overlay (10, 10)%Z (width - 10, text_area_height)%Z
        (0, 0, 0)%Z (-1);
  _ ← raising (cv 111);
  _ ← cv2_addWeighted overlay 0.7 display_frame 0.3 0 display_frame;
  let detection_text := [Lit "Object: "; FmtStr class_name] in
  let confidence_text := [Lit "Confidence: "; format_percent1 confidence] in
  let status_text :=
    if ltb (decimal 5 1) confidence then [Lit "Status: DETECTED"]
    else [Lit "Status: NO DETECTION"] in
  let text_color := band_color confidence in
  _ ← raising (cv 127);
  _ ← cv2_putText display_frame detection_text (20, 35)%Z
        (font self) (font_scale self) text_color (thickness self);
  _ ← raising (cv 129);
  _ ← cv2_putText display_frame confidence_text (20, 60)%Z
        (font self) (font_scale self) text_color (thickness self);
  _ ← raising (cv 131);
  _ ← cv2_putText display_frame status_text (20, 85)%Z
        (font self) (font_scale self) text_color (thickness self);
  _ ← draw_confidence_bar self display_frame confidence width height;
  _ ← draw_frame_info self display_frame width height;
  mret display_frame.
End Drawing.

(** The lines of [camera_window.py] that call into the library. *)
Definition call_sites : list nat :=
  [110; 111; 127; 129; 131; 159; 171; 175; 180; 183; 201; 203].

End Overlay64.

Module Detection64.
Import Binary64.

(** [ObjectDetectionController.draw_detection_info] *)
Definition draw_detection_info (cv : cv2_outcomes) (frame : option ref)
    (class_name : string) (confidence : float) : M ref :=
  display_frame ← ndarray_copy frame;
  hw ← shape_hw display_frame;
  let height := hw.1 in
  let width := hw.2 in
  overlay ← ndarray_copy (Some display_frame);
  _ ← raising (cv 169);
  _ ← cv2_rectangle overlay (10, 10)%Z (width - 10, 80)%Z (0, 0, 0)%Z (-1);
  _ ← raising (cv 170);
  _ ← cv2_addWeighted overlay 0.7 display_frame 0.3 0 display_frame;
  let detection_text := [Lit "Object: "; FmtStr class_name] in
  let confidence_text := [Lit "Confidence: "; format_percent1 confidence] in
  let font := FONT_HERSHEY_SIMPLEX in
  let font_scale := 0.7%Q in
  let thickness := 2%Z in
  _ ← raising (cv 182);
  _ ← raising (cv 185);
  _ ← cv2_putText display_frame detection_text (20, 40)%Z
        font font_scale (0, 255, 0)%Z thickness;
  _ ← raising (cv 189);
  _ ← cv2_putText display_frame confidence_text (20, 65)%Z
        font font_scale (0, 255, 0)%Z thickness;
  let bar_width := 200%Z in
  let bar_height := 20%Z in
  let bar_x := (width - bar_width - 20)%Z in
  let bar_y := 20%Z in
  _ ← raising (cv 199);
  _ ← cv2_rectangle display_frame (bar_x, bar_y)
        (bar_x + bar_width, bar_y + bar_height)%Z (50, 50, 50)%Z (-1);
  confidence_width ← lift_result (py_int (mul (of_Z bar_width) confidence));
  _ ← raising (cv 204);
  _ ← cv2_rectangle display_frame (bar_x, bar_y)
        (bar_x + confidence_width, bar_y + bar_height)%Z (0, 255, 0)%Z (-1);
  _ ← raising (cv 208);
  _ ← cv2_rectangle display_frame (bar_x, bar_y)
        (bar_x + bar_width, bar_y + bar_height)%Z (255, 255, 255)%Z 2;
  mret display_frame.

(** The lines of [main_controller.py] that call into the library from
    [draw_detection_info]. *)
Definition call_sites : list nat := [169; 170; 182; 185; 189; 199; 204; 208].

End Detection64.

(** ** The handlers of the two loops

    Both [run_detection_loop] and [run_window] wrap each iteration in
    [try: ... except KeyboardInterrupt: ... except Exception: ...].  The
    handlers call [print], and the second one [time.sleep(0.1)]; an
    exception raised inside a handler is not caught by the other clause
    and leaves the loop. *)

Record handler_env : Type := {
  (** [print] in the handler that runs *)
  env_print : result unit;
  (** [time.sleep(0.1)] in the handler for [Exception] *)
  env_sleep : result unit
}.

(** Handlers in which nothing fails. *)
Definition quiet : handler_env := {| env_print := Ok tt; env_sleep := Ok tt |}.

Section Handlers.
Context {S : Type}.
(** The assignment [self.is_running = False]. *)
Variable stop : S → S.

(** What the handlers make of the outcome of the [try] block: the state
    after the iteration and the exception that leaves the loop, if any. *)
Definition handlers (h : handler_env) (out : S * result unit)
  : S * option py_exception :=
  match out with
  | (s, Ok _) => (s, None)
  | (s, Raise KeyboardInterrupt) =>
      match env_print h with
      | Ok _ => (stop s, None)
      | Raise e' => (s, Some e')
      end
  | (s, Raise e) =>
      if is_Exception e then
        match env_print h with
        | Ok _ =>
            match env_sleep h with
            | Ok _ => (s, None)
            | Raise e' => (s, Some e')
            end
        | Raise e' => (s, Some e')
        end
      else (s, Some e)
  end.
End Handlers.

(** [self.is_running = False] in the two loops. *)
Definition stop_loop (s : loop_state) : loop_state :=
  with_ctrl s (set_running (ctrl s) false).

Definition stop_window (s : window_state) : window_state :=
  {| win := CameraWindow.set_running (win s) false;
     wmem := wmem s; wshown := wshown s |}.

(** One iteration of [run_detection_loop]. *)
Definition tick_handled (h : handler_env) (env : tick_env) (s : loop_state)
  : loop_state * option py_exception :=
  handlers stop_loop h (tick_body env s).

(** The [while self.is_running] loop. *)
Fixpoint iterate_handled (envs : list (handler_env * tick_env)) (s : loop_state)
  : loop_state * option py_exception :=
  match envs with
  | [] => (s, None)
  | (h, env) :: rest =>
      if is_running (ctrl s) then
        match tick_handled h env s with
        | (s', None) => iterate_handled rest s'
        | (s', Some e) => (s', Some e)
        end
      else (s, None)
  end.

(** One iteration of [run_window]. *)
Definition window_tick_handled (getTextSize : font_metrics) (h : handler_env)
    (env : window_env) (s : window_state) : window_state * option py_exception :=
  handlers stop_window h (window_body getTextSize env s).

(** The exceptions that the handlers of an iteration raise. *)
Definition handler_exceptions (h : handler_env) : list py_exception :=
  raised_of (env_print h) ++ raised_of (env_sleep h).

(** Handlers during whose [time.sleep(0.1)] the user presses Ctrl-C. *)
Definition interrupted_sleep : handler_env :=
  {| env_print := Ok tt; env_sleep := Raise KeyboardInterrupt |}.

(** ** [ModelLoader.predict] as it is shipped

    [model_loader.py] uses the name [cv2] in [preprocess_image] but does
    not import it. *)

Module Shipped.

Definition NameError : py_exception := OtherException "NameError".

(** The names that the import statements and the class statement of
    [model_loader.py] bind in the module. *)
Definition module_names : list string :=
  ["os"; "np"; "List"; "Tuple"; "Optional"; "tflite"; "ModelLoader"].

(** The built-in names that the code of the module refers to. *)
Definition builtin_names : list string :=
  ["print"; "len"; "float"; "open"; "Exception"].

(** The lookup of a global name that occurs in the code of the module:
    the module's own names first, then the built-in ones; a name that is
    in neither raises [NameError]. *)
Definition load_global (name : string) : result unit :=
  if bool_decide (name ∈ module_names ++ builtin_names) then Ok tt
  else Raise NameError.

(** What the interpreter and the libraries do during one call of
    [predict]. *)
Record predict_env : Type := {
  (** [self.input_details[0]['shape']] *)
  env_input_shape : result (list Z);
  (** [cv2.resize], [cv2.cvtColor], [astype] and [np.expand_dims] *)
  env_preprocess : result unit;
  env_set_tensor : result unit;
  env_invoke : result unit;
  env_get_tensor : result (list (list Q))
}.

Inductive interpreter_call : Type := Set_tensor | Invoke | Get_tensor.

(** [preprocess_image] *)
Definition preprocess_image (env : predict_env) : result unit :=
  input_shape ← env_input_shape env;
  expected_height ← py_index input_shape 1;
  expected_width ← py_index input_shape 2;
  _ ← load_global "cv2";
  env_preprocess env.

(** The [try] block of [predict]: the calls made on the interpreter and
    what the block yields. *)
Definition try_block (labels : list string) (env : predict_env)
  : list interpreter_call * result (string * Q) :=
  match preprocess_image env with
  | Raise e => ([], Raise e)
  | Ok input_data =>
      match env_set_tensor env with
      | Raise e => ([Set_tensor], Raise e)
      | Ok _ =>
          match env_invoke env with
          | Raise e => ([Set_tensor; Invoke], Raise e)
          | Ok _ =>
              ([Set_tensor; Invoke; Get_tensor],
               output_data ← env_get_tensor env;
               Inference.classify labels output_data)
          end
      end
  end.

(** [predict] *)
Definition predict (interpreter : bool) (labels : list string)
    (env : predict_env) : list interpreter_call * result (string * Q) :=
  if negb interpreter then ([], Ok ("Model not loaded", 0.0%Q))
  else
    let block := try_block labels env in
    (block.1, ModelLoader.predict true block.2).

End Shipped.

(** A call of [predict] in which every library call would succeed, for a
    model with input shape 1 x 224 x 224 x 3 and two classes. *)
Definition working_predict_env : Shipped.predict_env :=
  {| Shipped.env_input_shape := Ok [1; 224; 224; 3]%Z;
     Shipped.env_preprocess := Ok tt;
     Shipped.env_set_tensor := Ok tt;
     Shipped.env_invoke := Ok tt;
     Shipped.env_get_tensor := Ok [[0.1; 0.9]%Q] |}.

(** An iteration of the display loop in which the frame source fails,
    from a window that is running. *)
Definition window_failure_env : window_env :=
  {| wenv_camera := Raise (OtherException "SourceUnavailable");
     wenv_imshow := Ok tt; wenv_key := (-1); wenv_imwrite := Ok tt |}.

Definition running_window : window_state :=
  {| win := CameraWindow.set_running (CameraWindow.init 640 480 30) true;
     wmem := []; wshown := [] |}.
(** ** Facts about comparisons of rationals *)

Lemma Qlt_bool_iff x y : Qlt_bool x y = true <-> (x < y)%Q.
Proof.
  unfold Qlt_bool. rewrite negb_true_iff. split.
  - intros H. apply Qnot_le_lt. intros Hle.
    apply Qle_bool_iff in Hle. congruence.
  - intros H. destruct (Qle_bool y x) eqn:E; [|reflexivity].
    apply Qle_bool_iff in E. exfalso. exact (Qlt_not_le _ _ H E).
Qed.

Lemma Qlt_bool_false_iff x y : Qlt_bool x y = false <-> (y <= x)%Q.
Proof.
  unfold Qlt_bool. rewrite negb_false_iff. apply Qle_bool_iff.
Qed.

(** ** Facts about dictionaries *)

Section DictFacts.
Context {V : Type}.
Implicit Types (d : dict V) (k n : string) (v : V).

Lemma dict_get_set d k v n default :
  dict_get (dict_set d k v) n default =
  if String.eqb n k then v else dict_get d n default.
Proof.
  induction d as [|[k' v'] d IH]; simpl.
  - reflexivity.
  - destruct (String.eqb k k') eqn:Ek; simpl.
    + apply String.eqb_eq in Ek. subst k'.
      destruct (String.eqb n k); reflexivity.
    + rewrite IH. destruct (String.eqb n k) eqn:En; [|reflexivity].
      apply String.eqb_eq in En. subst n. now rewrite Ek.
Qed.

Lemma keys_dict_set d k v :
  (dict_set d k v).*1 = if decide (k ∈ d.*1) then d.*1 else d.*1 ++ [k].
Proof.
  induction d as [|[k' v'] d IH].
  - reflexivity.
  - cbn [dict_set]. destruct (String.eqb k k') eqn:Ek.
    + apply String.eqb_eq in Ek. subst k'. rewrite !fmap_cons. cbn [fst].
      destruct (decide (k ∈ k :: d.*1)) as [_|H]; [reflexivity|].
      exfalso. apply H. now left.
    + apply String.eqb_neq in Ek. rewrite !fmap_cons, IH. cbn [fst].
      destruct (decide (k ∈ d.*1)) as [H|H],
               (decide (k ∈ k' :: d.*1)) as [H'|H']; try reflexivity; exfalso.
      * apply H'. now right.
      * apply elem_of_cons in H'. destruct H'; contradiction.
Qed.

Lemma dict_get_notin d n default : n ∉ d.*1 → dict_get d n default = default.
Proof.
  induction d as [|[k' v'] d IH]; simpl; [reflexivity|].
  intros H. apply not_elem_of_cons in H. destruct H as [Hne Hn].
  destruct (String.eqb n k') eqn:E.
  - apply String.eqb_eq in E. contradiction.
  - auto.
Qed.

Lemma dict_get_NoDup d n v default :
  NoDup d.*1 → (n, v) ∈ d → dict_get d n default = v.
Proof.
  induction d as [|[k' v'] d IH]; simpl; intros Hnd Hin.
  - now apply elem_of_nil in Hin.
  - apply NoDup_cons in Hnd. destruct Hnd as [Hk' Hnd].
    apply elem_of_cons in Hin. destruct Hin as [Heq|Hin].
    + inversion Heq; subst. now rewrite String.eqb_refl.
    + destruct (String.eqb n k') eqn:E; [|auto].
      apply String.eqb_eq in E. subst k'. exfalso. apply Hk'.
      change n with (fst (n, v)). apply list_elem_of_fmap_2. exact Hin.
Qed.
End DictFacts.

(** ** The counting loop and the majority vote *)

Lemma votes_cons name conf recent c :
  votes ((name, conf) :: recent) c =
  if String.eqb name c then S (votes recent c) else votes recent c.
Proof.
  unfold votes. simpl. destruct (String.eqb name c); reflexivity.
Qed.

Lemma votes_app r1 r2 c : votes (r1 ++ r2) c = votes r1 c + votes r2 c.
Proof.
  induction r1 as [|[n q] r1 IH]; [reflexivity|].
  rewrite <- app_comm_cons, !votes_cons, IH.
  destruct (String.eqb n c); reflexivity.
Qed.

Lemma votes_pos_elem recent c : 0 < votes recent c ↔ c ∈ recent.*1.
Proof.
  induction recent as [|[n q] recent IH].
  - unfold votes. simpl. split; [lia|]. intros H. now apply elem_of_nil in H.
  - rewrite votes_cons, fmap_cons, elem_of_cons. cbn [fst].
    destruct (String.eqb n c) eqn:E.
    + apply String.eqb_eq in E. subst. split; [now left|lia].
    + apply String.eqb_neq in E. rewrite IH. split; [now right|].
      intros [->|H]; [contradiction|exact H].
Qed.

(** After the loop every counter holds its initial value plus the votes. *)
Lemma count_loop_get recent : ∀ d0 c,
  dict_get (fold_left count_step recent d0) c 0 = dict_get d0 c 0 + votes recent c.
Proof.
  induction recent as [|[n q] recent IH]; intros d0 c; simpl.
  - unfold votes. simpl. lia.
  - rewrite IH. unfold count_step. cbn [fst]. rewrite dict_get_set, votes_cons.
    rewrite (String.eqb_sym c n).
    destruct (String.eqb n c) eqn:E; [|reflexivity].
    apply String.eqb_eq in E. subst. lia.
Qed.

Lemma count_classes_get recent c :
  dict_get (count_classes recent) c 0 = votes recent c.
Proof. unfold count_classes. now rewrite count_loop_get. Qed.

Lemma count_classes_snoc recent x :
  count_classes (recent ++ [x]) = count_step (count_classes recent) x.
Proof. unfold count_classes. now rewrite fold_left_app. Qed.

Lemma count_classes_keys_snoc recent x :
  (count_classes (recent ++ [x])).*1 =
  if decide (x.1 ∈ (count_classes recent).*1)
  then (count_classes recent).*1 else (count_classes recent).*1 ++ [x.1].
Proof. rewrite count_classes_snoc. unfold count_step. apply keys_dict_set. Qed.

Lemma count_classes_NoDup recent : NoDup (count_classes recent).*1.
Proof.
  induction recent as [|x recent IH] using rev_ind.
  - constructor.
  - rewrite count_classes_keys_snoc. case_decide as H; [exact IH|].
    apply NoDup_app. split; [exact IH|]. split.
    + intros y Hy Hy'. apply list_elem_of_singleton in Hy'. now subst.
    + apply NoDup_singleton.
Qed.

Lemma count_classes_keys recent c :
  c ∈ (count_classes recent).*1 ↔ c ∈ recent.*1.
Proof.
  induction recent as [|x recent IH] using rev_ind.
  - reflexivity.
  - rewrite count_classes_keys_snoc, fmap_app, elem_of_app. simpl.
    rewrite list_elem_of_singleton.
    case_decide as H.
    + rewrite IH. split; [now left|]. intros [Hc| ->]; [exact Hc|].
      now apply IH.
    + rewrite elem_of_app, list_elem_of_singleton, IH. reflexivity.
Qed.

(** Keys are kept in the order in which labels are first met: whatever
    stands before the first sample of [c] is a key that precedes [c]. *)
Lemma count_classes_order recent : ∀ K1 c K2,
  (count_classes recent).*1 = K1 ++ c :: K2 →
  ∃ pre q post, recent = pre ++ (c, q) :: post ∧ ∀ n, n ∈ pre.*1 → n ∈ K1.
Proof.
  induction recent as [|x recent IH] using rev_ind; intros K1 c K2 HK.
  - now destruct K1.
  - rewrite count_classes_keys_snoc in HK. case_decide as Hx.
    + destruct (IH _ _ _ HK) as (pre & q & post & -> & Hpre).
      exists pre, q, (post ++ [x]). split; [|exact Hpre].
      now rewrite <- app_assoc.
    + destruct K2 as [|k K2 _] using rev_ind.
      * apply app_inj_tail in HK. destruct HK as [HK <-].
        exists recent, x.2, []. split; [now destruct x|].
        intros n Hn. rewrite <- HK. now apply count_classes_keys.
      * rewrite app_comm_cons, app_assoc in HK.
        apply app_inj_tail in HK. destruct HK as [HK _].
        destruct (IH _ _ _ HK) as (pre & q & post & -> & Hpre).
        exists pre, q, (post ++ [x]). split; [|exact Hpre].
        now rewrite <- app_assoc.
Qed.

(** [max_loop] returns the first key that carries the largest value. *)
Lemma max_loop_first d : ∀ (p1 : dict nat) best best_val (p2 : dict nat),
  (∀ kv, kv ∈ p1 → (kv.2 < best_val)%nat) →
  (∀ kv, kv ∈ p2 → (kv.2 ≤ best_val)%nat) →
  ∃ (d1 : dict nat) r v (d2 : dict nat),
    p1 ++ (best, best_val) :: p2 ++ d = d1 ++ (r, v) :: d2 ∧
    max_loop best best_val d = r ∧
    (∀ kv, kv ∈ d1 → (kv.2 < v)%nat) ∧ (∀ kv, kv ∈ d2 → (kv.2 ≤ v)%nat).
Proof.
  induction d as [|[k w] d IH]; intros p1 best best_val p2 H1 H2; simpl.
  - exists p1, best, best_val, p2. rewrite app_nil_r. auto.
  - destruct (Nat.ltb best_val w) eqn:E.
    + apply Nat.ltb_lt in E.
      destruct (IH (p1 ++ (best, best_val) :: p2) k w []) as
        (d1 & r & v & d2 & Heq & Hr & Hd1 & Hd2).
      { intros kv Hkv. apply elem_of_app in Hkv. destruct Hkv as [Hkv|Hkv].
        - specialize (H1 _ Hkv). lia.
        - apply elem_of_cons in Hkv. destruct Hkv as [->|Hkv]; [exact E|].
          specialize (H2 _ Hkv). lia. }
      { intros kv Hkv. now apply elem_of_nil in Hkv. }
      exists d1, r, v, d2. rewrite <- Heq. simpl.
      rewrite <- app_assoc. auto.
    + apply Nat.ltb_ge in E.
      destruct (IH p1 best best_val (p2 ++ [(k, w)])) as
        (d1 & r & v & d2 & Heq & Hr & Hd1 & Hd2); [exact H1| |].
      { intros kv Hkv. apply elem_of_app in Hkv. destruct Hkv as [Hkv|Hkv].
        - exact (H2 _ Hkv).
        - apply list_elem_of_singleton in Hkv. now subst kv. }
      exists d1, r, v, d2. rewrite <- Heq, <- app_assoc. auto.
Qed.

Lemma py_max_key_first (d : dict nat) :
  d ≠ [] →
  ∃ (d1 : dict nat) r v (d2 : dict nat),
    d = d1 ++ (r, v) :: d2 ∧ py_max_key d = Ok r ∧
    (∀ kv, kv ∈ d1 → (kv.2 < v)%nat) ∧ (∀ kv, kv ∈ d2 → (kv.2 ≤ v)%nat).
Proof.
  destruct d as [|[k w] d]; [congruence|]. intros _.
  destruct (max_loop_first d [] k w []) as (d1 & r & v & d2 & Heq & Hr & H1 & H2).
  - intros kv Hkv. now apply elem_of_nil in Hkv.
  - intros kv Hkv. now apply elem_of_nil in Hkv.
  - exists d1, r, v, d2. simpl in *. rewrite Hr. auto.
Qed.

(** The majority label of a non-empty list of recent detections: it has
    the largest number of votes, and every sample that stands before its
    first sample bears a label with strictly fewer votes. *)
Lemma majority_first recent :
  recent ≠ [] →
  ∃ r, py_max_key (count_classes recent) = Ok r ∧
    (∀ c, votes recent c ≤ votes recent r) ∧
    ∃ pre q post, recent = pre ++ (r, q) :: post ∧
      ∀ c, c ∈ pre.*1 → votes recent c < votes recent r.
Proof.
  intros Hne.
  assert (Hd : count_classes recent ≠ []).
  { destruct recent as [|x recent]; [congruence|]. intros Hd.
    assert (Hx : x.1 ∈ (count_classes (x :: recent)).*1).
    { apply count_classes_keys. rewrite fmap_cons. now left. }
    rewrite Hd in Hx. now apply elem_of_nil in Hx. }
  destruct (py_max_key_first _ Hd) as (d1 & r & v & d2 & Heq & Hr & H1 & H2).
  pose proof (count_classes_NoDup recent) as Hnd.
  assert (Hget : ∀ c w, (c, w) ∈ count_classes recent → votes recent c = w).
  { intros c w Hin. rewrite <- count_classes_get.
    now apply dict_get_NoDup. }
  assert (Hv : votes recent r = v).
  { apply Hget. rewrite Heq. apply elem_of_app. right. now left. }
  exists r. split; [exact Hr|]. split.
  - intros c. rewrite Hv.
    destruct (decide (c ∈ (count_classes recent).*1)) as [Hc|Hc].
    + apply list_elem_of_fmap in Hc. destruct Hc as ([c' w] & -> & Hin).
      cbn [fst]. rewrite (Hget _ _ Hin).
      rewrite Heq in Hin. apply elem_of_app in Hin. destruct Hin as [Hin|Hin].
      * specialize (H1 _ Hin). simpl in H1. lia.
      * apply elem_of_cons in Hin. destruct Hin as [Hin|Hin].
        -- inversion Hin. lia.
        -- exact (H2 _ Hin).
    + rewrite <- count_classes_get, dict_get_notin by exact Hc. lia.
  - assert (HK : (count_classes recent).*1 = d1.*1 ++ r :: d2.*1).
    { now rewrite Heq, fmap_app, fmap_cons. }
    destruct (count_classes_order _ _ _ _ HK) as (pre & q & post & Hrec & Hpre).
    exists pre, q, post. split; [exact Hrec|].
    intros c Hc. apply Hpre in Hc.
    apply list_elem_of_fmap in Hc. destruct Hc as ([c' w] & -> & Hin).
    cbn [fst]. rewrite Hv. specialize (H1 _ Hin). simpl in H1.
    rewrite (Hget c' w); [exact H1|].
    rewrite Heq. apply elem_of_app. now left.
Qed.

(** ** The trailing window *)

Lemma recent_detections_cons s h now :
  recent_detections (s :: h) now =
  if in_window now s then name_conf s :: recent_detections h now
  else recent_detections h now.
Proof. destruct s as [[n q] t]. reflexivity. Qed.

Lemma recent_detections_app h1 h2 now :
  recent_detections (h1 ++ h2) now =
  recent_detections h1 now ++ recent_detections h2 now.
Proof.
  induction h1 as [|s h1 IH]; [reflexivity|].
  rewrite <- app_comm_cons, !recent_detections_cons, IH.
  destruct (in_window now s); reflexivity.
Qed.

Lemma recent_detections_filter h now :
  recent_detections h now = name_conf <$> List.filter (in_window now) h.
Proof.
  induction h as [|s h IH]; [reflexivity|].
  rewrite recent_detections_cons. simpl.
  destruct (in_window now s); simpl; now rewrite IH.
Qed.

Lemma recent_detections_nil h now :
  recent_detections h now = [] ↔ ∀ s, s ∈ h → in_window now s = false.
Proof.
  induction h as [|s h IH].
  - split; [|reflexivity]. intros _ s Hs. now apply elem_of_nil in Hs.
  - rewrite recent_detections_cons. split.
    + intros H s' Hs'. destruct (in_window now s) eqn:E; [discriminate|].
      apply elem_of_cons in Hs'. destruct Hs' as [->|Hs']; [exact E|].
      now apply IH.
    + intros H. rewrite (H s) by now left.
      apply IH. intros s' Hs'. apply H. now right.
Qed.

(** A position in the recent detections is a position in the history. *)
Lemma recent_detections_split h now : ∀ pre x post,
  recent_detections h now = pre ++ x :: post →
  ∃ h1 s h2, h = h1 ++ s :: h2 ∧ in_window now s = true ∧ name_conf s = x ∧
    recent_detections h1 now = pre ∧ recent_detections h2 now = post.
Proof.
  induction h as [|s h IH]; intros pre x post Heq.
  - now destruct pre.
  - rewrite recent_detections_cons in Heq. destruct (in_window now s) eqn:E.
    + destruct pre as [|y pre]; simpl in Heq.
      * inversion Heq; subst. exists [], s, h. auto.
      * inversion Heq as [[Hy Hrest]].
        destruct (IH _ _ _ Hrest) as (h1 & s' & h2 & -> & Hw & Hx & H1 & H2).
        exists (s :: h1), s', h2. rewrite recent_detections_cons, E, H1.
        auto.
    + destruct (IH _ _ _ Heq) as (h1 & s' & h2 & -> & Hw & Hx & H1 & H2).
      exists (s :: h1), s', h2. rewrite recent_detections_cons, E. auto.
Qed.

Lemma get_smoothed_detection_eq self now :
  get_smoothed_detection self now =
  (self, smooth_of_recent (recent_detections (detection_history self) now)).
Proof.
  unfold get_smoothed_detection, smooth_of_recent.
  destruct (detection_history self) as [|s h]; [reflexivity|].
  destruct (recent_detections (s :: h) now); reflexivity.
Qed.

(** Smoothing never raises: the dictionary of a non-empty list is not
    empty, and the majority label has at least one sample. *)
Lemma smooth_of_recent_majority recent :
  recent ≠ [] →
  ∃ r, py_max_key (count_classes recent) = Ok r ∧
    smooth_of_recent recent =
    Ok (r, (py_sum (class_confidences recent r)
            / inject_Z (Z.of_nat (votes recent r)))%Q).
Proof.
  intros Hne. destruct (majority_first recent Hne) as (r & Hr & Hmax & _).
  exists r. split; [exact Hr|].
  destruct recent as [|x recent]; [congruence|].
  assert (Hpos : 0 < votes (x :: recent) r).
  { specialize (Hmax x.1). destruct x as [n q]. rewrite votes_cons in Hmax.
    simpl in Hmax. rewrite String.eqb_refl in Hmax. lia. }
  unfold smooth_of_recent. rewrite Hr.
  unfold mbind, result_bind, rbind, py_div.
  change (length (class_confidences (x :: recent) r))
    with (votes (x :: recent) r).
  destruct (votes (x :: recent) r); [lia|reflexivity].
Qed.

(** ** The bounded history *)

Lemma update_detection_history_eq self class_name confidence now :
  update_detection_history self class_name confidence now =
  Ok (set_history self
        (let h := detection_history self ++ [(class_name, confidence, now)] in
         if Nat.ltb (max_history self) (length h) then tail h else h)).
Proof.
  unfold update_detection_history. cbv zeta.
  destruct (Nat.ltb _ _); [|reflexivity].
  destruct (detection_history self); reflexivity.
Qed.

Lemma evict_drop (h : list sample) s inputs cap :
  length h ≤ cap →
  let h' := if Nat.ltb cap (length (h ++ [s])) then tail (h ++ [s])
            else h ++ [s] in
  length h' ≤ cap ∧
  drop (length (h ++ s :: inputs) - cap) (h ++ s :: inputs) =
  drop (length (h' ++ inputs) - cap) (h' ++ inputs).
Proof.
  intros Hlen. cbv zeta.
  replace (h ++ s :: inputs) with ((h ++ [s]) ++ inputs)
    by (now rewrite <- app_assoc).
  assert (Hl : length (h ++ [s]) = S (length h))
    by (rewrite length_app; simpl; lia).
  destruct (Nat.ltb cap (length (h ++ [s]))) eqn:E.
  - apply Nat.ltb_lt in E. destruct (h ++ [s]) as [|x t]; [discriminate|].
    simpl in Hl, E. simpl tail. split; [lia|].
    rewrite <- app_comm_cons. simpl length. rewrite length_app.
    replace (S (length t + length inputs) - cap)
      with (S (length t + length inputs - cap)) by lia.
    reflexivity.
  - apply Nat.ltb_ge in E. split; [lia|reflexivity].
Qed.

Lemma run_appends_suffix inputs : ∀ self,
  length (detection_history self) ≤ max_history self →
  ∃ c, run_appends self inputs = Ok c ∧
    c = set_history self (detection_history c) ∧
    detection_history c =
      drop (length (detection_history self ++ inputs) - max_history self)
           (detection_history self ++ inputs).
Proof.
  induction inputs as [|[[n q] t] inputs IH]; intros self Hlen.
  - exists self. rewrite app_nil_r.
    replace (_ - _) with 0 by lia. simpl. split; [reflexivity|].
    split; [now destruct self|reflexivity].
  - cbn [run_appends]. rewrite update_detection_history_eq. cbv zeta.
    destruct (evict_drop _ (n, q, t) inputs _ Hlen) as [Hlen' Hdrop].
    cbv zeta in Hlen', Hdrop.
    set (h' := if Nat.ltb _ _ then _ else _) in *.
    change (Ok (set_history self h') ≫= (λ self', run_appends self' inputs))
      with (run_appends (set_history self h') inputs).
    destruct (IH (set_history self h')) as (c & Hrun & Hc & Hhist);
      [exact Hlen'|].
    exists c. split; [exact Hrun|]. split.
    + rewrite Hc at 1. reflexivity.
    + rewrite Hhist. simpl. symmetry. exact Hdrop.
Qed.

(** ** Rendering: what the drawing code does to the heap *)

Section HeapFacts.
Implicit Types (σ rest : heap) (x y : ndarray).

Lemma heap_lookup_0 σ x rest : (σ ++ x :: rest) !! length σ = Some x.
Proof. now apply list_lookup_middle. Qed.

Lemma heap_lookup_1 σ x y rest : (σ ++ x :: y :: rest) !! S (length σ) = Some y.
Proof.
  replace (σ ++ x :: y :: rest) with ((σ ++ [x]) ++ y :: rest)
    by (now rewrite <- app_assoc).
  apply list_lookup_middle. rewrite length_app. simpl. lia.
Qed.

Lemma heap_alter_0 f σ x rest :
  alter f (length σ) (σ ++ x :: rest) = σ ++ f x :: rest.
Proof.
  replace (length σ) with (length σ + 0) by lia. now rewrite alter_app_r.
Qed.

Lemma heap_alter_1 f σ x y rest :
  alter f (S (length σ)) (σ ++ x :: y :: rest) = σ ++ x :: f y :: rest.
Proof.
  replace (S (length σ)) with (length σ + 1) by lia. now rewrite alter_app_r.
Qed.

Lemma heap_insert_0 σ x y rest :
  <[length σ := y]> (σ ++ x :: rest) = σ ++ y :: rest.
Proof.
  replace (length σ) with (length σ + 0) at 1 by lia.
  now rewrite insert_app_r.
Qed.

Lemma heap_old_cell σ rest r x : σ !! r = Some x → (σ ++ rest) !! r = Some x.
Proof. apply lookup_app_l_Some. Qed.

Lemma heap_fresh_cell σ : σ !! length σ = None.
Proof. now apply lookup_ge_None. Qed.
End HeapFacts.

(** Symbolic execution of straight-line heap code on a heap that ends
    with the two buffers the rendering code allocates. *)
Ltac heap_exec :=
  repeat match goal with
  | |- context [(?σ ++ ?x :: ?rest) !! length ?σ] =>
      rewrite (heap_lookup_0 σ x rest)
  | |- context [(?σ ++ ?x :: ?y :: ?rest) !! S (length ?σ)] =>
      rewrite (heap_lookup_1 σ x y rest)
  | |- context [alter ?f (length ?σ) (?σ ++ ?x :: ?rest)] =>
      rewrite (heap_alter_0 f σ x rest)
  | |- context [alter ?f (S (length ?σ)) (?σ ++ ?x :: ?y :: ?rest)] =>
      rewrite (heap_alter_1 f σ x y rest)
  | |- context [<[length ?σ := ?y]> (?σ ++ ?x :: ?rest)] =>
      rewrite (heap_insert_0 σ x y rest)
  | _ => progress cbn beta iota zeta delta [fst snd]
  end.

Lemma draw_confidence_overlay_run getTextSize self σ f a h w rest :
  σ !! f = Some a → shape a = h :: w :: rest →
  ∃ D O, CameraWindow.draw_confidence_overlay getTextSize self (Some f) σ
         = (σ ++ [D; O], Ok (length σ)) ∧ shape D = shape a.
Proof.
  intros Hf Hshape.
  destruct (CameraWindow.displayed_detection self) as [class_name confidence] eqn:Ed.
  do 2 eexists. split.
  - unfold CameraWindow.draw_confidence_overlay,
      CameraWindow.draw_confidence_bar, CameraWindow.draw_frame_info.
    unfold mbind, M_bind, mret, M_ret, ndarray_copy at 1. rewrite Hf, Ed.
    unfold shape_hw. heap_exec. rewrite Hshape.
    change (take 2 (h :: w :: rest)) with [h; w]. heap_exec.
    unfold ndarray_copy. heap_exec.
    rewrite <- app_assoc, length_app. cbn [app length].
    replace (length σ + 1) with (S (length σ)) by lia.
    unfold cv2_rectangle, cv2_addWeighted, cv2_putText.
    heap_exec. reflexivity.
  - simpl. reflexivity.
Qed.

Lemma draw_confidence_overlay_flat getTextSize self σ f a :
  σ !! f = Some a → length (shape a) < 2 →
  CameraWindow.draw_confidence_overlay getTextSize self (Some f) σ
  = (σ ++ [a], Raise ValueError).
Proof.
  intros Hf Hshape.
  unfold CameraWindow.draw_confidence_overlay.
  unfold mbind, M_bind, ndarray_copy at 1. rewrite Hf.
  unfold shape_hw. heap_exec.
  destruct (shape a) as [|h [|w rest]]; [reflexivity|reflexivity|].
  simpl in Hshape. lia.
Qed.

Lemma draw_confidence_overlay_None getTextSize self σ :
  CameraWindow.draw_confidence_overlay getTextSize self None σ
  = (σ, Raise AttributeError).
Proof. reflexivity. Qed.

Lemma draw_detection_info_run σ f a h w rest class_name confidence :
  σ !! f = Some a → shape a = h :: w :: rest →
  ∃ D O, draw_detection_info (Some f) class_name confidence σ
         = (σ ++ [D; O], Ok (length σ)) ∧ shape D = shape a.
Proof.
  intros Hf Hshape. do 2 eexists. split.
  - unfold draw_detection_info.
    unfold mbind, M_bind, mret, M_ret, ndarray_copy at 1. rewrite Hf.
    unfold shape_hw. heap_exec. rewrite Hshape.
    change (take 2 (h :: w :: rest)) with [h; w]. heap_exec.
    unfold ndarray_copy. heap_exec.
    rewrite <- app_assoc, length_app. cbn [app length].
    replace (length σ + 1) with (S (length σ)) by lia.
    unfold cv2_rectangle, cv2_addWeighted, cv2_putText.
    heap_exec. reflexivity.
  - simpl. reflexivity.
Qed.

Lemma draw_detection_info_flat σ f a class_name confidence :
  σ !! f = Some a → length (shape a) < 2 →
  draw_detection_info (Some f) class_name confidence σ
  = (σ ++ [a], Raise ValueError).
Proof.
  intros Hf Hshape.
  unfold draw_detection_info.
  unfold mbind, M_bind, ndarray_copy at 1. rewrite Hf.
  unfold shape_hw. heap_exec.
  destruct (shape a) as [|h [|w rest]]; [reflexivity|reflexivity|].
  simpl in Hshape. lia.
Qed.

Lemma draw_detection_info_None σ class_name confidence :
  draw_detection_info None class_name confidence σ = (σ, Raise AttributeError).
Proof. reflexivity. Qed.

(** Both renderers only ever extend the heap. *)
Lemma keeps_heap_extend σ extra r :
  (∀ out, r = Ok out → out = length σ ∧ extra ≠ []) →
  keeps_heap σ (σ ++ extra, r).
Proof.
  intros Hr. split; simpl.
  - intros i x Hi. now apply heap_old_cell.
  - intros out Hout. destruct (Hr _ Hout) as [-> Hne]. split.
    + apply heap_fresh_cell.
    + destruct extra as [|y extra]; [congruence|].
      rewrite heap_lookup_0. eauto.
Qed.

Lemma draw_confidence_overlay_keeps getTextSize self σ f :
  is_Some (σ !! f) →
  keeps_heap σ (CameraWindow.draw_confidence_overlay getTextSize self (Some f) σ).
Proof.
  intros [a Hf].
  destruct (shape a) as [|h [|w rest]] eqn:Hs.
  - rewrite (draw_confidence_overlay_flat _ _ _ _ a) by (rewrite ?Hs; simpl; auto).
    apply keeps_heap_extend. discriminate.
  - rewrite (draw_confidence_overlay_flat _ _ _ _ a) by (rewrite ?Hs; simpl; auto).
    apply keeps_heap_extend. discriminate.
  - destruct (draw_confidence_overlay_run getTextSize self _ _ _ _ _ _ Hf Hs)
      as (D & O & -> & _).
    apply keeps_heap_extend. intros out [= <-]. split; [reflexivity|discriminate].
Qed.

Lemma draw_detection_info_keeps σ f class_name confidence :
  is_Some (σ !! f) →
  keeps_heap σ (draw_detection_info (Some f) class_name confidence σ).
Proof.
  intros [a Hf].
  destruct (shape a) as [|h [|w rest]] eqn:Hs.
  - rewrite (draw_detection_info_flat _ _ a) by (rewrite ?Hs; simpl; auto).
    apply keeps_heap_extend. discriminate.
  - rewrite (draw_detection_info_flat _ _ a) by (rewrite ?Hs; simpl; auto).
    apply keeps_heap_extend. discriminate.
  - destruct (draw_detection_info_run _ _ _ _ _ _ class_name confidence Hf Hs)
      as (D & O & -> & _).
    apply keeps_heap_extend. intros out [= <-]. split; [reflexivity|discriminate].
Qed.

(** ** The stored detection of a camera window *)

Lemma do_calls_stored cs : ∀ w d,
  CameraWindow.current_detection w = Some d →
  CameraWindow.current_detection (do_calls w cs) = Some (last_update cs d).
Proof.
  induction cs as [|c cs IH]; intros w d Hw; [exact Hw|].
  unfold do_calls, last_update in *. simpl.
  destruct c as [n q|b]; apply IH; [reflexivity|exact Hw].
Qed.

Lemma do_calls_no_update cs : ∀ w,
  forallb (λ c, negb (is_update c)) cs = true →
  CameraWindow.current_detection (do_calls w cs) = CameraWindow.current_detection w.
Proof.
  induction cs as [|c cs IH]; intros w H; [reflexivity|].
  simpl in H. apply andb_true_iff in H. destruct H as [Hc H].
  unfold do_calls in *. simpl. rewrite IH by exact H.
  destruct c; [discriminate|reflexivity].
Qed.

Lemma get_current_detection_stored w d :
  CameraWindow.current_detection w = Some d →
  CameraWindow.get_current_detection w = Raise AttributeError.
Proof.
  intros H. unfold CameraWindow.get_current_detection. rewrite H.
  destruct d as [n q]. reflexivity.
Qed.

(** ** The detection loop *)

Section Obeys.
Variable R : loop_state → loop_state → Prop.
Variable E : py_exception → Prop.
Hypothesis R_refl : ∀ s, R s s.
Hypothesis R_trans : ∀ s1 s2 s3, R s1 s2 → R s2 s3 → R s1 s3.

Lemma obeys_ret {A} (a : A) : obeys R E (mret a).
Proof. intros s. split; [apply R_refl|discriminate]. Qed.

Lemma obeys_read {A} (g : loop_state → A) : obeys R E (λ s, (s, Ok (g s))).
Proof. intros s. split; [apply R_refl|discriminate]. Qed.

Lemma obeys_bind {A B} (m : L A) (k : A → L B) :
  obeys R E m → (∀ a, obeys R E (k a)) → obeys R E (m ≫= k).
Proof.
  intros Hm Hk s. unfold mbind, L_bind.
  destruct (Hm s) as [HR HE]. destruct (m s) as [s1 [a|e]]; simpl in *.
  - destruct (Hk a s1) as [HR' HE']. split; [|exact HE'].
    eapply R_trans; eauto.
  - split; [exact HR|]. intros e' [= <-]. now apply HE.
Qed.

Lemma obeys_on_result {A} (r : result A) :
  (∀ e, r = Raise e → E e) → obeys R E (on_result r).
Proof. intros Hr s. split; [apply R_refl|exact Hr]. Qed.

Lemma obeys_on_heap {A} (m : M A) :
  (∀ s σ, R s (with_mem s σ)) →
  (∀ σ e, (m σ).2 = Raise e → E e) →
  obeys R E (on_heap m).
Proof.
  intros Hmem Hm s. unfold on_heap.
  specialize (Hm (mem s)). destruct (m (mem s)) as [σ r]. simpl in *.
  split; [apply Hmem|exact Hm].
Qed.

Lemma obeys_modify (f : loop_state → loop_state) :
  (∀ s, R s (f s)) → obeys R E (modify f).
Proof. intros Hf s. split; [apply Hf|discriminate]. Qed.
End Obeys.

Lemma display_rel_refl env s : display_rel env s s.
Proof. repeat split. Qed.

Lemma display_rel_trans env s1 s2 s3 :
  display_rel env s1 s2 → display_rel env s2 s3 → display_rel env s1 s3.
Proof.
  intros (A1 & A2 & A3 & A4) (B1 & B2 & B3 & B4).
  repeat split; try congruence.
  intros Hk. rewrite B4, A4; auto.
Qed.

Lemma raised_of_elem {A} (r : result A) e : r = Raise e → e ∈ raised_of r.
Proof. intros ->. now left. Qed.

Lemma env_exceptions_elem env e :
  e ∈ env_exceptions env ↔
  env_camera env = Raise e ∨ env_pipeline env = Raise e ∨
  env_imshow env = Raise e ∨ env_imwrite env = Raise e.
Proof.
  unfold env_exceptions. rewrite !elem_of_app.
  assert (H : ∀ A (r : result A), e ∈ raised_of r ↔ r = Raise e).
  { intros A [a|e']; simpl.
    - split; [intros H; now apply elem_of_nil in H|discriminate].
    - rewrite list_elem_of_singleton. split; congruence. }
  rewrite !H. reflexivity.
Qed.

(** Smoothing never raises. *)
Lemma smooth_of_recent_ok recent : ∃ d, smooth_of_recent recent = Ok d.
Proof.
  destruct recent as [|x l]; [eexists; reflexivity|].
  destruct (smooth_of_recent_majority (x :: l)) as (r & _ & ->);
    [discriminate|eauto].
Qed.

(** The renderer raises nothing but exceptions of class [Exception]. *)
Lemma draw_detection_info_exn frame class_name confidence σ e :
  (draw_detection_info frame class_name confidence σ).2 = Raise e →
  is_Exception e = true.
Proof.
  destruct frame as [f|]; [|intros [= <-]; reflexivity].
  destruct (σ !! f) as [a|] eqn:Hf.
  - destruct (shape a) as [|h [|w rest]] eqn:Hs.
    + rewrite (draw_detection_info_flat _ _ a) by (rewrite ?Hs; simpl; auto).
      intros [= <-]. reflexivity.
    + rewrite (draw_detection_info_flat _ _ a) by (rewrite ?Hs; simpl; auto).
      intros [= <-]. reflexivity.
    + destruct (draw_detection_info_run _ _ _ _ _ _ class_name confidence Hf Hs)
        as (D & O & -> & _). discriminate.
  - unfold draw_detection_info, mbind, M_bind, ndarray_copy. rewrite Hf.
    intros [= <-]. reflexivity.
Qed.

Lemma display_step_obeys env frame :
  obeys (display_rel env) (tick_exn env) (display_step env frame).
Proof.
  pose proof (display_rel_refl env) as Hrefl.
  pose proof (display_rel_trans env) as Htrans.
  unfold display_step.
  apply obeys_bind; [assumption| |intros d].
  { intros s. rewrite get_smoothed_detection_eq. simpl. split.
    - destruct s, ctrl0; repeat split.
    - intros e He. destruct (smooth_of_recent_ok
        (recent_detections (detection_history (ctrl s)) (env_time_smooth env)))
        as [d Hd]. congruence. }
  apply obeys_bind; [assumption|apply obeys_read; assumption|intros threshold].
  apply obeys_bind; [assumption| |intros frame'].
  { apply obeys_on_heap.
    - intros s σ. repeat split.
    - intros σ e He. left.
      destruct (Qle_bool threshold d.2);
        eapply draw_detection_info_exn; exact He. }
  apply obeys_bind; [assumption| |intros _].
  { apply obeys_on_result; [assumption|]. intros e He. right.
    apply env_exceptions_elem. auto. }
  apply obeys_bind; [assumption| |intros _].
  { apply obeys_modify. intros s. repeat split. }
  apply obeys_bind; [assumption| |intros _].
  { destruct (Z.eqb_spec (Z.land (env_key env) 255) 113) as [Hq|Hq].
    - apply obeys_modify. intros s. repeat split. intros Hk. contradiction.
    - destruct (Z.eqb (Z.land (env_key env) 255) 115).
      + apply obeys_on_result; [assumption|]. intros e He. right.
        apply env_exceptions_elem. auto.
      + apply obeys_ret. assumption. }
  apply obeys_modify. intros s. repeat split.
Qed.

Lemma predict_raises pipeline e :
  ModelLoader.predict true pipeline = Raise e →
  pipeline = Raise e ∧ is_Exception e = false.
Proof.
  unfold ModelLoader.predict. simpl. destruct pipeline as [r|e']; [discriminate|].
  destruct (is_Exception e') eqn:He; [discriminate|].
  intros [= <-]. auto.
Qed.

Lemma inference_step_spec env t s :
  let out := inference_step env t s in
  predict_calls out.1 = t :: predict_calls s ∧
  is_running (ctrl out.1) = is_running (ctrl s) ∧
  max_history (ctrl out.1) = max_history (ctrl s) ∧
  match ModelLoader.predict true (env_pipeline env) with
  | Raise e =>
      out.2 = Raise e ∧ last_detection_time out.1 = last_detection_time s ∧
      ctrl out.1 = ctrl s
  | Ok p =>
      out.2 = Ok tt ∧ last_detection_time out.1 = t ∧
      update_detection_history (ctrl s) p.1 p.2 (env_time_history env)
        = Ok (ctrl out.1)
  end.
Proof.
  unfold inference_step, mbind, L_bind, modify, on_result.
  destruct (ModelLoader.predict true (env_pipeline env)) as [p|e]; simpl.
  - rewrite update_detection_history_eq. simpl.
    destruct (window s) as [w|]; [destruct (show_camera_window (ctrl s))|];
      simpl; repeat split.
  - repeat split.
Qed.

(** The three ways an iteration can go: the frame source fails, it has
    no frame, or it has one and the two halves of the iteration run. *)
Lemma tick_body_cases env s :
  match env_camera env with
  | Raise e => tick_body env s = (s, Raise e)
  | Ok None => tick_body env s = (s, Ok tt)
  | Ok (Some a) =>
      let s1 := with_mem s (mem s ++ [a]) in
      let frame := Some (length (mem s)) in
      tick_body env s =
      if inference_due env s then
        match inference_step env (env_time env) s1 with
        | (s2, Ok _) => display_step env frame s2
        | (s2, Raise e) => (s2, Raise e)
        end
      else display_step env frame s1
  end.
Proof.
  unfold tick_body, inference_due, mbind at 1 2, L_bind, on_result, on_heap.
  destruct (env_camera env) as [[a|]|e]; simpl.
  - unfold mbind, L_bind. simpl.
    destruct (Qle_bool _ _); simpl; [destruct (env_model_loaded env)|];
      simpl; reflexivity.
  - destruct s; reflexivity.
  - reflexivity.
Qed.

Lemma inference_due_iff env s :
  inference_due env s = true ↔
  (detection_interval <= env_time env - last_detection_time s)%Q ∧
  env_model_loaded env = true.
Proof.
  unfold inference_due. rewrite andb_true_iff, Qle_bool_iff. reflexivity.
Qed.

(** What the [try] block does to the running flag and to the record of
    calls, and what it can raise. *)
Lemma tick_body_spec env s :
  let out := tick_body env s in
  (Z.land (env_key env) 255 ≠ 113%Z →
   is_running (ctrl out.1) = is_running (ctrl s)) ∧
  (∀ e, out.2 = Raise e → tick_exn env e) ∧
  ((predict_calls out.1 = predict_calls s ∧
    last_detection_time out.1 = last_detection_time s) ∨
   (predict_calls out.1 = env_time env :: predict_calls s ∧
    inference_due env s = true ∧
    (last_detection_time out.1 = env_time env ∨
     ∃ e, out.2 = Raise e ∧ is_Exception e = false))).
Proof.
  pose proof (tick_body_cases env s) as Hc. cbv zeta.
  destruct (env_camera env) as [[a|]|e] eqn:Hcam.
  - cbv zeta in Hc. rewrite Hc. clear Hc.
    set (s1 := with_mem s (mem s ++ [a])).
    set (frame := Some (length (mem s))).
    destruct (inference_due env s) eqn:Hdue.
    + pose proof (inference_step_spec env (env_time env) s1) as Hi.
      cbv zeta in Hi. destruct Hi as (Hpc & Hrun & _ & Hp).
      destruct (inference_step env (env_time env) s1) as [s2 r2]. simpl in *.
      destruct (ModelLoader.predict true (env_pipeline env)) as [p|e] eqn:Hpred.
      * destruct Hp as (-> & Hlast & _).
        destruct (display_step_obeys env frame s2) as [(D1 & D2 & _ & D4) DE].
        split; [intros Hk; rewrite D4, Hrun by exact Hk; reflexivity|].
        split; [exact DE|]. right.
        split; [now rewrite D1, Hpc|]. split; [reflexivity|]. left.
        now rewrite D2.
      * destruct Hp as (-> & Hlast & _). simpl.
        apply predict_raises in Hpred. destruct Hpred as [Hpipe Hexn].
        split; [intros _; exact Hrun|]. split.
        -- intros e' [= <-]. right. apply env_exceptions_elem. auto.
        -- right. split; [exact Hpc|]. split; [reflexivity|]. right. eauto.
    + destruct (display_step_obeys env frame s1) as [(D1 & D2 & _ & D4) DE].
      split; [intros Hk; rewrite D4 by exact Hk; reflexivity|].
      split; [exact DE|]. left. split; [now rewrite D1|now rewrite D2].
  - rewrite Hc. simpl. split; [reflexivity|]. split; [discriminate|]. now left.
  - rewrite Hc. simpl. split; [reflexivity|]. split.
    + intros e' [= <-]. right. apply env_exceptions_elem. auto.
    + now left.
Qed.

(** The handlers of an iteration touch the running flag only. *)
Lemma tick_unfold env s :
  ∃ s' r, tick_body env s = (s', r) ∧
    match r with
    | Ok _ => tick env s = (s', None)
    | Raise e =>
        (e = KeyboardInterrupt ∧
         tick env s = (with_ctrl s' (set_running (ctrl s') false), None)) ∨
        (e ≠ KeyboardInterrupt ∧ is_Exception e = true ∧ tick env s = (s', None)) ∨
        (e ≠ KeyboardInterrupt ∧ is_Exception e = false ∧ tick env s = (s', Some e))
    end.
Proof.
  unfold tick. destruct (tick_body env s) as [s' [u|e]].
  - exists s', (Ok u). auto.
  - exists s', (Raise e). split; [reflexivity|].
    destruct e; simpl;
      first [ left; split; reflexivity
            | right; left; split; [discriminate|split; reflexivity]
            | right; right; split; [discriminate|split; reflexivity] ].
Qed.

Lemma tick_clock env s :
  let out := tick env s in
  (predict_calls out.1 = predict_calls s ∧
   last_detection_time out.1 = last_detection_time s) ∨
  (predict_calls out.1 = env_time env :: predict_calls s ∧
   (detection_interval <= env_time env - last_detection_time s)%Q ∧
   (out.2 = None → is_running (ctrl out.1) = true →
    last_detection_time out.1 = env_time env)).
Proof.
  cbv zeta. destruct (tick_unfold env s) as (s' & r & Hb & Ht).
  pose proof (tick_body_spec env s) as Hs. cbv zeta in Hs. rewrite Hb in Hs.
  simpl in Hs. destruct Hs as (_ & _ & Hclock).
  assert (Hsame : predict_calls (tick env s).1 = predict_calls s' ∧
                  last_detection_time (tick env s).1 = last_detection_time s').
  { destruct r as [u|e]; [now rewrite Ht|].
    destruct Ht as [[_ ->]|[(_ & _ & ->)|(_ & _ & ->)]]; auto. }
  destruct Hsame as [-> ->].
  destruct Hclock as [Hsame|(Hpc & Hdue & Hlast)]; [now left|right].
  split; [exact Hpc|]. apply inference_due_iff in Hdue.
  split; [tauto|]. intros Hesc Hrun.
  destruct Hlast as [Hlast|(e & -> & Hexn)]; [exact Hlast|]. exfalso.
  destruct Ht as [[_ Ht]|[(_ & He & _)|(_ & _ & Ht)]].
  - rewrite Ht in Hrun. simpl in Hrun. discriminate.
  - congruence.
  - rewrite Ht in Hesc. discriminate.
Qed.

(** ** Throttling of the classifier *)

Lemma tick_inv env s :
  clock_inv s → is_running (ctrl s) = true →
  spaced (predict_calls (tick env s).1) ∧
  ((tick env s).2 = None → clock_inv (tick env s).1) ∧
  ∃ new, predict_calls (tick env s).1 = new ++ predict_calls s ∧
         ∀ t, t ∈ new → t = env_time env.
Proof.
  intros [Hsp Hlink] Hrun.
  destruct (tick_clock env s) as [[Hpc Hlast]|(Hpc & Hdue & Hlast)].
  - rewrite Hpc. split; [exact Hsp|]. split.
    + intros _. split; [now rewrite Hpc|].
      intros _ t rest Ht. rewrite Hlast. rewrite Hpc in Ht. eauto.
    + exists []. split; [reflexivity|]. intros t Ht. now apply elem_of_nil in Ht.
  - assert (Hsp' : spaced (env_time env :: predict_calls s)).
    { simpl. split; [|exact Hsp].
      destruct (predict_calls s) as [|t1 rest] eqn:E; [exact I|].
      rewrite (Hlink Hrun t1 rest eq_refl) in Hdue.
      unfold detection_interval in *. lra. }
    rewrite Hpc. split; [exact Hsp'|]. split.
    + intros Hesc. split; [now rewrite Hpc|].
      intros Hrun' t rest Ht. rewrite Hpc in Ht. inversion Ht; subst. auto.
    + exists [env_time env]. split; [reflexivity|].
      intros t Ht. now apply list_elem_of_singleton in Ht.
Qed.

Lemma iterate_calls envs : ∀ s,
  clock_inv s →
  spaced (predict_calls (iterate envs s).1) ∧
  ∃ new, predict_calls (iterate envs s).1 = new ++ predict_calls s ∧
         ∀ t, t ∈ new → ∃ env, env ∈ envs ∧ t = env_time env.
Proof.
  induction envs as [|env envs IH]; intros s Hinv.
  - simpl. split; [apply Hinv|]. exists []. split; [reflexivity|].
    intros t Ht. now apply elem_of_nil in Ht.
  - simpl. destruct (is_running (ctrl s)) eqn:Hrun.
    + destruct (tick_inv env s Hinv Hrun) as (Hsp & Hnext & new & Hnew & Ht).
      destruct (tick env s) as [s1 [e|]]; simpl in *.
      * split; [exact Hsp|]. exists new. split; [exact Hnew|].
        intros t Hin. exists env. split; [now left|auto].
      * destruct (IH s1 (Hnext eq_refl)) as (Hsp' & new' & Hnew' & Ht').
        split; [exact Hsp'|]. exists (new' ++ new).
        split; [now rewrite Hnew', Hnew, app_assoc|].
        intros t Hin. apply elem_of_app in Hin. destruct Hin as [Hin|Hin].
        -- destruct (Ht' _ Hin) as (env' & Henv' & ->).
           exists env'. split; [now right|reflexivity].
        -- exists env. split; [now left|auto].
    + simpl. split; [apply Hinv|]. exists []. split; [reflexivity|].
      intros t Ht. now apply elem_of_nil in Ht.
Qed.

(** Spaced calls that all lie at or after [lo]: the latest one lies at
    least [detection_interval] times the number of earlier calls after [lo]. *)
Lemma spaced_span lo calls : ∀ t,
  spaced (t :: calls) → (∀ x, x ∈ t :: calls → (lo <= x)%Q) →
  (lo + inject_Z (Z.of_nat (length calls)) * detection_interval <= t)%Q.
Proof.
  induction calls as [|t1 calls IH]; intros t Hsp Hlo.
  - specialize (Hlo t ltac:(now left)). unfold detection_interval.
    change (inject_Z (Z.of_nat (length (@nil Q)))) with 0%Q. lra.
  - destruct Hsp as [Hgap Hsp].
    assert (H1 : (lo + inject_Z (Z.of_nat (length calls)) * detection_interval <= t1)%Q).
    { apply IH; [exact Hsp|]. intros x Hx. apply Hlo. now right. }
    simpl length. rewrite Nat2Z.inj_succ, <- Z.add_1_r, inject_Z_plus.
    unfold detection_interval in *. change (inject_Z 1) with 1%Q.
    revert H1. generalize (inject_Z (Z.of_nat (length calls))).
    intros n H1. clear - Hgap H1. lra.
Qed.

Lemma spaced_window_bound lo calls :
  spaced calls → (∀ x, x ∈ calls → (lo <= x < lo + 2.0)%Q) →
  length calls ≤ 4.
Proof.
  intros Hsp Hwin. destruct calls as [|t calls]; [simpl; lia|].
  assert (H := spaced_span lo calls t Hsp (λ x Hx, proj1 (Hwin x Hx))).
  destruct (Hwin t ltac:(now left)) as [_ Hhi].
  simpl length. destruct (Nat.le_gt_cases (length calls) 3) as [|Hbig]; [lia|].
  exfalso. assert (Hz : (4 <= Z.of_nat (length calls))%Z) by lia.
  rewrite Zle_Qle in Hz. unfold detection_interval in H.
  change (inject_Z 4) with 4%Q in Hz.
  revert H Hz. generalize (inject_Z (Z.of_nat (length calls))).
  intros n H Hz. clear - H Hz Hhi. lra.
Qed.

Lemma scenario_envs_window t0 n env :
  n ≤ 40 → env ∈ scenario_envs t0 n →
  (t0 <= env_time env < t0 + 2.0)%Q.
Proof.
  intros Hn Hin. unfold scenario_envs in Hin.
  apply list_elem_of_fmap in Hin. destruct Hin as (k & -> & Hk).
  apply list_elem_of_In, in_seq in Hk. simpl.
  assert (H0 : (0 <= Z.of_nat k)%Z) by lia.
  assert (H1 : (Z.of_nat k <= 39)%Z) by lia.
  rewrite Zle_Qle in H0, H1.
  change (inject_Z 0) with 0%Q in H0. change (inject_Z 39) with 39%Q in H1.
  revert H0 H1. generalize (inject_Z (Z.of_nat k)). intros q H0 H1.
  clear - H0 H1. lra.
Qed.

(** ** Further facts about smoothing and the history *)

Lemma class_confidences_all recent c :
  (∀ d, d ∈ recent → d.1 = c) → class_confidences recent c = recent.*2.
Proof.
  induction recent as [|[n x] recent IH]; intros H; [reflexivity|].
  assert (n = c) by (apply (H (n, x)); now left). subst n.
  simpl. rewrite String.eqb_refl. f_equal. apply IH. intros d Hd. apply H. now right.
Qed.

Lemma time_ordered_drop k : ∀ h, time_ordered h → time_ordered (drop k h).
Proof.
  induction k as [|k IH]; intros h Hh; [exact Hh|].
  destruct h as [|s h]; [exact I|]. simpl. apply IH. apply Hh.
Qed.

Lemma time_ordered_window h now :
  time_ordered h →
  ∃ k, recent_detections h now = name_conf <$> drop k h ∧
       (∀ s, s ∈ take k h → in_window now s = false) ∧
       (∀ s, s ∈ drop k h → in_window now s = true).
Proof.
  induction h as [|s h IH]; intros Hh.
  - exists 0. split; [reflexivity|]. split; intros s Hs; now apply elem_of_nil in Hs.
  - destruct Hh as [Hs Hh]. rewrite recent_detections_cons.
    destruct (in_window now s) eqn:E.
    + assert (Hall : ∀ s', s' ∈ s :: h → in_window now s' = true).
      { intros s' Hs'. apply elem_of_cons in Hs'. destruct Hs' as [->|Hs']; [exact E|].
        specialize (Hs s' Hs'). unfold in_window in *.
        apply Qlt_bool_iff. apply Qlt_bool_iff in E.
        revert E Hs. generalize (observed_at s) (observed_at s').
        intros t t' E Hs. clear - E Hs. lra. }
      exists 0. simpl. split.
      * f_equal. rewrite recent_detections_filter. f_equal.
        clear - Hall. induction h as [|x h IH]; [reflexivity|].
        simpl. rewrite (Hall x) by (right; now left). f_equal. apply IH.
        intros s' Hs'. apply Hall. apply elem_of_cons in Hs'.
        destruct Hs' as [->|Hs']; [now left|]. right. now right.
      * split; [intros s' Hs'; now apply elem_of_nil in Hs'|exact Hall].
    + destruct (IH Hh) as (k & Hk & Hout & Hin).
      exists (S k). simpl. split; [exact Hk|]. split; [|exact Hin].
      intros s' Hs'. apply elem_of_cons in Hs'.
      destruct Hs' as [->|Hs']; [exact E|now apply Hout].
Qed.

(** ** Further facts about rendering *)





(** ** Further facts about the detection loop *)

Lemma tick_body_calls env s :
  predict_calls (tick_body env s).1 =
  if frame_available env && inference_due env s
  then env_time env :: predict_calls s else predict_calls s.
Proof.
  pose proof (tick_body_cases env s) as Hc. unfold frame_available.
  destruct (env_camera env) as [[a|]|e]; [|now rewrite Hc|now rewrite Hc].
  cbv zeta in Hc. rewrite Hc. clear Hc. simpl andb.
  set (s1 := with_mem s (mem s ++ [a])).
  destruct (inference_due env s).
  - pose proof (inference_step_spec env (env_time env) s1) as Hi.
    cbv zeta in Hi. destruct Hi as (Hpc & _).
    destruct (inference_step env (env_time env) s1) as [s2 [u|e]]; simpl in *.
    + destruct (display_step_obeys env (Some (length (mem s))) s2)
        as [(D1 & _) _]. now rewrite D1.
    + exact Hpc.
  - destruct (display_step_obeys env (Some (length (mem s))) s1)
      as [(D1 & _) _]. now rewrite D1.
Qed.

Lemma tick_calls env s :
  predict_calls (tick env s).1 = predict_calls (tick_body env s).1.
Proof.
  destruct (tick_unfold env s) as (s' & r & Hb & Ht). rewrite Hb. simpl.
  destruct r as [u|e]; [now rewrite Ht|].
  destruct Ht as [[_ ->]|[(_ & _ & ->)|(_ & _ & ->)]]; reflexivity.
Qed.

Lemma loop_keeps_refl s : loop_keeps s s.
Proof. repeat split; auto. Qed.

Lemma loop_keeps_trans s1 s2 s3 :
  loop_keeps s1 s2 → loop_keeps s2 s3 → loop_keeps s1 s3.
Proof.
  intros (A1 & A2 & A3 & A4) (B1 & B2 & B3 & B4).
  split; [congruence|]. split; [congruence|]. split; [auto|].
  etransitivity; eassumption.
Qed.

Lemma draw_detection_info_prefix frame class_name confidence σ :
  σ `prefix_of` (draw_detection_info frame class_name confidence σ).1.
Proof.
  destruct frame as [f|]; [|simpl; reflexivity].
  destruct (σ !! f) as [a|] eqn:Hf.
  - destruct (shape a) as [|h [|w rest]] eqn:Hs.
    + rewrite (draw_detection_info_flat _ _ a) by (rewrite ?Hs; simpl; auto).
      now apply prefix_app_r.
    + rewrite (draw_detection_info_flat _ _ a) by (rewrite ?Hs; simpl; auto).
      now apply prefix_app_r.
    + destruct (draw_detection_info_run _ _ _ _ _ _ class_name confidence Hf Hs)
        as (D & O & -> & _). now apply prefix_app_r.
  - unfold draw_detection_info, mbind, M_bind, ndarray_copy. rewrite Hf.
    reflexivity.
Qed.

Ltac keeps_fields :=
  unfold loop_keeps; simpl; repeat split; auto.

Lemma tick_body_keeps env :
  obeys loop_keeps (λ _, True) (tick_body env).
Proof.
  pose proof loop_keeps_refl as Hrefl.
  pose proof loop_keeps_trans as Htrans.
  assert (Hmodify : ∀ f : loop_state → loop_state,
            (∀ s, loop_keeps s (f s)) → obeys loop_keeps (λ _, True) (modify f)).
  { intros f Hf. now apply obeys_modify. }
  unfold tick_body.
  apply obeys_bind; [assumption|now apply obeys_on_result|intros camera].
  apply obeys_bind; [assumption| |intros frame].
  { intros s. unfold on_heap. destruct camera as [a|]; simpl.
    - split; [|auto]. keeps_fields. now apply prefix_app_r.
    - split; [|auto]. keeps_fields. }
  destruct frame as [f|]; [|now apply obeys_ret].
  apply obeys_bind; [assumption|now apply obeys_read|intros s0].
  apply obeys_bind; [assumption| |intros _].
  { destruct (Qle_bool _ _); [|now apply obeys_ret].
    destruct (env_model_loaded env); [|now apply obeys_ret].
    unfold inference_step.
    apply obeys_bind; [assumption| |intros _].
    { apply Hmodify. intros s. keeps_fields. }
    apply obeys_bind; [assumption|now apply obeys_on_result|intros p].
    apply obeys_bind; [assumption| |intros _].
    { intros s. rewrite update_detection_history_eq. simpl.
      split; [|discriminate]. keeps_fields.
      intros Hlen.
      destruct (evict_drop (detection_history (ctrl s))
                  (p.1, p.2, env_time_history env) [] _ Hlen) as [H _].
      exact H. }
    apply obeys_bind; [assumption| |intros _].
    { apply Hmodify. intros s. destruct (window s) as [w|]; [|apply Hrefl].
      destruct (show_camera_window (ctrl s)); keeps_fields. }
    apply Hmodify. intros s. keeps_fields. }
  unfold display_step.
  apply obeys_bind; [assumption| |intros d].
  { intros s. rewrite get_smoothed_detection_eq. simpl. split; [|auto].
    keeps_fields. }
  apply obeys_bind; [assumption|now apply obeys_read|intros threshold].
  apply obeys_bind; [assumption| |intros frame'].
  { intros s. unfold on_heap.
    pose proof (draw_detection_info_prefix (Some f) d.1 d.2 (mem s)) as H1.
    pose proof (draw_detection_info_prefix (Some f) "No detection" 0.0%Q (mem s)) as H2.
    destruct (Qle_bool threshold d.2).
    - destruct (draw_detection_info (Some f) d.1 d.2 (mem s)) as [σ r]; simpl in *.
      split; [|auto]. keeps_fields.
    - destruct (draw_detection_info (Some f) "No detection" 0.0%Q (mem s))
        as [σ r]; simpl in *.
      split; [|auto]. keeps_fields. }
  apply obeys_bind; [assumption|now apply obeys_on_result|intros _].
  apply obeys_bind; [assumption| |intros _].
  { apply Hmodify. intros s. keeps_fields. }
  apply obeys_bind; [assumption| |intros _].
  { destruct (Z.eqb _ 113).
    - apply Hmodify. intros s. keeps_fields.
    - destruct (Z.eqb _ 115); [now apply obeys_on_result|now apply obeys_ret]. }
  apply Hmodify. intros s. keeps_fields.
Qed.

Lemma tick_keeps env s : loop_keeps s (tick env s).1.
Proof.
  destruct (tick_unfold env s) as (s' & r & Hb & Ht).
  destruct (tick_body_keeps env s) as [H _]. rewrite Hb in H. simpl in H.
  destruct r as [u|e]; [now rewrite Ht|].
  destruct Ht as [[_ ->]|[(_ & _ & ->)|(_ & _ & ->)]]; simpl; exact H.
Qed.

Lemma iterate_keeps envs : ∀ s, loop_keeps s (iterate envs s).1.
Proof.
  induction envs as [|env envs IH]; intros s; simpl.
  - apply loop_keeps_refl.
  - destruct (is_running (ctrl s)); [|apply loop_keeps_refl].
    pose proof (tick_keeps env s) as H.
    destruct (tick env s) as [s1 [e|]]; simpl in *; [exact H|].
    eapply loop_keeps_trans; [exact H|apply IH].
Qed.




(** ** Further facts about the command line and the camera manager *)

Lemma guarded_index (l : list string) i d :
  (if Nat.ltb i (length l) then py_index l i else Ok d)
  = Ok (default d (l !! i)).
Proof.
  unfold py_index. destruct (Nat.ltb_spec i (length l)) as [Hlt|Hge].
  - destruct (lookup_lt_is_Some_2 l i Hlt) as [x ->]. reflexivity.
  - now rewrite (lookup_ge_None_2 l i Hge).
Qed.

Lemma main_args_closed argv :
  main_args argv =
  match argv !! 1 with
  | None => Ok ("model/model.tflite", "model/labels.txt", false)
  | Some a1 =>
      if String.eqb a1 "--camera-window"
      then Ok (default "model/model.tflite" (argv !! 2),
               default "model/labels.txt" (argv !! 3), true)
      else Ok (a1, default "model/labels.txt" (argv !! 2), false)
  end.
Proof.
  unfold main_args. rewrite !guarded_index.
  destruct (Nat.ltb_spec 1 (length argv)) as [Hlt|Hge].
  - unfold py_index. destruct (lookup_lt_is_Some_2 argv 1 Hlt) as [a1 ->].
    unfold mbind, result_bind, rbind.
    destruct (String.eqb a1 "--camera-window"); reflexivity.
  - now rewrite (lookup_ge_None_2 argv 1 Hge).
Qed.

(** ** Further facts about the display loop of the camera window *)

Lemma draw_confidence_overlay_prefix getTextSize self frame σ :
  σ `prefix_of` (CameraWindow.draw_confidence_overlay getTextSize self frame σ).1.
Proof.
  destruct frame as [f|]; [|simpl; reflexivity].
  destruct (σ !! f) as [a|] eqn:Hf.
  - destruct (shape a) as [|h [|w rest]] eqn:Hs.
    + rewrite (draw_confidence_overlay_flat _ _ _ _ a) by (rewrite ?Hs; simpl; auto).
      now apply prefix_app_r.
    + rewrite (draw_confidence_overlay_flat _ _ _ _ a) by (rewrite ?Hs; simpl; auto).
      now apply prefix_app_r.
    + destruct (draw_confidence_overlay_run getTextSize self _ _ _ _ _ _ Hf Hs)
        as (D & O & -> & _). now apply prefix_app_r.
  - unfold CameraWindow.draw_confidence_overlay, mbind, M_bind, ndarray_copy.
    rewrite Hf. reflexivity.
Qed.

(** What the [try] block of the display loop leaves alone. *)
Lemma window_body_keeps getTextSize env s :
  let out := window_body getTextSize env s in
  CameraWindow.current_detection (win out.1)
    = CameraWindow.current_detection (win s) ∧
  wmem s `prefix_of` wmem out.1 ∧
  (CameraWindow.is_running (win out.1) = CameraWindow.is_running (win s) ∨
   CameraWindow.is_running (win out.1) = false ∧
   Z.land (wenv_key env) 255 = 113%Z ∧ out.2 = Ok tt).
Proof.
  unfold window_body.
  destruct (wenv_camera env) as [[a|]|e]; simpl;
    [|repeat split; auto|repeat split; auto].
  pose proof (draw_confidence_overlay_prefix getTextSize (win s)
                (Some (length (wmem s))) (wmem s ++ [a])) as Hp.
  destruct (CameraWindow.draw_confidence_overlay getTextSize (win s)
              (Some (length (wmem s))) (wmem s ++ [a])) as [σ' [display|e]];
    simpl in *.
  - assert (Hpre : wmem s `prefix_of` σ').
    { etransitivity; [|exact Hp]. now apply prefix_app_r. }
    destruct (wenv_imshow env) as [u|e]; simpl; [|repeat split; auto].
    destruct (Z.eqb_spec (Z.land (wenv_key env) 255) 113) as [Hq|Hq]; simpl.
    + split; [reflexivity|]. split; [exact Hpre|]. right. auto.
    + destruct (Z.eqb (Z.land (wenv_key env) 255) 115); simpl;
        repeat split; auto.
  - split; [reflexivity|]. split; [|now left].
    etransitivity; [|exact Hp]. now apply prefix_app_r.
Qed.

(** ** Rendering when the drawing calls can fail *)

(** One drawing call: it raises, or execution goes on. *)
Ltac guard_step :=
  match goal with
  | |- context [raising (?cv ?n)] =>
      let H := fresh "Hcv" in
      destruct (cv n) as [?e|] eqn:H; unfold raising at 1; cbn beta iota
  end.

Ltac site_in :=
  apply list_elem_of_In; simpl; tauto.

Ltac sites_quiet :=
  let n := fresh "n" in let Hn := fresh "Hn" in
  intros n Hn; apply list_elem_of_In in Hn; simpl in Hn;
  repeat (destruct Hn as [<-|Hn]; [assumption|]); contradiction.

Ltac failed_call :=
  intros [= <- <-]; do 2 eexists; split; [reflexivity|];
  split; [simpl; congruence|];
  right; eexists; split; [reflexivity|]; left; eexists;
  split; [|eassumption]; site_in.

Lemma draw_detection_info64_cases cv σ f a h w rest class_name confidence σ' r :
  σ !! f = Some a → shape a = h :: w :: rest →
  Detection64.draw_detection_info cv (Some f) class_name confidence σ = (σ', r) →
  ∃ D O,
    σ' = σ ++ [D; O] ∧ shape D = shape a ∧
    ((r = Ok (length σ) ∧ (∀ n, n ∈ Detection64.call_sites → cv n = None) ∧
      ∃ z, Binary64.py_int (Binary64.mul (Binary64.of_Z 200) confidence) = Ok z) ∨
     (∃ e, r = Raise e ∧
           ((∃ n, n ∈ Detection64.call_sites ∧ cv n = Some e) ∨
            Binary64.py_int (Binary64.mul (Binary64.of_Z 200) confidence)
              = Raise e))).
Proof.
  intros Hf Hshape.
  unfold Detection64.draw_detection_info.
  unfold mbind, M_bind, mret, M_ret, ndarray_copy at 1. rewrite Hf.
  unfold shape_hw. heap_exec. rewrite Hshape.
  change (take 2 (h :: w :: rest)) with [h; w]. heap_exec.
  unfold ndarray_copy. heap_exec.
  rewrite <- app_assoc, length_app. cbn [app length].
  replace (length σ + 1) with (S (length σ)) by lia.
  unfold cv2_rectangle, cv2_addWeighted, cv2_putText, lift_result.
  guard_step; [failed_call|]. heap_exec.
  guard_step; [failed_call|]. heap_exec.
  guard_step; [failed_call|]. heap_exec.
  guard_step; [failed_call|]. heap_exec.
  guard_step; [failed_call|]. heap_exec.
  guard_step; [failed_call|]. heap_exec.
  destruct (Binary64.py_int _) as [z|e] eqn:Hint.
  2:{ intros [= <- <-]. do 2 eexists. split; [reflexivity|].
      split; [simpl; congruence|]. right. eexists. split; [reflexivity|].
      now right. }
  heap_exec.
  guard_step; [failed_call|]. heap_exec.
  guard_step; [failed_call|]. heap_exec.
  intros [= <- <-]. do 2 eexists. split; [reflexivity|].
  split; [simpl; congruence|]. left. split; [reflexivity|].
  split; [sites_quiet|eauto].
Qed.

Lemma draw_confidence_overlay64_cases cv getTextSize self σ f a h w rest σ' r :
  σ !! f = Some a → shape a = h :: w :: rest →
  Overlay64.draw_confidence_overlay cv getTextSize self (Some f) σ = (σ', r) →
  let bar := Binary64.py_int (Binary64.mul (Binary64.of_Z 300)
                                (Overlay64.displayed_detection self).2) in
  ∃ D O,
    σ' = σ ++ [D; O] ∧ shape D = shape a ∧
    ((r = Ok (length σ) ∧ (∀ n, n ∈ Overlay64.call_sites → cv n = None) ∧
      ∃ z, bar = Ok z) ∨
     (∃ e, r = Raise e ∧
           ((∃ n, n ∈ Overlay64.call_sites ∧ cv n = Some e) ∨ bar = Raise e))).
Proof.
  intros Hf Hshape. cbv zeta.
  destruct (Overlay64.displayed_detection self) as [class_name confidence] eqn:Ed.
  unfold Overlay64.draw_confidence_overlay, Overlay64.draw_confidence_bar,
    Overlay64.draw_frame_info.
  unfold mbind, M_bind, mret, M_ret, ndarray_copy at 1. rewrite Hf, Ed.
  unfold shape_hw. heap_exec. rewrite Hshape.
  change (take 2 (h :: w :: rest)) with [h; w]. heap_exec.
  unfold ndarray_copy. heap_exec.
  rewrite <- app_assoc, length_app. cbn [app length].
  replace (length σ + 1) with (S (length σ)) by lia.
  unfold cv2_rectangle, cv2_addWeighted, cv2_putText, lift_result.
  do 6 (guard_step; [failed_call|]; heap_exec).
  destruct (Binary64.py_int _) as [z|e] eqn:Hint.
  2:{ intros [= <- <-]. do 2 eexists. split; [reflexivity|].
      split; [simpl; congruence|]. right. eexists. split; [reflexivity|].
      now right. }
  heap_exec.
  do 6 (guard_step; [failed_call|]; heap_exec).
  intros [= <- <-]. do 2 eexists. split; [reflexivity|].
  split; [simpl; congruence|]. left. split; [reflexivity|].
  split; [sites_quiet|eauto].
Qed.

Lemma draw_confidence_overlay64_flat cv getTextSize self σ f a :
  σ !! f = Some a → length (shape a) < 2 →
  Overlay64.draw_confidence_overlay cv getTextSize self (Some f) σ
  = (σ ++ [a], Raise ValueError).
Proof.
  intros Hf Hshape.
  unfold Overlay64.draw_confidence_overlay.
  unfold mbind, M_bind, ndarray_copy at 1. rewrite Hf.
  unfold shape_hw. heap_exec.
  destruct (shape a) as [|h [|w rest]]; [reflexivity|reflexivity|].
  simpl in Hshape. lia.
Qed.

Lemma draw_detection_info64_flat cv σ f a class_name confidence :
  σ !! f = Some a → length (shape a) < 2 →
  Detection64.draw_detection_info cv (Some f) class_name confidence σ
  = (σ ++ [a], Raise ValueError).
Proof.
  intros Hf Hshape.
  unfold Detection64.draw_detection_info.
  unfold mbind, M_bind, ndarray_copy at 1. rewrite Hf.
  unfold shape_hw. heap_exec.
  destruct (shape a) as [|h [|w rest]]; [reflexivity|reflexivity|].
  simpl in Hshape. lia.
Qed.

Lemma py_int_nan z : Binary64.py_int (Binary64.mul (Binary64.of_Z z) Binary64.nan) = Raise ValueError.
Proof. unfold Binary64.mul, SpecFloat.SFmul. destruct (Binary64.of_Z z); reflexivity. Qed.

(** ** The handlers of the loops *)

(** The running flag is cleared by the quit key only, and then the
    second half of the iteration completes. *)
Lemma display_step_running env frame s :
  let out := display_step env frame s in
  is_running (ctrl out.1) = is_running (ctrl s) ∨
  (is_running (ctrl out.1) = false ∧ Z.land (env_key env) 255 = 113%Z ∧
   out.2 = Ok tt).
Proof.
  cbv zeta. unfold display_step, mbind, L_bind.
  rewrite get_smoothed_detection_eq. cbn [fst snd].
  assert (Hsame : with_ctrl s (ctrl s) = s) by (now destruct s).
  rewrite Hsame.
  destruct (smooth_of_recent _) as [d|e]; [|now left].
  unfold on_heap.
  set (m := if Qle_bool (confidence_threshold (ctrl s)) d.2
            then draw_detection_info frame d.1 d.2
            else draw_detection_info frame "No detection" 0.0%Q).
  destruct (m (mem s)) as [σ [frame'|e]]; simpl; [|now left].
  unfold on_result, modify.
  destruct (env_imshow env) as [u|e]; simpl; [|now left].
  destruct (Z.eqb_spec (Z.land (env_key env) 255) 113) as [Hq|Hq]; simpl.
  - right. auto.
  - destruct (Z.eqb (Z.land (env_key env) 255) 115); simpl; [|now left].
    destruct (env_imwrite env); simpl; now left.
Qed.

Lemma tick_body_running env s :
  let out := tick_body env s in
  is_running (ctrl out.1) = is_running (ctrl s) ∨
  (is_running (ctrl out.1) = false ∧ Z.land (env_key env) 255 = 113%Z ∧
   out.2 = Ok tt).
Proof.
  pose proof (tick_body_cases env s) as Hc. cbv zeta.
  destruct (env_camera env) as [[a|]|e];
    [|rewrite Hc; now left|rewrite Hc; now left].
  cbv zeta in Hc. rewrite Hc. clear Hc.
  set (s1 := with_mem s (mem s ++ [a])).
  set (frame := Some (length (mem s))).
  destruct (inference_due env s).
  - pose proof (inference_step_spec env (env_time env) s1) as Hi.
    cbv zeta in Hi. destruct Hi as (_ & Hrun & _).
    destruct (inference_step env (env_time env) s1) as [s2 [u|e]]; simpl in *.
    + pose proof (display_step_running env frame s2) as Hd. cbv zeta in Hd.
      rewrite Hrun in Hd. exact Hd.
    + now left.
  - exact (display_step_running env frame s1).
Qed.

Section HandlerFacts.
Context {S : Type} (stop : S → S).

(** With handlers in which nothing fails. *)
Lemma handlers_quiet (out : S * result unit) :
  handlers stop quiet out =
  match out with
  | (s, Ok _) => (s, None)
  | (s, Raise KeyboardInterrupt) => (stop s, None)
  | (s, Raise e) => if is_Exception e then (s, None) else (s, Some e)
  end.
Proof. destruct out as [s [u|e]]; [reflexivity|]. destruct e; reflexivity. Qed.

(** An exception of class [Exception] is caught; the loop goes on when
    the handler completes. *)
Lemma handlers_caught h s e :
  is_Exception e = true →
  handlers stop h (s, Raise e) =
  match env_print h with
  | Ok _ => match env_sleep h with
            | Ok _ => (s, None)
            | Raise e' => (s, Some e')
            end
  | Raise e' => (s, Some e')
  end.
Proof. intros He. destruct e; try discriminate; reflexivity. Qed.

(** The state after the handlers: that of the [try] block, with the
    running flag cleared after a [KeyboardInterrupt] whose handler got
    past its [print]. *)
Lemma handlers_state h (out : S * result unit) :
  (handlers stop h out).1 = out.1 ∨
  ((handlers stop h out).1 = stop out.1 ∧ out.2 = Raise KeyboardInterrupt ∧
   (∃ u, env_print h = Ok u) ∧ (handlers stop h out).2 = None).
Proof.
  destruct out as [s [u|e]]; [now left|].
  destruct e; simpl; try (now left);
    destruct (env_print h) as [u|e']; simpl; try (now left);
    try (destruct (env_sleep h); now left).
  right. eauto.
Qed.

(** Where an escaping exception comes from. *)
Lemma handlers_escape h (out : S * result unit) e :
  (handlers stop h out).2 = Some e →
  (out.2 = Raise e ∧ is_Exception e = false ∧ e ≠ KeyboardInterrupt) ∨
  (∃ e0, out.2 = Raise e0 ∧ (is_Exception e0 = true ∨ e0 = KeyboardInterrupt) ∧
         (env_print h = Raise e ∨ env_sleep h = Raise e)).
Proof.
  destruct out as [s [u|e0]]; simpl; [discriminate|].
  assert (Hcaught : (is_Exception e0 = true ∨ e0 = KeyboardInterrupt) →
            (match env_print h with
             | Ok _ => match env_sleep h with
                       | Ok _ => (s, None)
                       | Raise e' => (s, Some e')
                       end
             | Raise e' => (s, Some e')
             end).2 = Some e ∨
            (match env_print h with
             | Ok _ => (stop s, None)
             | Raise e' => (s, Some e')
             end).2 = Some e →
            ∃ e1, Raise (A:=unit) e0 = Raise e1 ∧
                  (is_Exception e1 = true ∨ e1 = KeyboardInterrupt) ∧
                  (env_print h = Raise e ∨ env_sleep h = Raise e)).
  { intros He0 H. exists e0. split; [reflexivity|]. split; [exact He0|].
    destruct (env_print h) as [u|e']; simpl in H.
    - destruct (env_sleep h) as [u'|e'']; simpl in H.
      + destruct H; discriminate.
      + destruct H as [[= <-]|H]; [now right|discriminate].
    - destruct H as [[= <-]|[= <-]]; now left. }
  destruct e0; simpl; intros H;
    first [ right; apply Hcaught; [first [now left|now right]|];
            first [now left|now right]
          | injection H as <-; left; split; [reflexivity|];
            split; [reflexivity|discriminate] ].
Qed.
End HandlerFacts.

Lemma handler_exceptions_elem h e :
  e ∈ handler_exceptions h ↔ env_print h = Raise e ∨ env_sleep h = Raise e.
Proof.
  unfold handler_exceptions. rewrite elem_of_app.
  assert (H : ∀ A (r : result A), e ∈ raised_of r ↔ r = Raise e).
  { intros A [a|e']; simpl.
    - split; [intros H; now apply elem_of_nil in H|discriminate].
    - rewrite list_elem_of_singleton. split; congruence. }
  rewrite !H. reflexivity.
Qed.

Lemma tick_handled_quiet env s : tick_handled quiet env s = tick env s.
Proof.
  unfold tick_handled, tick. rewrite handlers_quiet.
  destruct (tick_body env s) as [s' [u|e]]; reflexivity.
Qed.

Lemma iterate_handled_quiet envs : ∀ s,
  iterate_handled ((λ env, (quiet, env)) <$> envs) s = iterate envs s.
Proof.
  induction envs as [|env envs IH]; intros s; [reflexivity|].
  simpl. rewrite tick_handled_quiet.
  destruct (is_running (ctrl s)); [|reflexivity].
  destruct (tick env s) as [s' [e|]]; [reflexivity|apply IH].
Qed.

Lemma window_tick_handled_quiet getTextSize env s :
  window_tick_handled getTextSize quiet env s = window_tick getTextSize env s.
Proof.
  unfold window_tick_handled, window_tick. rewrite handlers_quiet.
  destruct (window_body getTextSize env s) as [s' [u|e]]; reflexivity.
Qed.

(** The handlers of the detection loop touch the running flag only. *)
Lemma tick_handled_fields h env s :
  let body := tick_body env s in
  let out := tick_handled h env s in
  detection_history (ctrl out.1) = detection_history (ctrl body.1) ∧
  max_history (ctrl out.1) = max_history (ctrl body.1) ∧
  confidence_threshold (ctrl out.1) = confidence_threshold (ctrl body.1) ∧
  last_detection_time out.1 = last_detection_time body.1 ∧
  predict_calls out.1 = predict_calls body.1 ∧
  mem out.1 = mem body.1 ∧
  (is_running (ctrl out.1) = is_running (ctrl body.1) ∨
   is_running (ctrl out.1) = false ∧ body.2 = Raise KeyboardInterrupt ∧
   env_print h = Ok tt).
Proof.
  cbv zeta. unfold tick_handled.
  destruct (handlers_state stop_loop
              h (tick_body env s)) as [->|(-> & Hki & [u Hp] & _)].
  - repeat split; auto.
  - destruct u. simpl. repeat split; auto.
Qed.

(** An exception that leaves an iteration of the detection loop comes
    from the outside world. *)
Lemma tick_handled_escape h env s e :
  (tick_handled h env s).2 = Some e →
  (e ∈ env_exceptions env ∧ is_Exception e = false ∧ e ≠ KeyboardInterrupt) ∨
  e ∈ handler_exceptions h.
Proof.
  intros Hesc. unfold tick_handled in Hesc.
  apply handlers_escape in Hesc.
  destruct Hesc as [(Hb & He & Hk)|(e0 & _ & _ & Hh)].
  - left. split; [|auto].
    pose proof (tick_body_spec env s) as Hs. cbv zeta in Hs.
    destruct Hs as (_ & Hexn & _).
    destruct (Hexn e Hb) as [H|H]; [congruence|exact H].
  - right. now apply handler_exceptions_elem.
Qed.

(** ** The classifier as shipped *)

Lemma load_global_cv2 : Shipped.load_global "cv2" = Raise Shipped.NameError.
Proof. vm_compute. reflexivity. Qed.

(** Preprocessing never completes: it fails in the lookup of the input
    shape, or in one of the two subscripts, or at the name [cv2]. *)
Lemma preprocess_image_fails env :
  ∃ e, Shipped.preprocess_image env = Raise e ∧
       (Shipped.env_input_shape env = Raise e ∨ is_Exception e = true).
Proof.
  unfold Shipped.preprocess_image, mbind, result_bind, rbind.
  destruct (Shipped.env_input_shape env) as [input_shape|e]; [|eauto].
  unfold py_index.
  destruct (input_shape !! 1); [|eauto].
  destruct (input_shape !! 2); [|eauto].
  rewrite load_global_cv2. eauto.
Qed.

(** ** Properties of the smoothing engine and of the history buffer *)

(** The claim fails as stated: the floats 0.9 and 0.8 add up to
    1.7000000000000002, and half of that is 0.8500000000000001, which is
    not the float 0.85; [==] between the two is false, with the [sum] of
    either generation of the interpreter. *)
Lemma C1_float_mean_counterexample :
  let c := Controller64.set_history scenario_ctrl64 scenario_samples64 in
  let now := Binary64.decimal 10 1 in
  (Controller64.get_smoothed_detection false c now).2
    ≠ Ok ("A", Binary64.decimal 85 2) ∧
  (Controller64.get_smoothed_detection true c now).2
    ≠ Ok ("A", Binary64.decimal 85 2) ∧
  (∃ q, (Controller64.get_smoothed_detection false c now).2 = Ok ("A", q) ∧
        Binary64.eqb q (Binary64.decimal 85 2) = false).
Proof.
  split; [vm_compute; discriminate|]. split; [vm_compute; discriminate|].
  exists (SpecFloat.S754_finite false 0x1b333333333334 (-53)).
  split; vm_compute; reflexivity.
Qed.

(** C1 (amended). With capacity 3, after appending (A, 0.9) at t=0,
    (A, 0.8) at t=0.5 and (B, 0.95) at t=1.0, the history holds exactly
    these three samples, and smoothing at now=1.0 returns label A (2 votes
    against 1 for B) with the binary64 value of (0.9 + 0.8) / 2 as
    confidence: 0.8500000000000001, that is 0x1.b333333333334p-1, the
    float that follows 0.85 = 0x1.b333333333333p-1.  This holds for the
    [sum] of CPython up to 3.11 and for the compensated [sum] of later
    versions. *)
Theorem C1_scenario_majority_mean (compensated : bool) :
  ∃ c q,
    Controller64.run_appends scenario_ctrl64 scenario_samples64 = Ok c ∧
    Controller64.detection_history c = scenario_samples64 ∧
    Controller64.count_classes
      (Controller64.recent_detections (Controller64.detection_history c)
         (Binary64.decimal 10 1)) = [("A", 2); ("B", 1)] ∧
    Controller64.get_smoothed_detection compensated c (Binary64.decimal 10 1)
      = (c, Ok ("A", q)) ∧
    q = Binary64.div (Binary64.add (Binary64.decimal 9 1) (Binary64.decimal 8 1))
          (Binary64.of_Z 2) ∧
    q = SpecFloat.S754_finite false 0x1b333333333334 (-53) ∧
    Binary64.decimal 85 2 = SpecFloat.S754_finite false 0x1b333333333333 (-53) ∧
    q = SpecFloat.SFsucc Binary64.prec Binary64.emax (Binary64.decimal 85 2).
Proof.
  exists (Controller64.set_history scenario_ctrl64 scenario_samples64),
         (SpecFloat.S754_finite false 0x1b333333333334 (-53)).
  split; [vm_compute; reflexivity|].
  split; [vm_compute; reflexivity|]. split; [vm_compute; reflexivity|].
  split; [destruct compensated; vm_compute; reflexivity|].
  repeat split; vm_compute; reflexivity.
Qed.

(** The floats that the literals of the scenario denote, as
    [float.hex] prints them. *)
Example scenario_literals :
  Binary64.decimal 9 1 = SpecFloat.S754_finite false 0x1ccccccccccccd (-53) ∧
  Binary64.decimal 8 1 = SpecFloat.S754_finite false 0x1999999999999a (-53) ∧
  Binary64.decimal 95 2 = SpecFloat.S754_finite false 0x1e666666666666 (-53) ∧
  Binary64.decimal 5 1 = SpecFloat.S754_finite false 0x10000000000000 (-53) ∧
  Binary64.decimal 10 1 = SpecFloat.S754_finite false 0x10000000000000 (-52) ∧
  Binary64.decimal 20 1 = SpecFloat.S754_finite false 0x10000000000000 (-51) ∧
  Binary64.add (Binary64.decimal 9 1) (Binary64.decimal 8 1)
    = SpecFloat.S754_finite false 0x1b333333333334 (-52).
Proof. repeat split; vm_compute; reflexivity. Qed.

(** C2. Whenever some label [a] has the highest number of samples in the
    trailing window, smoothing returns a label [r] with that same number
    of samples, and [r] owns an in-window sample [s] such that every
    in-window sample inserted before [s] bears a label with strictly fewer
    votes: of the labels tied for the highest count, [r] is the one whose
    first in-window sample was inserted earliest. *)
Theorem C2_tie_break_earliest (self : Controller.t) (now : Q) (a : string) :
  let recent := recent_detections (detection_history self) now in
  0 < votes recent a →
  (∀ c, votes recent c ≤ votes recent a) →
  ∃ r conf h1 s h2,
    get_smoothed_detection self now = (self, Ok (r, conf)) ∧
    votes recent r = votes recent a ∧
    detection_history self = h1 ++ s :: h2 ∧
    sample_name s = r ∧ in_window now s = true ∧
    ∀ s', s' ∈ h1 → in_window now s' = true →
          votes recent (sample_name s') < votes recent r.
Proof.
  intros recent Hpos Hmax.
  assert (Hne : recent ≠ []).
  { intros E. rewrite E in Hpos. unfold votes in Hpos. simpl in Hpos. lia. }
  destruct (majority_first recent Hne) as (r & Hr & Hrmax & pre & q & post & Hsplit & Hpre).
  destruct (smooth_of_recent_majority recent Hne) as (r' & Hr' & Hsm).
  assert (r' = r) by congruence. subst r'.
  destruct (recent_detections_split _ _ _ _ _ Hsplit)
    as (h1 & s & h2 & Hh & Hw & Hx & H1 & H2).
  exists r, (py_sum (class_confidences recent r)
             / inject_Z (Z.of_nat (votes recent r)))%Q, h1, s, h2.
  split; [rewrite get_smoothed_detection_eq; now f_equal|].
  split; [specialize (Hmax r); specialize (Hrmax a); lia|].
  split; [exact Hh|].
  split; [now inversion Hx|]. split; [exact Hw|].
  intros s' Hs' Hw'. apply Hpre. rewrite <- H1.
  rewrite recent_detections_filter. rewrite <- list_fmap_compose.
  apply list_elem_of_fmap. exists s'. split; [reflexivity|].
  apply list_elem_of_In, filter_In. split; [now apply list_elem_of_In|exact Hw'].
Qed.

Lemma C2_tie_break_earliest_witness :
  let self := set_history scenario_ctrl [("A", 0.9%Q, 0%Q); ("B", 0.8%Q, 0.5%Q)] in
  ∃ r conf h1 s h2,
    get_smoothed_detection self 1%Q = (self, Ok (r, conf)) ∧
    votes (recent_detections (detection_history self) 1%Q) r =
    votes (recent_detections (detection_history self) 1%Q) "B" ∧
    detection_history self = h1 ++ s :: h2 ∧
    sample_name s = r ∧ in_window 1%Q s = true ∧
    ∀ s', s' ∈ h1 → in_window 1%Q s' = true →
          votes (recent_detections (detection_history self) 1%Q) (sample_name s') <
          votes (recent_detections (detection_history self) 1%Q) r.
Proof.
  intros self.
  apply (C2_tie_break_earliest self 1%Q "B").
  - vm_compute. lia.
  - intros c. change (recent_detections (detection_history self) 1%Q)
      with [("A", 0.9%Q); ("B", 0.8%Q)].
    rewrite !votes_cons.
    destruct (String.eqb "A" c) eqn:EA, (String.eqb "B" c) eqn:EB;
      unfold votes; simpl; try lia.
    apply String.eqb_eq in EA, EB. congruence.
Defined.

(** The stability test of the specification: equal counts of A and B
    give the label that was inserted first. *)
Example tie_A_then_B :
  (get_smoothed_detection
     (set_history scenario_ctrl [("A", 0.9%Q, 0%Q); ("B", 0.8%Q, 0.5%Q)]) 1%Q).2
  = Ok ("A", 0.9%Q).
Proof. reflexivity. Qed.

(** Samples that have left the window take no part in the tie-break: B
    was inserted first, but its first sample inside the window comes
    after that of A. *)
Example tie_ignores_expired_samples :
  (get_smoothed_detection
     (set_history scenario_ctrl
        [("B", 0.8%Q, 0%Q); ("A", 0.9%Q, 5.0%Q); ("B", 0.7%Q, 6.0%Q)]) 6.5%Q).2
  = Ok ("A", 0.9%Q).
Proof. reflexivity. Qed.

Example tie_B_then_A :
  (get_smoothed_detection
     (set_history scenario_ctrl [("B", 0.8%Q, 0%Q); ("A", 0.9%Q, 0.5%Q)]) 1%Q).2
  = Ok ("B", 0.8%Q).
Proof. reflexivity. Qed.

(** The claim with the inclusive boundary of the specification text
    fails: a sample that is exactly 2.0 seconds old is not aggregated. *)
Lemma C3_boundary_counterexample :
  recent_detections [("A", 0.9%Q, 0%Q)] 2.0%Q
  ≠ name_conf <$> snapshot_within 2.0%Q 2.0%Q [("A", 0.9%Q, 0%Q)].
Proof. vm_compute. discriminate. Qed.

(** C3 (amended). The samples that smoothing aggregates over are exactly
    those with [observed_at > now - 2.0] (a sample exactly 2.0 seconds old
    is left out), in their original relative order; the result is a
    function of these samples only, and the controller, with its
    history, is left as it was. *)
Theorem C3_window_strict (self : Controller.t) (now : Q) :
  recent_detections (detection_history self) now =
    name_conf <$>
      List.filter (λ s, Qlt_bool (now - 2.0) (observed_at s))
                  (detection_history self) ∧
  (∀ s, s ∈ detection_history self → (observed_at s == now - 2.0)%Q →
        name_conf s ∉ recent_detections [s] now) ∧
  (get_smoothed_detection self now).2 =
    smooth_of_recent (recent_detections (detection_history self) now) ∧
  (get_smoothed_detection self now).1 = self.
Proof.
  split; [|split; [|split]].
  - rewrite recent_detections_filter. f_equal.
    induction (detection_history self) as [|s h IH]; [reflexivity|].
    simpl. rewrite IH.
    replace (Qlt_bool (now - 2.0) (observed_at s)) with (in_window now s);
      [reflexivity|].
    unfold in_window.
    destruct (Qlt_bool (now - 2.0) (observed_at s)) eqn:E.
    + apply Qlt_bool_iff. apply Qlt_bool_iff in E. lra.
    + apply Qlt_bool_false_iff. apply Qlt_bool_false_iff in E. lra.
  - intros s _ Hs. rewrite recent_detections_cons.
    replace (in_window now s) with false; [apply not_elem_of_nil|].
    symmetry. apply Qlt_bool_false_iff. lra.
  - now rewrite get_smoothed_detection_eq.
  - now rewrite get_smoothed_detection_eq.
Qed.

Lemma C3_window_strict_witness :
  name_conf ("A", 0.9%Q, 0%Q) ∉ recent_detections [("A", 0.9%Q, 0%Q)] 2.0%Q.
Proof.
  apply (proj1 (proj2 (C3_window_strict
                         (set_history scenario_ctrl [("A", 0.9%Q, 0%Q)]) 2.0%Q))).
  - simpl. now left.
  - reflexivity.
Defined.

(** C4. When no sample of the history lies in the trailing window, which
    covers the empty history, smoothing returns ("No detection", 0.0). *)
Theorem C4_empty_window_no_detection (self : Controller.t) (now : Q) :
  (∀ s, s ∈ detection_history self → in_window now s = false) →
  get_smoothed_detection self now = (self, Ok ("No detection", 0.0%Q)).
Proof.
  intros H. rewrite get_smoothed_detection_eq.
  apply recent_detections_nil in H. now rewrite H.
Qed.

Lemma C4_empty_window_no_detection_witness :
  get_smoothed_detection (set_history scenario_ctrl [("A", 0.9%Q, 0%Q)]) 5.0%Q
  = (set_history scenario_ctrl [("A", 0.9%Q, 0%Q)], Ok ("No detection", 0.0%Q)).
Proof.
  apply (C4_empty_window_no_detection
           (set_history scenario_ctrl [("A", 0.9%Q, 0%Q)]) 5.0%Q).
  intros s Hs. simpl in Hs. apply list_elem_of_singleton in Hs. subst s.
  vm_compute. reflexivity.
Defined.

(** The same for the window of the specification text: a history with
    no sample at or after [now - 2.0] smooths to "No detection". *)
Lemma no_detection_spec_window (self : Controller.t) (now : Q) :
  snapshot_within 2.0 now (detection_history self) = [] →
  get_smoothed_detection self now = (self, Ok ("No detection", 0.0%Q)).
Proof.
  intros H. rewrite get_smoothed_detection_eq.
  replace (recent_detections (detection_history self) now) with (@nil (string * Q));
    [reflexivity|].
  symmetry. apply recent_detections_nil. intros s Hs.
  destruct (in_window now s) eqn:E; [|reflexivity]. exfalso.
  assert (Hin : s ∈ snapshot_within 2.0 now (detection_history self)).
  { apply list_elem_of_In, filter_In. split; [now apply list_elem_of_In|].
    apply Qle_bool_iff. apply Qlt_bool_iff in E. lra. }
  rewrite H in Hin. now apply elem_of_nil in Hin.
Qed.

(** C5. Starting from an empty history, after any sequence of appends the
    history is exactly the last [max_history] appended samples in their
    order of insertion, hence never longer than the capacity (10 by
    default); an append to a full history drops the oldest sample and
    only that one. *)
Theorem C5_history_bounded_fifo (self0 : Controller.t) (inputs : list sample) :
  max_history init = 10 ∧
  ∃ c,
    run_appends (set_history self0 []) inputs = Ok c ∧
    max_history c = max_history self0 ∧
    length (detection_history c) ≤ max_history self0 ∧
    detection_history c = drop (length inputs - max_history self0) inputs ∧
    ∀ class_name confidence now,
      update_detection_history c class_name confidence now =
      Ok (set_history c
            (if Nat.leb (max_history c) (length (detection_history c))
             then tail (detection_history c ++ [(class_name, confidence, now)])
             else detection_history c ++ [(class_name, confidence, now)])).
Proof.
  split; [reflexivity|].
  destruct (run_appends_suffix inputs (set_history self0 [])) as (c & Hrun & Hc & Hh).
  { simpl. lia. }
  simpl in Hh.
  assert (Hmax : max_history c = max_history self0) by (now rewrite Hc).
  exists c. split; [exact Hrun|]. split; [exact Hmax|].
  split; [rewrite Hh, length_drop; lia|]. split; [exact Hh|].
  intros n q t. rewrite update_detection_history_eq. cbv zeta.
  rewrite length_app. simpl length.
  replace (Nat.ltb (max_history c) (length (detection_history c) + 1))
    with (Nat.leb (max_history c) (length (detection_history c))); [reflexivity|].
  destruct (Nat.leb_spec (max_history c) (length (detection_history c))),
           (Nat.ltb_spec (max_history c) (length (detection_history c) + 1));
    try reflexivity; lia.
Qed.

(** ** Properties of the overlay renderer and of the camera window *)

(** C6. For every frame object passed to either renderer, whatever the
    detection, every object of the heap, the input frame among them, is
    found unchanged after the call, and the frame that is returned is an
    object that did not exist before: drawing happens on a new copy. *)
Theorem C6_render_keeps_input_frame
    (getTextSize : font_metrics) (self : CameraWindow.t) (σ : heap) (f : ref)
    (a : ndarray) (class_name : string) (confidence : Q) :
  σ !! f = Some a →
  let overlay := CameraWindow.draw_confidence_overlay getTextSize self (Some f) σ in
  let info := draw_detection_info (Some f) class_name confidence σ in
  overlay.1 !! f = Some a ∧ info.1 !! f = Some a ∧
  keeps_heap σ overlay ∧ keeps_heap σ info ∧
  (∀ r, overlay.2 = Ok r → r ≠ f) ∧ (∀ r, info.2 = Ok r → r ≠ f).
Proof.
  intros Hf overlay info.
  assert (Ho : keeps_heap σ overlay)
    by (apply draw_confidence_overlay_keeps; eauto).
  assert (Hi : keeps_heap σ info)
    by (apply draw_detection_info_keeps; eauto).
  split; [now apply Ho|]. split; [now apply Hi|].
  split; [exact Ho|]. split; [exact Hi|]. split.
  - intros r Hr ->. apply Ho in Hr. destruct Hr as [Hr _]. congruence.
  - intros r Hr ->. apply Hi in Hr. destruct Hr as [Hr _]. congruence.
Qed.

Lemma C6_render_keeps_input_frame_witness :
  let σ := [vga_frame] in
  let overlay :=
    CameraWindow.draw_confidence_overlay no_metrics
      (CameraWindow.update_detection (CameraWindow.init 640 480 30) "cat" 0.9%Q)
      (Some 0) σ in
  let info := draw_detection_info (Some 0) "cat" 0.9%Q σ in
  overlay.1 !! 0 = Some vga_frame ∧ info.1 !! 0 = Some vga_frame ∧
  keeps_heap σ overlay ∧ keeps_heap σ info ∧
  (∀ r, overlay.2 = Ok r → r ≠ 0) ∧ (∀ r, info.2 = Ok r → r ≠ 0).
Proof.
  apply (C6_render_keeps_input_frame no_metrics _ [vga_frame] 0 vga_frame
           "cat" 0.9%Q).
  reflexivity.
Defined.

(** The claim fails as stated.  With a null frame the renderer raises
    [AttributeError], the exception of the attribute lookup [frame.copy];
    the code has no error of its own for a frame.  And a frame that is
    neither null nor empty does not make it succeed: with 640 x 480
    pixels and a stored confidence that is not a number, [int()] raises
    [ValueError] in the confidence bar, even if no drawing call fails. *)
Lemma C7_invalid_frame_counterexample :
  let w := Overlay64.init 640 480 30 in
  Overlay64.draw_confidence_overlay no_failure no_metrics w None []
    = ([], Raise AttributeError) ∧
  shape vga_frame = [480; 640; 3]%Z ∧
  (Overlay64.draw_confidence_overlay no_failure no_metrics
     (Overlay64.update_detection w "cat" Binary64.nan) (Some 0) [vga_frame]).2
    = Raise ValueError.
Proof. split; [reflexivity|]. split; [reflexivity|]. vm_compute. reflexivity. Qed.

(** C7 (amended). The overlay renderer does not examine its frame and
    has no error of its own.  A null frame makes it raise
    [AttributeError] before anything is allocated; an array with fewer
    than two dimensions makes it raise [ValueError] when the shape is
    unpacked.  With an array of at least two dimensions it returns a
    frame of the same shape if none of its drawing calls raises and
    [int()] accepts 300 times the stored confidence; if it raises, the
    exception is that of the drawing call that failed, or that of
    [int()]; and it does raise, whatever the drawing calls do, when the
    stored confidence is not a number.  An exception of class
    [Exception] that reaches the display loop is caught there: the loop
    goes on with its state as it was, once [print] and [time.sleep] in
    the handler have returned. *)
Theorem C7_render_failure_modes
    (cv : cv2_outcomes) (getTextSize : font_metrics) (self : Overlay64.t)
    (σ : heap) (f : ref) (a : ndarray) :
  σ !! f = Some a →
  let render := Overlay64.draw_confidence_overlay cv getTextSize self in
  let confidence := (Overlay64.displayed_detection self).2 in
  let bar := Binary64.py_int (Binary64.mul (Binary64.of_Z 300) confidence) in
  render None σ = (σ, Raise AttributeError) ∧
  (length (shape a) < 2 → render (Some f) σ = (σ ++ [a], Raise ValueError)) ∧
  (2 ≤ length (shape a) →
   ((∀ n, n ∈ Overlay64.call_sites → cv n = None) → (∃ z, bar = Ok z) →
    ∃ D O, render (Some f) σ = (σ ++ [D; O], Ok (length σ)) ∧
           shape D = shape a) ∧
   (∀ e, (render (Some f) σ).2 = Raise e →
         (∃ n, n ∈ Overlay64.call_sites ∧ cv n = Some e) ∨ bar = Raise e) ∧
   (confidence = Binary64.nan → ∃ e, (render (Some f) σ).2 = Raise e)) ∧
  (∀ (h : handler_env) (s : window_state) e,
     is_Exception e = true → env_print h = Ok tt → env_sleep h = Ok tt →
     handlers stop_window h (s, Raise e) = (s, None)).
Proof.
  intros Hf. cbv zeta. split; [reflexivity|].
  split; [intros Hdim; now apply draw_confidence_overlay64_flat|].
  split.
  - intros Hdim. destruct (shape a) as [|hh [|w rest]] eqn:Hs;
      [simpl in Hdim; lia|simpl in Hdim; lia|].
    destruct (Overlay64.draw_confidence_overlay cv getTextSize self (Some f) σ)
      as [σ' r] eqn:Hrun.
    destruct (draw_confidence_overlay64_cases _ _ _ _ _ _ _ _ _ _ _ Hf Hs Hrun)
      as (D & O & -> & HD & Hcases). cbv zeta in Hcases. cbn [fst snd].
    split; [|split].
    + intros Hquiet [z Hz]. exists D, O.
      destruct Hcases as [(-> & _)|(e & -> & [(n & Hn & Hcv)|Hbar])].
      * split; [reflexivity|congruence].
      * rewrite (Hquiet n Hn) in Hcv. discriminate.
      * congruence.
    + intros e ->. destruct Hcases as [(Hr & _)|(e' & Hr & Hwhy)];
        [discriminate|]. injection Hr as <-. exact Hwhy.
    + intros Hnan. destruct Hcases as [(_ & _ & z & Hz)|(e & -> & _)]; [|eauto].
      rewrite Hnan, py_int_nan in Hz. discriminate.
  - intros h s e He Hp Hsl. rewrite handlers_caught by exact He.
    now rewrite Hp, Hsl.
Qed.

Lemma C7_render_failure_modes_witness :
  ∃ D O, Overlay64.draw_confidence_overlay no_failure no_metrics
           (Overlay64.update_detection (Overlay64.init 640 480 30) "cat"
              (Binary64.decimal 9 1)) (Some 0) [vga_frame]
         = ([vga_frame] ++ [D; O], Ok 1) ∧ shape D = shape vga_frame.
Proof.
  refine (proj1 (proj1 (proj2 (proj2
    (C7_render_failure_modes no_failure no_metrics
       (Overlay64.update_detection (Overlay64.init 640 480 30) "cat"
          (Binary64.decimal 9 1)) [vga_frame] 0 vga_frame _))) _) _ _).
  - reflexivity.
  - simpl. lia.
  - intros n _. reflexivity.
  - eexists. vm_compute. reflexivity.
Defined.

(** C10. Once [update_detection] has been called on a camera window,
    every later call of [get_current_detection] raises [AttributeError]
    (the stored object is a tuple, which has no [copy] method), whatever
    was called in between; [None] is returned exactly when no detection
    is stored, which is the case as long as [update_detection] was never
    called. *)
Theorem C10_get_current_detection_raises :
  (∀ w before class_name confidence after,
     CameraWindow.get_current_detection
       (do_calls (CameraWindow.update_detection (do_calls w before)
                    class_name confidence) after)
     = Raise AttributeError) ∧
  (∀ w, CameraWindow.get_current_detection w = Ok PyNone ↔
        CameraWindow.current_detection w = None) ∧
  (∀ w, CameraWindow.get_current_detection w = Ok PyNone ∨
        CameraWindow.get_current_detection w = Raise AttributeError) ∧
  (∀ width height fps calls,
     forallb (λ c, negb (is_update c)) calls = true →
     CameraWindow.get_current_detection
       (do_calls (CameraWindow.init width height fps) calls) = Ok PyNone).
Proof.
  split; [|split; [|split]].
  - intros w before n q after.
    apply get_current_detection_stored with (d := last_update after (n, q)).
    apply do_calls_stored. reflexivity.
  - intros w. unfold CameraWindow.get_current_detection.
    destruct (CameraWindow.current_detection w) as [[n q]|]; simpl.
    + split; discriminate.
    + split; reflexivity.
  - intros w. unfold CameraWindow.get_current_detection.
    destruct (CameraWindow.current_detection w) as [[n q]|]; simpl; auto.
  - intros width height fps calls Hcalls.
    unfold CameraWindow.get_current_detection.
    rewrite do_calls_no_update by exact Hcalls. reflexivity.
Qed.

Lemma C10_get_current_detection_raises_witness :
  CameraWindow.get_current_detection
    (do_calls (CameraWindow.init 640 480 30) [Call_set_running true]) = Ok PyNone.
Proof.
  apply (proj2 (proj2 (proj2 C10_get_current_detection_raises)) 640%Z 480%Z 30%Z
           [Call_set_running true]).
  reflexivity.
Defined.

(** ** Properties of the detection loop *)

(** The claim fails as stated.  A failure of the frame source is not
    fatal: the iteration is abandoned and the loop is still running.  And
    a failure inside the classifier does contribute an update: [predict]
    turns it into the sample ("Error", 0.0), which enters the history. *)
Lemma C8_frame_source_counterexample :
  let s := loop_entry idle_state in
  is_running (ctrl s) = true ∧
  tick_handled quiet camera_failure_env s = (s, None) ∧
  is_running (ctrl (tick_handled quiet camera_failure_env s).1) = true ∧
  detection_history (ctrl s) = [] ∧
  detection_history (ctrl (tick_handled quiet inference_failure_env s).1)
    = [("Error", 0.0%Q, 1000%Q)].
Proof. vm_compute. repeat split. Qed.

(** C8 (amended). While the loop is running, an exception of class
    [Exception] raised during an iteration is caught, whether it comes
    from the classifier, the renderer, the display or the frame source:
    the running flag stays set, and the loop goes on with the state the
    iteration had reached once [print] and [time.sleep] in the handler
    have returned.  A failing frame source in particular is not fatal:
    the [try] block has changed nothing when it fails.  The running flag
    is cleared only by the quit key, read in an iteration that completes,
    or by the handler of a [KeyboardInterrupt] raised in the iteration.
    An exception leaves the loop only if it was raised in the iteration
    and is neither of class [Exception] nor a [KeyboardInterrupt], or if
    [print] or [time.sleep] raised it inside a handler.  A failure inside
    the classifier is turned by [predict] into the sample ("Error", 0.0),
    which is appended to the history like any other, and the time of the
    last inference is updated. *)
Theorem C8_exceptions_do_not_stop_loop
    (h : handler_env) (env : tick_env) (s : loop_state) :
  is_running (ctrl s) = true →
  let body := tick_body env s in
  let out := tick_handled h env s in
  (∀ e, body.2 = Raise e → is_Exception e = true →
        is_running (ctrl body.1) = true ∧
        (env_print h = Ok tt → env_sleep h = Ok tt → out = (body.1, None))) ∧
  (∀ e, env_camera env = Raise e → body = (s, Raise e)) ∧
  (is_running (ctrl out.1) = false →
     (body.2 = Ok tt ∧ Z.land (env_key env) 255 = 113%Z) ∨
     (body.2 = Raise KeyboardInterrupt ∧ env_print h = Ok tt)) ∧
  (∀ e, out.2 = Some e →
     (body.2 = Raise e ∧ is_Exception e = false ∧ e ≠ KeyboardInterrupt) ∨
     (∃ e0, body.2 = Raise e0 ∧
            (is_Exception e0 = true ∨ e0 = KeyboardInterrupt) ∧
            (env_print h = Raise e ∨ env_sleep h = Raise e))) ∧
  (∀ e a, env_camera env = Ok (Some a) → inference_due env s = true →
          env_pipeline env = Raise e → is_Exception e = true →
          ∃ c, update_detection_history (ctrl s) "Error" 0.0%Q
                 (env_time_history env) = Ok c ∧
               detection_history (ctrl out.1) = detection_history c ∧
               last_detection_time out.1 = env_time env ∧
               predict_calls out.1 = env_time env :: predict_calls s).
Proof.
  intros Hrun. cbv zeta.
  pose proof (tick_body_running env s) as Hbr. cbv zeta in Hbr.
  pose proof (tick_handled_fields h env s) as Hf. cbv zeta in Hf.
  destruct Hf as (F1 & _ & _ & F4 & F5 & _ & F7).
  split; [|split; [|split; [|split]]].
  - intros e Hb He. split.
    + destruct Hbr as [Hbr|(_ & _ & Hok)]; [congruence|].
      rewrite Hok in Hb. discriminate.
    + intros Hp Hs. unfold tick_handled.
      destruct (tick_body env s) as [s' r]. simpl in Hb. subst r.
      rewrite handlers_caught by exact He. now rewrite Hp, Hs.
  - intros e Hcam. pose proof (tick_body_cases env s) as Hc.
    now rewrite Hcam in Hc.
  - intros Hstop. destruct F7 as [F7|(_ & Hki & Hp)]; [|now right].
    left. rewrite F7 in Hstop.
    destruct Hbr as [Hbr|(_ & Hkey & Hok)]; [congruence|auto].
  - intros e. apply handlers_escape.
  - intros e a Hcam Hdue Hpipe He.
    pose proof (tick_body_cases env s) as Hc. rewrite Hcam in Hc.
    cbv zeta in Hc. rewrite Hdue in Hc.
    set (s1 := with_mem s (mem s ++ [a])) in *.
    pose proof (inference_step_spec env (env_time env) s1) as Hi.
    cbv zeta in Hi. destruct Hi as (Hpc & _ & _ & Hp).
    unfold ModelLoader.predict in Hp. rewrite Hpipe, He in Hp. simpl in Hp.
    destruct Hp as (Hok & Hlast & Hupd).
    destruct (inference_step env (env_time env) s1) as [s2 r2].
    simpl in *. subst r2.
    destruct (display_step_obeys env (Some (length (mem s))) s2)
      as [(D1 & D2 & D3 & _) _].
    rewrite <- Hc in D1, D2, D3.
    exists (ctrl s2). split; [exact Hupd|].
    rewrite F1, F4, F5. split; [exact D3|]. split; congruence.
Qed.

Lemma C8_exceptions_do_not_stop_loop_witness :
  tick_handled quiet camera_failure_env (loop_entry idle_state)
    = (loop_entry idle_state, None).
Proof.
  destruct (C8_exceptions_do_not_stop_loop quiet camera_failure_env
              (loop_entry idle_state) eq_refl) as (H1 & H2 & _).
  pose proof (H2 _ eq_refl) as Hbody.
  destruct (H1 (OtherException "SourceUnavailable")) as [_ H];
    [now rewrite Hbody|reflexivity|].
  rewrite (H eq_refl eq_refl), Hbody. reflexivity.
Defined.

(** C9. With [detection_interval] = 0.5, during any sequence of
    iterations whose clock readings all lie in a span of less than 2.0
    seconds (the 40 iterations at 0.05 seconds from one another among
    them), [predict] is called at most 4 times, and each call comes at
    least 0.5 seconds after the call before it; this holds from the start
    of the loop and from any later state of it.  An iteration calls
    [predict] only if at least 0.5 seconds have passed since the time of
    the last inference. *)
Theorem C9_inference_throttled (envs : list tick_env) (s : loop_state) (t0 : Q) :
  (∀ env, env ∈ envs → (t0 <= env_time env < t0 + 2.0)%Q) →
  let run := predict_calls (run_detection_loop envs (with_predict_calls s [])).1 in
  let part := predict_calls (iterate envs (with_predict_calls s [])).1 in
  detection_interval = 0.5%Q ∧
  length run ≤ 4 ∧ spaced run ∧ length part ≤ 4 ∧ spaced part ∧
  ∀ env s', predict_calls (tick env s').1 ≠ predict_calls s' →
            (0.5 <= env_time env - last_detection_time s')%Q.
Proof.
  intros Hwin run part.
  assert (Htick : ∀ env s', predict_calls (tick env s').1 ≠ predict_calls s' →
                    (0.5 <= env_time env - last_detection_time s')%Q).
  { intros env s' Hne.
    destruct (tick_clock env s') as [[Hpc _]|(_ & Hdue & _)];
      [contradiction|exact Hdue]. }
  assert (H : ∀ s0, predict_calls s0 = [] →
            length (predict_calls (iterate envs s0).1) ≤ 4 ∧
            spaced (predict_calls (iterate envs s0).1)).
  { intros s0 Hs0.
    destruct (iterate_calls envs s0) as (Hsp & new & Hnew & Hin).
    { split; [now rewrite Hs0|]. intros _ t rest Ht. congruence. }
    split; [|exact Hsp].
    apply (spaced_window_bound t0); [exact Hsp|].
    intros x Hx. rewrite Hnew, Hs0, app_nil_r in Hx.
    destruct (Hin _ Hx) as (env & Henv & ->). now apply Hwin. }
  split; [reflexivity|].
  destruct (H (loop_entry (with_predict_calls s [])) eq_refl) as [H1 H2].
  destruct (H (with_predict_calls s []) eq_refl) as [H3 H4].
  auto 6.
Qed.

Lemma C9_inference_throttled_witness :
  let run := predict_calls (run_detection_loop (scenario_envs 1000 40)
                              (with_predict_calls idle_state [])).1 in
  let part := predict_calls (iterate (scenario_envs 1000 40)
                               (with_predict_calls idle_state [])).1 in
  detection_interval = 0.5%Q ∧
  length run ≤ 4 ∧ spaced run ∧ length part ≤ 4 ∧ spaced part ∧
  ∀ env s', predict_calls (tick env s').1 ≠ predict_calls s' →
            (0.5 <= env_time env - last_detection_time s')%Q.
Proof.
  apply (C9_inference_throttled (scenario_envs 1000 40) idle_state 1000%Q).
  intros env Henv. apply (scenario_envs_window 1000 40); [lia|exact Henv].
Defined.

(** The scenario of the specification: 40 iterations, 0.05 seconds apart,
    make exactly 4 calls; a 41st iteration, 2.0 seconds after the first,
    makes the fifth. *)
Example scenario_forty_ticks :
  Qred <$> predict_calls (run_detection_loop (scenario_envs 1000 40) idle_state).1
  = Qred <$> [1001.5; 1001.0; 1000.5; 1000.0]%Q.
Proof. vm_compute. reflexivity. Qed.

Example scenario_forty_one_ticks :
  length (predict_calls (run_detection_loop (scenario_envs 1000 41) idle_state).1)
  = 5.
Proof. vm_compute. reflexivity. Qed.

(** ** Further properties of the smoothing engine and of the history *)

(** X1. Smoothing never raises: neither [max] nor the division can fail.
    It returns the placeholder for an empty window, and otherwise a label
    that some sample of the window bears, with the mean confidence of the
    samples of that label. *)
Theorem X1_smoothing_never_raises (self : Controller.t) (now : Q) :
  let recent := recent_detections (detection_history self) now in
  ∃ label conf,
    get_smoothed_detection self now = (self, Ok (label, conf)) ∧
    ((recent = [] ∧ label = "No detection" ∧ conf = 0.0%Q) ∨
     (label ∈ recent.*1 ∧ 0 < votes recent label ∧
      conf = (py_sum (class_confidences recent label)
              / inject_Z (Z.of_nat (votes recent label)))%Q)).
Proof.
  intros recent. rewrite get_smoothed_detection_eq. fold recent.
  destruct recent as [|x l] eqn:E.
  - exists "No detection", 0.0%Q. split; [reflexivity|]. now left.
  - destruct (smooth_of_recent_majority (x :: l)) as (r & Hr & Hsm);
      [discriminate|].
    destruct (majority_first (x :: l)) as (r' & Hr' & Hmax & _); [discriminate|].
    assert (r' = r) by congruence. subst r'.
    assert (Hpos : 0 < votes (x :: l) r).
    { specialize (Hmax x.1). destruct x as [n q]. rewrite votes_cons in Hmax.
      simpl in Hmax. rewrite String.eqb_refl in Hmax. lia. }
    eexists r, _. split; [now rewrite Hsm|]. right.
    split; [now apply votes_pos_elem|]. split; [exact Hpos|reflexivity].
Qed.

(** X2. If every sample of the trailing window bears the same label,
    smoothing returns that label with the mean of all the confidences of
    the window. *)
Theorem X2_unanimous_window (self : Controller.t) (now : Q) (c : string) :
  let recent := recent_detections (detection_history self) now in
  recent ≠ [] →
  (∀ d, d ∈ recent → d.1 = c) →
  (get_smoothed_detection self now).2 =
  Ok (c, (py_sum recent.*2 / inject_Z (Z.of_nat (length recent)))%Q).
Proof.
  intros recent Hne Hall. rewrite get_smoothed_detection_eq. fold recent. simpl.
  destruct (smooth_of_recent_majority recent Hne) as (r & Hr & ->).
  destruct (majority_first recent Hne) as (r' & Hr' & Hmax & pre & q & post & Hsplit & _).
  assert (r' = r) by congruence. subst r'.
  assert (r = c).
  { apply (Hall (r, q)). rewrite Hsplit. apply elem_of_app. right. now left. }
  subst r. unfold votes. rewrite (class_confidences_all recent c Hall).
  now rewrite length_fmap.
Qed.

Lemma X2_unanimous_window_witness :
  (get_smoothed_detection
     (set_history scenario_ctrl [("A", 0.9%Q, 0%Q); ("A", 0.7%Q, 0.5%Q)]) 1%Q).2 =
  Ok ("A", (py_sum [0.9; 0.7] / inject_Z 2)%Q).
Proof.
  apply (X2_unanimous_window
           (set_history scenario_ctrl [("A", 0.9%Q, 0%Q); ("A", 0.7%Q, 0.5%Q)])
           1%Q "A").
  - discriminate.
  - intros d Hd. vm_compute in Hd.
    apply elem_of_cons in Hd. destruct Hd as [->|Hd]; [reflexivity|].
    apply list_elem_of_singleton in Hd. now subst d.
Defined.

(** X4. A label with strictly more samples in the window than every
    other label is the one smoothing returns, wherever its samples stand
    in the history. *)
Theorem X4_strict_plurality_wins (self : Controller.t) (now : Q) (c : string) :
  let recent := recent_detections (detection_history self) now in
  (∀ c', c' ≠ c → votes recent c' < votes recent c) →
  ∃ conf, (get_smoothed_detection self now).2 = Ok (c, conf).
Proof.
  intros recent Hc. rewrite get_smoothed_detection_eq. fold recent. simpl.
  assert (Hne : recent ≠ []).
  { intros E. specialize (Hc (String Ascii.zero c)). rewrite E in Hc.
    unfold votes in Hc. simpl in Hc.
    assert (String Ascii.zero c ≠ c).
    { clear. induction c as [|a c IH]; [discriminate|].
      intros [= H1 H2]. subst a. auto. }
    specialize (Hc H). lia. }
  destruct (smooth_of_recent_majority recent Hne) as (r & Hr & ->).
  destruct (majority_first recent Hne) as (r' & Hr' & Hmax & _).
  assert (r' = r) by congruence. subst r'.
  destruct (decide (r = c)) as [->|Hrc]; [eauto|].
  specialize (Hc r Hrc). specialize (Hmax c). lia.
Qed.

Lemma X4_strict_plurality_wins_witness :
  ∃ conf,
    (get_smoothed_detection (set_history scenario_ctrl scenario_samples) 1%Q).2
      = Ok ("A", conf).
Proof.
  apply (X4_strict_plurality_wins (set_history scenario_ctrl scenario_samples)
           1%Q "A").
  intros c' Hc'.
  change (recent_detections
            (detection_history (set_history scenario_ctrl scenario_samples)) 1%Q)
    with [("A", 0.9%Q); ("A", 0.8%Q); ("B", 0.95%Q)].
  rewrite !votes_cons. rewrite String.eqb_refl.
  destruct (String.eqb "A" c') eqn:EA.
  - apply String.eqb_eq in EA. congruence.
  - destruct (String.eqb "B" c'); unfold votes; simpl; lia.
Defined.

(** X5. One append, from any state of the controller: it never raises,
    changes no field but the history, leaves a suffix of the old history
    followed by the new sample, and removes at most one sample, the
    oldest.  So the length grows by one below the capacity and stays as
    it is otherwise (a history longer than the capacity is not cut back),
    and the new sample is the last one unless the capacity is 0 and the
    history empty. *)
Theorem X5_append_step (self : Controller.t) (class_name : string)
    (confidence now : Q) :
  let h := detection_history self in
  ∃ self',
    update_detection_history self class_name confidence now = Ok self' ∧
    self' = set_history self (detection_history self') ∧
    detection_history self' `suffix_of` h ++ [(class_name, confidence, now)] ∧
    length (detection_history self') =
      (if Nat.ltb (length h) (max_history self) then S (length h) else length h) ∧
    (h ≠ [] ∨ 0 < max_history self →
     last (detection_history self') = Some (class_name, confidence, now)).
Proof.
  intros h. rewrite update_detection_history_eq. cbv zeta. fold h.
  eexists. split; [reflexivity|]. simpl.
  split; [reflexivity|].
  rewrite length_app. simpl length.
  destruct (Nat.ltb_spec (max_history self) (length h + 1)) as [Hlt|Hge].
  - destruct h as [|x h2]; simpl in *.
    + split; [exists [(class_name, confidence, now)]; reflexivity|].
      split; [destruct (Nat.ltb_spec 0 (max_history self)); [lia|reflexivity]|].
      intros [H|H]; [congruence|lia].
    + split; [exists [x]; reflexivity|]. rewrite length_app. simpl.
      split.
      * destruct (Nat.ltb_spec (S (length h2)) (max_history self)); lia.
      * intros _. apply last_snoc.
  - split; [exists []; reflexivity|]. rewrite length_app. simpl. split.
    + destruct (Nat.ltb_spec (length h) (max_history self)); lia.
    + intros _. apply last_snoc.
Qed.

Lemma X5_append_step_witness :
  last (detection_history
          (set_history scenario_ctrl
             (tail (scenario_samples ++ [("C", 0.5%Q, 2.0%Q)]))))
  = Some ("C", 0.5%Q, 2.0%Q).
Proof.
  destruct (X5_append_step (set_history scenario_ctrl scenario_samples)
              "C" 0.5%Q 2.0%Q) as (self' & Hrun & _ & _ & _ & Hlast).
  vm_compute in Hrun. inversion Hrun; subst self'. clear Hrun.
  apply Hlast. left. discriminate.
Defined.

(** X6. If the clock readings of the appends never decrease, the
    timestamps of the history never decrease, whatever was evicted. *)
Theorem X6_history_time_ordered (self : Controller.t) (inputs : list sample) :
  length (detection_history self) ≤ max_history self →
  time_ordered (detection_history self ++ inputs) →
  ∃ c, run_appends self inputs = Ok c ∧ time_ordered (detection_history c).
Proof.
  intros Hlen Hord.
  destruct (run_appends_suffix inputs self Hlen) as (c & Hrun & _ & Hh).
  exists c. split; [exact Hrun|]. rewrite Hh. now apply time_ordered_drop.
Qed.

Lemma X6_history_time_ordered_witness :
  ∃ c, run_appends scenario_ctrl scenario_samples = Ok c ∧
       time_ordered (detection_history c).
Proof.
  apply (X6_history_time_ordered scenario_ctrl scenario_samples).
  - simpl. lia.
  - simpl. unfold scenario_samples. repeat split;
      intros s' Hs'; repeat (apply elem_of_cons in Hs'; destruct Hs' as [->|Hs'];
                             [vm_compute; discriminate|]);
      now apply elem_of_nil in Hs'.
Defined.

(** X7. On a history whose timestamps never decrease, the samples that
    smoothing aggregates are the newest ones: the history splits into
    samples that have left the window, followed by the samples of the
    window. *)
Theorem X7_window_is_newest_samples (self : Controller.t) (now : Q) :
  time_ordered (detection_history self) →
  ∃ k,
    recent_detections (detection_history self) now
      = name_conf <$> drop k (detection_history self) ∧
    (∀ s, s ∈ take k (detection_history self) → in_window now s = false) ∧
    (∀ s, s ∈ drop k (detection_history self) → in_window now s = true).
Proof.
  intros Hord.
  destruct (time_ordered_window (detection_history self) now Hord)
    as (k & Hk & Hout & Hin).
  exists k. split; [exact Hk|]. split; [exact Hout|exact Hin].
Qed.

Lemma X7_window_is_newest_samples_witness :
  ∃ k,
    recent_detections scenario_samples 2.2%Q = name_conf <$> drop k scenario_samples ∧
    (∀ s, s ∈ take k scenario_samples → in_window 2.2%Q s = false) ∧
    (∀ s, s ∈ drop k scenario_samples → in_window 2.2%Q s = true).
Proof.
  apply (X7_window_is_newest_samples (set_history scenario_ctrl scenario_samples)
           2.2%Q).
  simpl. unfold scenario_samples. repeat split;
    intros s' Hs'; repeat (apply elem_of_cons in Hs'; destruct Hs' as [->|Hs'];
                           [vm_compute; discriminate|]);
    now apply elem_of_nil in Hs'.
Defined.

(** ** Further properties of the renderers *)

(** X8. The renderer of the controller, on a live frame with at least
    two dimensions: it allocates exactly two arrays (the frame it works
    on and the scratch overlay), the first of the shape of its input,
    whether it returns or raises.  It returns, and then that first array,
    exactly when none of its eight drawing calls raises and [int()]
    accepts 200 times the confidence; when it raises, the exception is
    that of the drawing call that failed or that of [int()].  With fewer
    dimensions it raises [ValueError] after the first copy, and a null
    frame makes it raise [AttributeError] with the heap untouched. *)
Theorem X8_draw_detection_info_modes
    (cv : cv2_outcomes) (σ : heap) (f : ref) (a : ndarray)
    (class_name : string) (confidence : Binary64.float) :
  σ !! f = Some a →
  let run := Detection64.draw_detection_info cv (Some f) class_name confidence σ in
  let bar := Binary64.py_int (Binary64.mul (Binary64.of_Z 200) confidence) in
  (2 ≤ length (shape a) →
   ∃ D O, run.1 = σ ++ [D; O] ∧ shape D = shape a ∧
     (run.2 = Ok (length σ) ↔
      (∀ n, n ∈ Detection64.call_sites → cv n = None) ∧ ∃ z, bar = Ok z) ∧
     (∀ e, run.2 = Raise e →
           (∃ n, n ∈ Detection64.call_sites ∧ cv n = Some e) ∨ bar = Raise e)) ∧
  (length (shape a) < 2 → run = (σ ++ [a], Raise ValueError)) ∧
  Detection64.draw_detection_info cv None class_name confidence σ
    = (σ, Raise AttributeError).
Proof.
  intros Hf. cbv zeta. split; [|split; [|reflexivity]].
  - intros Hdim. destruct (shape a) as [|hh [|w rest]] eqn:Hs;
      [simpl in Hdim; lia|simpl in Hdim; lia|].
    destruct (Detection64.draw_detection_info cv (Some f) class_name confidence σ)
      as [σ' r] eqn:Hrun.
    destruct (draw_detection_info64_cases _ _ _ _ _ _ _ _ _ _ _ Hf Hs Hrun)
      as (D & O & -> & HD & Hcases). cbn [fst snd].
    exists D, O. split; [reflexivity|]. split; [congruence|]. split; [split|].
    + intros ->. destruct Hcases as [(_ & H)|(e & He & _)]; [exact H|discriminate].
    + intros [Hquiet [z Hz]].
      destruct Hcases as [(-> & _)|(e & -> & [(n & Hn & Hcv)|Hbar])];
        [reflexivity| |congruence].
      rewrite (Hquiet n Hn) in Hcv. discriminate.
    + intros e ->. destruct Hcases as [(Hr & _)|(e' & Hr & Hwhy)];
        [discriminate|]. injection Hr as <-. exact Hwhy.
  - intros Hdim. now apply draw_detection_info64_flat.
Qed.

Lemma X8_draw_detection_info_modes_witness :
  ∃ D O,
    (Detection64.draw_detection_info no_failure (Some 0) "cat"
       (Binary64.decimal 9 1) [vga_frame]).1 = [vga_frame] ++ [D; O] ∧
    shape D = shape vga_frame ∧
    ((Detection64.draw_detection_info no_failure (Some 0) "cat"
        (Binary64.decimal 9 1) [vga_frame]).2 = Ok 1 ↔
     (∀ n, n ∈ Detection64.call_sites → no_failure n = None) ∧
     ∃ z, Binary64.py_int (Binary64.mul (Binary64.of_Z 200) (Binary64.decimal 9 1))
          = Ok z) ∧
    (∀ e, (Detection64.draw_detection_info no_failure (Some 0) "cat"
             (Binary64.decimal 9 1) [vga_frame]).2 = Raise e →
          (∃ n, n ∈ Detection64.call_sites ∧ no_failure n = Some e) ∨
          Binary64.py_int (Binary64.mul (Binary64.of_Z 200) (Binary64.decimal 9 1))
            = Raise e).
Proof.
  apply (X8_draw_detection_info_modes no_failure [vga_frame] 0 vga_frame "cat"
           (Binary64.decimal 9 1)).
  - reflexivity.
  - simpl. lia.
Defined.

(** X9. The three colour bands and the status line agree: the colour is
    green exactly above 0.7, yellow exactly in (0.5, 0.7], red exactly up
    to 0.5, and the threshold of the status line (confidence > 0.5) is
    met exactly when the colour is not red. *)
Theorem X9_colour_bands_agree (confidence : Q) :
  (CameraWindow.band_color confidence = (0, 255, 0)%Z ↔ (0.7 < confidence)%Q) ∧
  (CameraWindow.band_color confidence = (0, 255, 255)%Z ↔
     (0.5 < confidence)%Q ∧ (confidence <= 0.7)%Q) ∧
  (CameraWindow.band_color confidence = (0, 0, 255)%Z ↔ (confidence <= 0.5)%Q) ∧
  (Qlt_bool 0.5 confidence = true ↔
     CameraWindow.band_color confidence ≠ (0, 0, 255)%Z).
Proof.
  unfold CameraWindow.band_color.
  destruct (Qlt_bool 0.7 confidence) eqn:E7;
    destruct (Qlt_bool 0.5 confidence) eqn:E5;
    try apply Qlt_bool_iff in E7; try apply Qlt_bool_iff in E5;
    try apply Qlt_bool_false_iff in E7; try apply Qlt_bool_false_iff in E5;
    repeat split; try discriminate; try congruence; intros; try lra;
    try (exfalso; lra).
Qed.



(** ** Further properties of the detection loop *)

(** X11. An exception that leaves the loop was raised by the outside
    world, in one of two places.  Either the frame source, the
    classifier, the display or the image writer raised it inside the
    [try] block, and then it is neither of class [Exception] nor a
    [KeyboardInterrupt]; or [print] or [time.sleep] raised it inside a
    handler, and then it can be of any class, a [KeyboardInterrupt]
    included. *)
Theorem X11_only_foreign_base_exceptions_escape
    (envs : list (handler_env * tick_env)) (s : loop_state) (e : py_exception) :
  (iterate_handled envs s).2 = Some e →
  ∃ h env, (h, env) ∈ envs ∧
    ((e ∈ env_exceptions env ∧ is_Exception e = false ∧ e ≠ KeyboardInterrupt) ∨
     e ∈ handler_exceptions h).
Proof.
  revert s. induction envs as [|[h env] envs IH]; intros s; simpl; [discriminate|].
  destruct (is_running (ctrl s)); [|discriminate].
  pose proof (tick_handled_escape h env s) as Ht.
  destruct (tick_handled h env s) as [s1 [e'|]]; simpl in *.
  - intros [= <-]. exists h, env. split; [now left|]. now apply Ht.
  - intros Hesc. destruct (IH s1 Hesc) as (h' & env' & Hin & H).
    exists h', env'. split; [now right|exact H].
Qed.

Lemma X11_only_foreign_base_exceptions_escape_witness :
  ∃ h env, (h, env) ∈ [(interrupted_sleep, camera_failure_env)] ∧
    ((KeyboardInterrupt ∈ env_exceptions env ∧
      is_Exception KeyboardInterrupt = false ∧
      KeyboardInterrupt ≠ KeyboardInterrupt) ∨
     KeyboardInterrupt ∈ handler_exceptions h).
Proof.
  apply (X11_only_foreign_base_exceptions_escape
           [(interrupted_sleep, camera_failure_env)] (loop_entry idle_state)
           KeyboardInterrupt).
  vm_compute. reflexivity.
Defined.

(** X12. An iteration calls [predict] exactly when the frame source
    hands it a frame, at least [detection_interval] has passed since the
    last inference, and the model is loaded; the call is recorded at the
    clock reading of the iteration. *)
Theorem X12_predict_called_exactly_when_due (env : tick_env) (s : loop_state) :
  predict_calls (tick env s).1 =
  if frame_available env && inference_due env s
  then env_time env :: predict_calls s
  else predict_calls s.
Proof.
  rewrite tick_calls. apply tick_body_calls.
Qed.

(** X13. The loop keeps the history within its capacity: from a state
    whose history is not longer than [max_history], after any number of
    iterations, whatever fails in them, the history is not longer than
    [max_history], and neither the capacity nor the confidence threshold
    has changed. *)
Theorem X13_loop_keeps_history_bounded (envs : list tick_env) (s : loop_state) :
  length (detection_history (ctrl s)) ≤ max_history (ctrl s) →
  let s' := (run_detection_loop envs s).1 in
  length (detection_history (ctrl s')) ≤ max_history (ctrl s') ∧
  max_history (ctrl s') = max_history (ctrl s) ∧
  confidence_threshold (ctrl s') = confidence_threshold (ctrl s).
Proof.
  intros Hlen s'. unfold s', run_detection_loop.
  destruct (iterate_keeps envs (loop_entry s)) as (H1 & H2 & H3 & _).
  split; [apply H3; exact Hlen|]. split; [exact H1|exact H2].
Qed.

Lemma X13_loop_keeps_history_bounded_witness :
  let s' := (run_detection_loop (scenario_envs 1000 40) idle_state).1 in
  length (detection_history (ctrl s')) ≤ max_history (ctrl s') ∧
  max_history (ctrl s') = max_history (ctrl idle_state) ∧
  confidence_threshold (ctrl s') = confidence_threshold (ctrl idle_state).
Proof.
  apply (X13_loop_keeps_history_bounded (scenario_envs 1000 40) idle_state).
  simpl. lia.
Defined.

(** X14. The loop never modifies or discards an array that exists: after
    any number of iterations every array of the heap it started from is
    found, unchanged, under the same reference.  Frames are only ever
    added (the copy taken from the camera, and the two arrays of the
    renderer). *)
Theorem X14_loop_never_modifies_existing_arrays
    (envs : list tick_env) (s : loop_state) :
  mem s `prefix_of` mem (run_detection_loop envs s).1 ∧
  ∀ r a, mem s !! r = Some a → mem (run_detection_loop envs s).1 !! r = Some a.
Proof.
  unfold run_detection_loop.
  destruct (iterate_keeps envs (loop_entry s)) as (_ & _ & _ & H).
  simpl in H. split; [exact H|].
  intros r a Hr. eapply prefix_lookup_Some; eassumption.
Qed.

Lemma X14_loop_never_modifies_existing_arrays_witness :
  mem (run_detection_loop (scenario_envs 1000 3)
         (with_mem idle_state [empty_frame])).1 !! 0 = Some empty_frame.
Proof.
  apply (proj2 (X14_loop_never_modifies_existing_arrays (scenario_envs 1000 3)
                  (with_mem idle_state [empty_frame])) 0 empty_frame).
  reflexivity.
Defined.



(** ** Further properties of the classifier *)

(** X16. As it is shipped, [predict] never classifies.  The module
    does not bind the name [cv2] that [preprocess_image] uses, so with an
    interpreter the [try] block fails before the interpreter is touched:
    at the latest with the [NameError] of that name.  [predict] makes no
    call on the interpreter; what it returns is ("Error", 0.0), or
    ("Model not loaded", 0.0) without an interpreter; and it raises only
    what the lookup of the input shape raised outside class
    [Exception]. *)
Theorem X16_predict_never_reaches_interpreter
    (interpreter : bool) (labels : list string) (env : Shipped.predict_env) :
  let out := Shipped.predict interpreter labels env in
  Shipped.load_global "cv2" = Raise Shipped.NameError ∧
  out.1 = [] ∧
  (∀ r, out.2 = Ok r →
        r = if interpreter then ("Error", 0.0%Q) else ("Model not loaded", 0.0%Q)) ∧
  (∀ e, out.2 = Raise e →
        interpreter = true ∧ Shipped.env_input_shape env = Raise e ∧
        is_Exception e = false) ∧
  (interpreter = true →
   (∀ e, Shipped.env_input_shape env = Raise e → is_Exception e = true) →
   out.2 = Ok ("Error", 0.0%Q)).
Proof.
  cbv zeta. split; [exact load_global_cv2|].
  unfold Shipped.predict, Shipped.try_block.
  destruct interpreter; cbn [negb fst snd].
  - destruct (preprocess_image_fails env) as (e0 & -> & Hwhy). cbn [fst snd].
    split; [reflexivity|]. unfold ModelLoader.predict. cbn [negb].
    destruct (is_Exception e0) eqn:He0.
    + split; [intros r Hr; now injection Hr as <-|].
      split; [discriminate|reflexivity].
    + destruct Hwhy as [Hwhy|Hwhy]; [|congruence].
      split; [discriminate|]. split.
      * intros e Hr. injection Hr as <-. auto.
      * intros _ Hall. specialize (Hall e0 Hwhy). congruence.
  - split; [reflexivity|]. split; [intros r Hr; now injection Hr as <-|].
    split; discriminate.
Qed.

Lemma X16_predict_never_reaches_interpreter_witness :
  (Shipped.predict true ["cup"; "bottle"] working_predict_env).2
    = Ok ("Error", 0.0%Q).
Proof.
  apply (X16_predict_never_reaches_interpreter true ["cup"; "bottle"]
           working_predict_env).
  - reflexivity.
  - intros e He. discriminate He.
Defined.

(** X17. [predict] never raises an exception of class [Exception].
    Without an interpreter it answers ("Model not loaded", 0.0) whatever
    the tensor; with one, a failure of the interpreter, a tensor without
    rows and an empty first row all give ("Error", 0.0). *)
Theorem X17_predict_failure_modes
    (interpreter : bool) (labels : list string) (tensor : result (list (list Q))) :
  (∀ e, Inference.predict_output interpreter labels tensor = Raise e →
        is_Exception e = false ∧ tensor = Raise e) ∧
  Inference.predict_output false labels tensor = Ok ("Model not loaded", 0.0%Q) ∧
  (∀ e, is_Exception e = true →
        Inference.predict_output true labels (Raise e) = Ok ("Error", 0.0%Q)) ∧
  Inference.predict_output true labels (Ok []) = Ok ("Error", 0.0%Q) ∧
  (∀ rows, Inference.predict_output true labels (Ok ([] :: rows))
           = Ok ("Error", 0.0%Q)).
Proof.
  split; [|split; [reflexivity|split; [|split; [reflexivity|reflexivity]]]].
  - intros e. unfold Inference.predict_output, ModelLoader.predict.
    destruct interpreter; simpl; [|discriminate].
    destruct tensor as [rows|e']; simpl.
    + destruct (Inference.classify labels rows) as [r|e''] eqn:Hc; [discriminate|].
      assert (He : is_Exception e'' = true).
      { unfold Inference.classify, mbind, result_bind, rbind, py_index in Hc.
        destruct rows as [|row rows]; simpl in Hc; [now inversion Hc|].
        destruct row as [|x row]; simpl in Hc; [now inversion Hc|].
        destruct ((x :: row) !! argmax_loop 0 x 1 row); [|now inversion Hc].
        destruct (Nat.ltb _ _); [|discriminate].
        destruct (labels !! _); [discriminate|now inversion Hc]. }
      rewrite He. discriminate.
    + destruct (is_Exception e') eqn:He; [discriminate|].
      intros [= <-]. auto.
  - intros e He. unfold Inference.predict_output, ModelLoader.predict.
    simpl. now rewrite He.
Qed.

Lemma X17_predict_failure_modes_witness :
  is_Exception SystemExit = false ∧
  Raise (A:=list (list Q)) SystemExit = Raise SystemExit.
Proof.
  apply (proj1 (X17_predict_failure_modes true ["cup"] (Raise SystemExit))
           SystemExit).
  reflexivity.
Defined.

(** ** Further properties of the camera window, the command line, the
    camera manager and the start-up *)

(** X18. The overlay shows the detection stored last: after any sequence
    of calls on a camera window the pair that [draw_confidence_overlay]
    displays is the one given to the last [update_detection], or what was
    displayed before if there was none.  A stored pair is displayed as it
    is, even with an empty label or a confidence of 0: the placeholder
    ("No detection", 0.0) only stands for a detection never set. *)
Theorem X18_overlay_shows_last_update :
  (∀ calls w,
     CameraWindow.displayed_detection (do_calls w calls)
     = last_update calls (CameraWindow.displayed_detection w)) ∧
  (∀ w class_name confidence,
     CameraWindow.displayed_detection
       (CameraWindow.update_detection w class_name confidence)
     = (class_name, confidence)) ∧
  (∀ width height fps,
     CameraWindow.displayed_detection (CameraWindow.init width height fps)
     = ("No detection", 0.0%Q)).
Proof.
  split; [|split].
  - induction calls as [|c calls IH]; intros w; [reflexivity|].
    unfold do_calls, last_update in *. simpl. rewrite IH. f_equal.
    destruct c as [n q|b]; reflexivity.
  - reflexivity.
  - reflexivity.
Qed.

(** X19. The command line never makes [main] fail, and is read by
    position: the camera window is requested exactly when the first
    argument is [--camera-window]; the model path is then the second
    argument and the labels path the third, and otherwise they are the
    first and the second, each with its default when absent.  Given
    anywhere else the flag is taken for a path, and arguments beyond
    these are ignored. *)
Theorem X19_command_line_by_position (argv : list string) :
  ∃ model_path labels_path use_camera_window,
    main_args argv = Ok (model_path, labels_path, use_camera_window) ∧
    (use_camera_window = true ↔ argv !! 1 = Some "--camera-window") ∧
    model_path = default "model/model.tflite"
                   (argv !! (if use_camera_window then 2 else 1)) ∧
    labels_path = default "model/labels.txt"
                    (argv !! (if use_camera_window then 3 else 2)) ∧
    main_args (take 4 argv) = main_args argv.
Proof.
  rewrite !main_args_closed.
  assert (Htake : ∀ i, i < 4 → take 4 argv !! i = argv !! i).
  { intros i Hi. now apply lookup_take_lt. }
  rewrite !Htake by lia.
  destruct (argv !! 1) as [a1|] eqn:H1.
  - destruct (String.eqb a1 "--camera-window") eqn:E.
    + apply String.eqb_eq in E. subst a1. eexists _, _, true.
      split; [reflexivity|]. repeat split; reflexivity.
    + eexists _, _, false. split; [reflexivity|].
      split; [split; [discriminate|]|].
      { intros [= ->]. rewrite String.eqb_refl in E. discriminate. }
      rewrite H1. repeat split; reflexivity.
  - assert (H2 : argv !! 2 = None).
    { apply lookup_ge_None. apply lookup_ge_None in H1. lia. }
    eexists _, _, false. split; [reflexivity|].
    split; [split; discriminate|]. rewrite H1, H2. repeat split; reflexivity.
Qed.

(** The flag given after a model path is taken for the labels path. *)
Example flag_in_second_position :
  main_args ["main_controller.py"; "m.tflite"; "--camera-window"]
  = Ok ("m.tflite", "--camera-window", false).
Proof. reflexivity. Qed.

(** X20. [get_frame] never raises an exception of class [Exception] and
    never touches an existing array.  It returns a frame only when the
    camera is running with a process that is alive, some data was read
    and decoding succeeded; the frame is then a new array, and it is the
    very object stored as the current frame.  In every other case that
    raises nothing, it returns [None] and changes nothing, so that the
    last good frame stays available. *)
Theorem X20_get_frame_outcomes (self : Camera.t) (io : Camera.frame_io) (σ : heap) :
  let out := Camera.get_frame self io σ in
  (∀ e, out.2 = Raise e → is_Exception e = false ∧ out.1 = (σ, self)) ∧
  (∀ f, out.2 = Ok (Some f) →
        Camera.is_running self = true ∧ is_Some (Camera.camera_process self) ∧
        Camera.io_poll io = Ok None ∧
        (∃ data, Camera.io_read io = Ok data ∧ data ≠ []) ∧
        ∃ a, Camera.io_imdecode io = Ok (Some a) ∧
             f = length σ ∧ out.1.1 = σ ++ [a] ∧
             Camera.current_frame out.1.2 = Some f ∧
             Camera.is_running out.1.2 = true ∧
             Camera.camera_process out.1.2 = Camera.camera_process self) ∧
  (out.2 = Ok None → out.1 = (σ, self)).
Proof.
  unfold Camera.get_frame.
  destruct (Camera.is_running self) eqn:Hrun; simpl;
    [|split; [discriminate|split; [discriminate|reflexivity]]].
  destruct (Camera.camera_process self) as [h|] eqn:Hproc; simpl;
    [|split; [discriminate|split; [discriminate|reflexivity]]].
  unfold Camera.read_frame, mbind, result_bind, rbind.
  destruct (Camera.io_poll io) as [[status|]|e]; simpl.
  - split; [discriminate|split; [discriminate|reflexivity]].
  - destruct (Camera.io_read io) as [[|b data]|e]; simpl.
    + split; [discriminate|split; [discriminate|reflexivity]].
    + destruct (Camera.io_imdecode io) as [[a|]|e]; simpl.
      * split; [discriminate|]. split; [|discriminate].
        intros f [= <-]. split; [reflexivity|]. split; [eauto|].
        split; [reflexivity|]. split; [exists (b :: data); split;
                                         [reflexivity|discriminate]|].
        exists a. repeat split; auto.
      * split; [discriminate|split; [discriminate|reflexivity]].
      * destruct (is_Exception e) eqn:He; simpl.
        -- split; [discriminate|split; [discriminate|reflexivity]].
        -- split; [intros e' [= <-]; auto|split; discriminate].
    + destruct (is_Exception e) eqn:He; simpl.
      * split; [discriminate|split; [discriminate|reflexivity]].
      * split; [intros e' [= <-]; auto|split; discriminate].
  - destruct (is_Exception e) eqn:He; simpl.
    + split; [discriminate|split; [discriminate|reflexivity]].
    + split; [intros e' [= <-]; auto|split; discriminate].
Qed.

Lemma X20_get_frame_outcomes_witness :
  Camera.is_running running_camera = true ∧
  is_Some (Camera.camera_process running_camera) ∧
  Camera.io_poll good_frame_io = Ok None ∧
  (∃ data, Camera.io_read good_frame_io = Ok data ∧ data ≠ []) ∧
  ∃ a, Camera.io_imdecode good_frame_io = Ok (Some a) ∧
       1 = length [vga_frame] ∧
       (Camera.get_frame running_camera good_frame_io [vga_frame]).1.1
         = [vga_frame] ++ [a] ∧
       Camera.current_frame
         (Camera.get_frame running_camera good_frame_io [vga_frame]).1.2 = Some 1 ∧
       Camera.is_running
         (Camera.get_frame running_camera good_frame_io [vga_frame]).1.2 = true ∧
       Camera.camera_process
         (Camera.get_frame running_camera good_frame_io [vga_frame]).1.2
         = Camera.camera_process running_camera.
Proof.
  apply (proj1 (proj2 (X20_get_frame_outcomes running_camera good_frame_io
                         [vga_frame])) 1).
  reflexivity.
Defined.

(** X21. [get_latest_frame] hands out a copy: when the camera holds a
    frame, the caller receives a new array with the same content, the
    stored frame is untouched, and it stays untouched when the caller
    renders on what it received.  With no frame stored the answer is
    [None] and nothing is allocated. *)
Theorem X21_latest_frame_is_private_copy
    (self : Camera.t) (σ : heap) (r : ref) (a : ndarray)
    (class_name : string) (confidence : Q) :
  Camera.current_frame self = Some r → σ !! r = Some a →
  Camera.get_latest_frame self σ = (σ ++ [a], Ok (Some (length σ))) ∧
  Camera.get_latest_frame self σ = CameraManager.get_latest_frame (Some a) σ ∧
  length σ ≠ r ∧
  (draw_detection_info (Some (length σ)) class_name confidence (σ ++ [a])).1 !! r
    = Some a ∧
  (∀ self0 σ0, Camera.current_frame self0 = None →
               Camera.get_latest_frame self0 σ0 = (σ0, Ok None)).
Proof.
  intros Hcur Hr.
  assert (Hrun : Camera.get_latest_frame self σ = (σ ++ [a], Ok (Some (length σ)))).
  { unfold Camera.get_latest_frame, mbind, M_bind, ndarray_copy.
    rewrite Hcur, Hr. reflexivity. }
  split; [exact Hrun|]. split; [rewrite Hrun; reflexivity|]. split.
  - apply lookup_lt_Some in Hr. lia.
  - split.
    + apply draw_detection_info_keeps.
      * rewrite heap_lookup_0. eauto.
      * now apply heap_old_cell.
    + intros self0 σ0 H0. unfold Camera.get_latest_frame. rewrite H0. reflexivity.
Qed.

Lemma X21_latest_frame_is_private_copy_witness :
  Camera.get_latest_frame running_camera [vga_frame]
    = ([vga_frame] ++ [vga_frame], Ok (Some 1)) ∧
  Camera.get_latest_frame running_camera [vga_frame]
    = CameraManager.get_latest_frame (Some vga_frame) [vga_frame] ∧
  1 ≠ 0 ∧
  (draw_detection_info (Some 1) "cat" 0.9%Q ([vga_frame] ++ [vga_frame])).1 !! 0
    = Some vga_frame ∧
  (∀ self0 σ0, Camera.current_frame self0 = None →
               Camera.get_latest_frame self0 σ0 = (σ0, Ok None)).
Proof.
  apply (X21_latest_frame_is_private_copy running_camera [vga_frame] 0 vga_frame
           "cat" 0.9%Q); reflexivity.
Defined.

(** X22. Stopping the camera, when waiting for the process returns or
    times out: the process is terminated (and killed after a timeout),
    the camera is left not running and without a process, and the last
    frame is kept.  From then on [get_frame] answers [None] without
    reading anything, [get_latest_frame] still hands out copies of the
    last frame, and stopping again does nothing. *)
Theorem X22_stop_camera (self : Camera.t) (wait : result unit) :
  (∀ e, wait = Raise e → is_TimeoutExpired e = true) →
  let out := Camera.stop_camera self wait in
  let stopped := out.1.1 in
  out.2 = Ok tt ∧
  Camera.is_running stopped = false ∧
  Camera.camera_process stopped = None ∧
  Camera.current_frame stopped = Camera.current_frame self ∧
  (∀ handle, Kill handle ∈ out.1.2 →
             Camera.camera_process self = Some handle ∧ wait = Raise TimeoutExpired) ∧
  (∀ io σ, Camera.get_frame stopped io σ = (σ, stopped, Ok None)) ∧
  Camera.get_latest_frame stopped = Camera.get_latest_frame self ∧
  (∀ wait', Camera.stop_camera stopped wait' = (stopped, [], Ok tt)).
Proof.
  intros Hwait. unfold Camera.stop_camera. simpl.
  destruct (Camera.camera_process self) as [h|] eqn:Hproc.
  - assert (Hafter : ∀ cur,
              let stopped := {| Camera.is_running := false;
                                Camera.camera_process := None;
                                Camera.current_frame := cur |} in
              (∀ io σ, Camera.get_frame stopped io σ = (σ, stopped, Ok None)) ∧
              (∀ wait', Camera.stop_camera stopped wait' = (stopped, [], Ok tt))).
    { intros cur. split; reflexivity. }
    destruct (Hafter (Camera.current_frame self)) as [Hget Hstop].
    destruct wait as [u|e]; simpl.
    + split; [reflexivity|]. split; [reflexivity|]. split; [reflexivity|].
      split; [reflexivity|]. split.
      { intros k Hk. apply list_elem_of_singleton in Hk. discriminate. }
      split; [exact Hget|]. split; [reflexivity|exact Hstop].
    + pose proof (Hwait e eq_refl) as He. rewrite He. simpl.
      split; [reflexivity|]. split; [reflexivity|]. split; [reflexivity|].
      split; [reflexivity|]. split.
      { intros k Hk. apply elem_of_cons in Hk. destruct Hk as [Hk|Hk];
          [discriminate|].
        apply list_elem_of_singleton in Hk. injection Hk as ->.
        split; [reflexivity|]. destruct e; try discriminate.
        simpl in He. apply String.eqb_eq in He. now subst. }
      split; [exact Hget|]. split; [reflexivity|exact Hstop].
  - simpl. split; [reflexivity|]. split; [reflexivity|]. split; [reflexivity|].
    split; [reflexivity|]. split.
    { intros k Hk. now apply elem_of_nil in Hk. }
    split.
    { intros io σ. unfold Camera.get_frame. simpl. reflexivity. }
    split; [reflexivity|].
    intros wait'. reflexivity.
Qed.

Lemma X22_stop_camera_witness :
  let out := Camera.stop_camera running_camera (Raise TimeoutExpired) in
  let stopped := out.1.1 in
  out.2 = Ok tt ∧
  Camera.is_running stopped = false ∧
  Camera.camera_process stopped = None ∧
  Camera.current_frame stopped = Camera.current_frame running_camera ∧
  (∀ handle, Kill handle ∈ out.1.2 →
             Camera.camera_process running_camera = Some handle ∧
             Raise TimeoutExpired = Raise (A:=unit) TimeoutExpired) ∧
  (∀ io σ, Camera.get_frame stopped io σ = (σ, stopped, Ok None)) ∧
  Camera.get_latest_frame stopped = Camera.get_latest_frame running_camera ∧
  (∀ wait', Camera.stop_camera stopped wait' = (stopped, [], Ok tt)).
Proof.
  apply (X22_stop_camera running_camera (Raise TimeoutExpired)).
  intros e [= <-]. reflexivity.
Defined.

(** X23. Start-up of [run].  The detection loop is entered exactly when
    the two files exist, the camera is available, the camera process is
    spawned and the model loads, each step being taken only if the ones
    before it succeeded: a missing file means the camera is never
    touched.  Nothing in the start-up ever stops the camera process: when
    the model fails to load after the camera has started, [run] gives up
    with the camera still running.  [run] answers [True] only if the loop
    was entered and ended without an exception. *)
Theorem X23_startup_gating
    (env : startup_env) (stage : run_stage) (camera : option Camera.t)
    (actions : list process_action) :
  run_startup env = Ok (stage, camera, actions) →
  (stage = Loop_entered ↔
     model_file_exists env = true ∧ labels_file_exists env = true ∧
     camera_available env = true ∧ start_which env = Ok 0%Z ∧
     (∃ handle, start_popen env = Ok handle) ∧ model_loads env = true) ∧
  (actions ≠ [] →
     model_file_exists env = true ∧ labels_file_exists env = true ∧
     camera_available env = true) ∧
  (∀ action, action ∈ actions → ∃ handle, action = Spawn handle) ∧
  (stage = Model_failed →
     ∃ handle cam, camera = Some cam ∧ actions = [Spawn handle] ∧
       Camera.is_running cam = true ∧ Camera.camera_process cam = Some handle) ∧
  (∀ loop, run env loop = Ok true ↔ stage = Loop_entered ∧ loop = None).
Proof.
  intros Hrun.
  assert (Hloop : ∀ loop, run env loop = Ok true ↔ stage = Loop_entered ∧ loop = None).
  { intros loop. unfold run. rewrite Hrun. simpl.
    destruct stage; simpl; try (split; [discriminate|intros [? _]; discriminate]).
    destruct loop as [e|]; simpl.
    - split; [|intros [_ ?]; discriminate].
      destruct (is_Exception e); discriminate.
    - split; auto. }
  cut ((stage = Loop_entered ↔
          model_file_exists env = true ∧ labels_file_exists env = true ∧
          camera_available env = true ∧ start_which env = Ok 0%Z ∧
          (∃ handle, start_popen env = Ok handle) ∧ model_loads env = true) ∧
       (actions ≠ [] →
          model_file_exists env = true ∧ labels_file_exists env = true ∧
          camera_available env = true) ∧
       (∀ action, action ∈ actions → ∃ handle, action = Spawn handle) ∧
       (stage = Model_failed →
          ∃ handle cam, camera = Some cam ∧ actions = [Spawn handle] ∧
            Camera.is_running cam = true ∧ Camera.camera_process cam = Some handle)).
  { intros (H1 & H2 & H3 & H4). auto 6. }
  clear Hloop. revert Hrun.
  unfold run_startup, initialize_camera, Camera.start_camera, except_Exception.
  assert (Hdead : ∀ st cam,
            st ≠ Loop_entered → st ≠ Model_failed →
            ¬ (model_file_exists env = true ∧ labels_file_exists env = true ∧
               camera_available env = true ∧ start_which env = Ok 0%Z ∧
               (∃ handle, start_popen env = Ok handle) ∧ model_loads env = true) →
            Ok (st, cam, @nil process_action) = Ok (stage, camera, actions) →
            (stage = Loop_entered ↔
               model_file_exists env = true ∧ labels_file_exists env = true ∧
               camera_available env = true ∧ start_which env = Ok 0%Z ∧
               (∃ handle, start_popen env = Ok handle) ∧ model_loads env = true) ∧
            (actions ≠ [] →
               model_file_exists env = true ∧ labels_file_exists env = true ∧
               camera_available env = true) ∧
            (∀ action, action ∈ actions → ∃ handle, action = Spawn handle) ∧
            (stage = Model_failed →
               ∃ handle cam, camera = Some cam ∧ actions = [Spawn handle] ∧
                 Camera.is_running cam = true ∧
                 Camera.camera_process cam = Some handle)).
  { intros st cam Hst1 Hst2 Hnot [= <- <- <-].
    split; [split; [intros; contradiction|intros; contradiction]|].
    split; [intros; contradiction|].
    split; [intros a Ha; now apply elem_of_nil in Ha|intros; contradiction]. }
  destruct (model_file_exists env) eqn:E1; simpl.
  2:{ apply Hdead; try discriminate. intros (H & _). discriminate. }
  destruct (labels_file_exists env) eqn:E2; simpl.
  2:{ apply Hdead; try discriminate. intros (_ & H & _). discriminate. }
  destruct (camera_available env) eqn:E3; simpl.
  2:{ apply Hdead; try discriminate. intros (_ & _ & H & _). discriminate. }
  destruct (start_which env) as [rc|e] eqn:E4; simpl.
  2:{ destruct (is_Exception e) eqn:He; simpl; rewrite ?He; simpl;
        [|discriminate].
      apply Hdead; try discriminate. intros (_ & _ & _ & H & _). discriminate. }
  destruct (Z.eqb_spec rc 0) as [->|Hrc]; simpl.
  2:{ apply Hdead; try discriminate. intros (_ & _ & _ & H & _). congruence. }
  destruct (start_popen env) as [h|e] eqn:E5; simpl.
  2:{ destruct (is_Exception e) eqn:He; simpl; rewrite ?He; simpl;
        [|discriminate].
      apply Hdead; try discriminate.
      intros (_ & _ & _ & _ & [h H] & _). discriminate. }
  destruct (model_loads env) eqn:E6; simpl; intros [= <- <- <-].
  - split; [split; [intros _; eauto 10|reflexivity]|].
    split; [auto|]. split; [|discriminate].
    intros a Ha. apply list_elem_of_singleton in Ha. eauto.
  - split; [split; [discriminate|intros (_ & _ & _ & _ & _ & H); discriminate]|].
    split; [auto|]. split.
    + intros a Ha. apply list_elem_of_singleton in Ha. eauto.
    + intros _. exists h. eexists. repeat split.
Qed.

Lemma X23_startup_gating_witness :
  ∃ handle cam,
    Some (Camera.mk true (Some 7) None) = Some cam ∧
    [Spawn 7] = [Spawn handle] ∧
    Camera.is_running cam = true ∧ Camera.camera_process cam = Some handle.
Proof.
  apply (proj1 (proj2 (proj2 (proj2
           (X23_startup_gating model_failure_startup Model_failed
              (Some (Camera.mk true (Some 7) None)) [Spawn 7] eq_refl))))).
  reflexivity.
Defined.

(** X24. Detections expire: once 2.0 seconds or more have passed since
    the newest sample, smoothing reports ("No detection", 0.0), however
    many samples the history holds and whatever their labels. *)
Theorem X24_detections_expire (self : Controller.t) (newest now : Q) :
  (∀ s, s ∈ detection_history self → (observed_at s <= newest)%Q) →
  (newest + 2.0 <= now)%Q →
  get_smoothed_detection self now = (self, Ok ("No detection", 0.0%Q)).
Proof.
  intros Hnew Hnow. rewrite get_smoothed_detection_eq.
  replace (recent_detections (detection_history self) now)
    with (@nil (string * Q)); [reflexivity|].
  symmetry. apply recent_detections_nil. intros s Hs.
  apply Qlt_bool_false_iff. specialize (Hnew s Hs).
  revert Hnew. generalize (observed_at s). intros t Hnew.
  clear - Hnew Hnow. lra.
Qed.

Lemma X24_detections_expire_witness :
  get_smoothed_detection (set_history scenario_ctrl scenario_samples) 3.0%Q
  = (set_history scenario_ctrl scenario_samples, Ok ("No detection", 0.0%Q)).
Proof.
  apply (X24_detections_expire (set_history scenario_ctrl scenario_samples)
           1.0%Q 3.0%Q).
  - intros s Hs. simpl in Hs. unfold scenario_samples in Hs.
    repeat (apply elem_of_cons in Hs; destruct Hs as [->|Hs];
            [vm_compute; discriminate|]).
    now apply elem_of_nil in Hs.
  - vm_compute. discriminate.
Defined.

(** X25. The display loop of the camera window only reads the stored
    detection and only adds arrays: an iteration of [run_window], with
    its handlers, leaves [current_detection] and every existing array as
    they were.  It clears the running flag only when the quit key is read
    in an iteration that completes, or in the handler of a
    [KeyboardInterrupt] raised in the iteration.  An exception leaves the
    loop only if it was raised in the iteration and is neither of class
    [Exception] nor a [KeyboardInterrupt], or if [print] or [time.sleep]
    raised it inside a handler. *)
Theorem X25_window_loop_reads_only
    (getTextSize : font_metrics) (h : handler_env) (env : window_env)
    (s : window_state) :
  let body := window_body getTextSize env s in
  let out := window_tick_handled getTextSize h env s in
  CameraWindow.current_detection (win out.1)
    = CameraWindow.current_detection (win s) ∧
  wmem s `prefix_of` wmem out.1 ∧
  (CameraWindow.is_running (win out.1) = CameraWindow.is_running (win s) ∨
   CameraWindow.is_running (win out.1) = false ∧
   (Z.land (wenv_key env) 255 = 113%Z ∧ body.2 = Ok tt ∨
    body.2 = Raise KeyboardInterrupt ∧ env_print h = Ok tt)) ∧
  (∀ e, out.2 = Some e →
     (body.2 = Raise e ∧ is_Exception e = false ∧ e ≠ KeyboardInterrupt) ∨
     (∃ e0, body.2 = Raise e0 ∧
            (is_Exception e0 = true ∨ e0 = KeyboardInterrupt) ∧
            (env_print h = Raise e ∨ env_sleep h = Raise e))).
Proof.
  cbv zeta.
  pose proof (window_body_keeps getTextSize env s) as H. cbv zeta in H.
  destruct H as (H1 & H2 & H3). unfold window_tick_handled.
  set (stop := stop_window).
  split; [|split; [|split]].
  - destruct (handlers_state stop h (window_body getTextSize env s))
      as [->|(-> & _)]; exact H1.
  - destruct (handlers_state stop h (window_body getTextSize env s))
      as [->|(-> & _)]; exact H2.
  - destruct (handlers_state stop h (window_body getTextSize env s))
      as [->|(-> & Hki & [[] Hp] & _)].
    + destruct H3 as [H3|(H3 & Hkey & Hok)]; [now left|right; auto].
    + right. split; [reflexivity|]. right. auto.
  - intros e. apply handlers_escape.
Qed.

Lemma X25_window_loop_reads_only_witness :
  ((window_body no_metrics window_failure_env running_window).2
     = Raise KeyboardInterrupt ∧
   is_Exception KeyboardInterrupt = false ∧
   KeyboardInterrupt ≠ KeyboardInterrupt) ∨
  (∃ e0, (window_body no_metrics window_failure_env running_window).2 = Raise e0 ∧
         (is_Exception e0 = true ∨ e0 = KeyboardInterrupt) ∧
         (env_print interrupted_sleep = Raise KeyboardInterrupt ∨
          env_sleep interrupted_sleep = Raise KeyboardInterrupt)).
Proof.
  apply (X25_window_loop_reads_only no_metrics interrupted_sleep
           window_failure_env running_window).
  reflexivity.
Defined.
